(** * AEO audit: crawler, analyzers and monitoring engine

    A shallow embedding of the JavaScript sources of the audit tool
    (lib/crawler.js, lib/monitoring.js, the key-page detector, the content
    coverage checker and the structured-data collector) together with the
    properties their specification states about them.

    Conventions of the embedding:
    - a JavaScript string is a [string] (a byte sequence); the helpers below
      act on ASCII letters and ASCII white space only;
    - an integer-valued JavaScript number is a [Z]; a property that may be
      missing from an object is an [option];
    - a [Set] of strings is a [gset string], an object used as a dictionary
      is a [gmap] or, where key order is observable, an association list;
    - platform services (fetch, the URL class, JSON.parse, the
      regular-expression engine, the path module) are the fields of a type
      class; a reading of the clock is an argument of the function that
      takes it. *)

From Stdlib Require Import ZArith QArith Qround Ascii String List Lia Sorted.
From stdpp Require Import base option list gmap strings pretty.

Set Warnings "-register-all".

Local Open Scope string_scope.
Local Open Scope list_scope.
Local Open Scope Z_scope.

(** ** JavaScript string primitives *)

Module JsString.

Definition lower_ascii (c : ascii) : ascii :=
  let n := nat_of_ascii c in
  if (Nat.leb 65 n && Nat.leb n 90)%bool then ascii_of_nat (n + 32) else c.

(** [s.toLowerCase()] on the ASCII letters; a letter outside ASCII is left
    as it is. The texts the program looks for in a lower-cased string
    ([.css], [/static/], [/blog], [privacy], ...) are ASCII without the letter
    k, and the only letters outside ASCII that lower-case to ASCII are U+212A
    (to k) and U+0130 (to i followed by U+0307), so these searches come out as
    in the program; the lower-cased words that [extractEntities] stores keep
    an upper-case letter outside ASCII, where the program stores its
    lower-case form. *)
Fixpoint toLowerCase (s : string) : string :=
  match s with
  | EmptyString => EmptyString
  | String c r => String (lower_ascii c) (toLowerCase r)
  end.

(** [s.startsWith(p)] *)
Definition startsWith (s p : string) : bool := String.prefix p s.

(** [s.endsWith(suf)] *)
Fixpoint endsWith (s suf : string) : bool :=
  if String.eqb s suf then true
  else match s with
       | EmptyString => false
       | String _ r => endsWith r suf
       end.

(** [s.includes(needle)] *)
Fixpoint includes (s needle : string) : bool :=
  if String.prefix needle s then true
  else match s with
       | EmptyString => false
       | String _ r => includes r needle
       end.

Definition is_space (c : ascii) : bool :=
  let n := nat_of_ascii c in
  ((Nat.leb 9 n && Nat.leb n 13) || Nat.eqb n 32)%bool.

(** A string of the program is held as the bytes of its UTF-8 form (a lone
    surrogate in the three-byte form of its code unit), so a character
    outside ASCII takes two to four bytes here and one or two UTF-16 code
    units in the program. *)

(** [s.length]: the number of UTF-16 code units. A byte that opens a
    character of one to three bytes stands for one unit, a byte that opens a
    character of four bytes (a surrogate pair) for two, a continuation byte
    (0x80 to 0xBF) for none. *)
Definition units (c : ascii) : nat :=
  let n := nat_of_ascii c in
  if (Nat.leb 128 n && Nat.leb n 191)%bool then 0
  else if Nat.leb 240 n then 2 else 1.

Fixpoint length (s : string) : nat :=
  match s with
  | EmptyString => 0
  | String c r => units c + length r
  end.

(** The characters [trim] strips are the WhiteSpace and LineTerminator code
    points of ECMAScript: U+0009 to U+000D and U+0020 ([is_space]), and
    outside ASCII U+00A0, U+1680, U+2000 to U+200A, U+2028, U+2029, U+202F,
    U+205F, U+3000 and U+FEFF, here by their UTF-8 bytes. *)

(** U+00A0 is C2 A0. *)
Definition space2 (a b : ascii) : bool :=
  (Nat.eqb (nat_of_ascii a) 194 && Nat.eqb (nat_of_ascii b) 160)%bool.

(** U+1680 is E1 9A 80; U+2000 to U+200A are E2 80 80 to E2 80 8A; U+2028,
    U+2029 and U+202F are E2 80 A8, E2 80 A9 and E2 80 AF; U+205F is
    E2 81 9F; U+3000 is E3 80 80; U+FEFF is EF BB BF. *)
Definition space3 (a b c : ascii) : bool :=
  let x := nat_of_ascii a in
  let y := nat_of_ascii b in
  let z := nat_of_ascii c in
  ((Nat.eqb x 225 && Nat.eqb y 154 && Nat.eqb z 128)
   || (Nat.eqb x 226 && Nat.eqb y 128
       && ((Nat.leb 128 z && Nat.leb z 138) || Nat.eqb z 168 || Nat.eqb z 169
           || Nat.eqb z 175))
   || (Nat.eqb x 226 && Nat.eqb y 129 && Nat.eqb z 159)
   || (Nat.eqb x 227 && Nat.eqb y 128 && Nat.eqb z 128)
   || (Nat.eqb x 239 && Nat.eqb y 187 && Nat.eqb z 191))%bool.

(** [s.trimStart()] *)
Fixpoint trimStart (s : string) : string :=
  match s with
  | EmptyString => EmptyString
  | String a r =>
      if is_space a then trimStart r
      else match r with
           | EmptyString => s
           | String b r2 =>
               if space2 a b then trimStart r2
               else match r2 with
                    | EmptyString => s
                    | String c r3 => if space3 a b c then trimStart r3 else s
                    end
           end
  end.

(** [s] consists of white space only. *)
Definition all_space (s : string) : bool := String.eqb (trimStart s) "".

(** [s.trimEnd()]: cut where the rest of the string is white space only. *)
Fixpoint trimEnd (s : string) : string :=
  match s with
  | EmptyString => EmptyString
  | String c r => if all_space s then EmptyString else String c (trimEnd r)
  end.

(** [s.trim()] *)
Definition trim (s : string) : string := trimEnd (trimStart s).

(** [s.replace(/\/$/, '')]: drop one trailing slash. *)
Fixpoint stripTrailingSlash (s : string) : string :=
  match s with
  | EmptyString => EmptyString
  | String c EmptyString => if Ascii.eqb c "/"%char then EmptyString else s
  | String c r => String c (stripTrailingSlash r)
  end.

(** A string is truthy iff it is not empty. *)
Definition truthy (s : string) : bool := negb (String.eqb s "").

End JsString.

(** ** JSON values, as produced by [JSON.parse] *)

Inductive JSON : Type :=
| JNull
| JBool (b : bool)
| JNum (q : Q)
| JStr (s : string)
| JArr (l : list JSON)
| JObj (fields : list (string * JSON)).

Module Json.

(** ToBoolean *)
Definition truthy (v : JSON) : bool :=
  match v with
  | JNull => false
  | JBool b => b
  | JNum q => negb (Qeq_bool q 0)
  | JStr s => JsString.truthy s
  | JArr _ | JObj _ => true
  end.

Fixpoint assoc (k : string) (fs : list (string * JSON)) : option JSON :=
  match fs with
  | [] => None
  | (k', v) :: r => if String.eqb k k' then Some v else assoc k r
  end.

(** [obj[k] = v] on a plain object: overwrite in place, or append. *)
Fixpoint assoc_set (k : string) (v : JSON) (fs : list (string * JSON))
  : list (string * JSON) :=
  match fs with
  | [] => [(k, v)]
  | (k', v') :: r =>
      if String.eqb k k' then (k, v) :: r else (k', v') :: assoc_set k v r
  end.

(** Property read [v[k]] for a key that is neither an index nor a built-in
    property name. [None] is a thrown TypeError (reading a property of
    [null]); [Some None] is [undefined]. *)
Definition get (v : JSON) (k : string) : option (option JSON) :=
  match v with
  | JNull => None
  | JObj fs => Some (assoc k fs)
  | _ => Some None
  end.

(** [x || d] where [x] may be [undefined]. *)
Definition or_default (x : option JSON) (d : JSON) : JSON :=
  match x with
  | Some v => if truthy v then v else d
  | None => d
  end.

End Json.

(** ** Data model: page records and snapshots *)

Record Image := mkImage {
  img_src : string;
  img_alt : string;
  img_has_alt : bool
}.

(** A page record is a JavaScript object; apart from [url] and
    [status_code], which every producer sets, each property may be missing. *)
Record Page := mkPage {
  url : string;
  status_code : Z;
  title : option string;
  meta_description : option string;
  h1 : option (list string);
  h2 : option (list string);
  h3 : option (list string);
  structured_data : option (list JSON);
  word_count : option Z;
  images : option (list Image);
  internal_links : option Z;
  external_links : option Z;
  error : option string
}.

Record HealthChecks := { health_score : option Z }.
Record CitationReadiness := { citation_score : option Z }.
Record ContentCoverage := { coverage_score : option Z }.
Record CompilationSummary := { total_issues_found : option Z }.

Record Snapshot := mkSnapshot {
  website_url : string;
  crawled_at : string;
  crawl_duration_ms : Z;
  pages_crawled : option Z;
  pages : option (list Page);
  robots_txt_exists : bool;
  sitemaps : list string;
  key_entities : list string;
  health_checks : option HealthChecks;
  citation_readiness : option CitationReadiness;
  content_coverage : option ContentCoverage;
  compilation_summary : option CompilationSummary;
  baseline_created_at : option string
}.

(** [x || 0] for a number that may be [undefined]. *)
Definition num_or_zero (x : option Z) : Z := default 0 x.

(** [a || b] on numbers that may be [undefined]: the first truthy operand,
    else the last one. *)
Definition num_or (a b : option Z) : option Z :=
  match a with
  | Some n => if Z.eqb n 0 then b else a
  | None => b
  end.

(** ** lib/monitoring.js *)

(** The [path] module of the platform and the directory of the workspace. *)
Class NodePath := {
  WORKSPACE_DIR : string;
  path_isAbsolute : string -> bool;
  path_join : string -> string -> string
}.

Module Monitoring.

Record Change := mkChange {
  c_type : string;
  c_baseline : Z;
  c_current : Z;
  c_delta : Z
}.

Record ScoreDelta := mkScoreDelta {
  sd_baseline : Z;
  sd_current : Z;
  sd_delta : Z
}.

Record Summary := mkSummary {
  has_changes : bool;
  pages_added : Z;
  pages_removed : Z;
  scores : gmap string ScoreDelta
}.

Record Diff := mkDiff {
  timestamp : string;
  changes : list Change;
  summary : Summary
}.

Record Thresholds := mkThresholds {
  new_issues_critical : Z;
  score_drop_above : Z;
  pages_removed_above : Z
}.

Record Alert := mkAlert {
  level : string;
  message : string
}.

Record HistoryEntry := mkHistoryEntry {
  checked_at : string;
  h_diff : Diff;
  h_alerts : list Alert
}.

Record MonitoringCfg := mkMonitoringCfg {
  enabled : bool;
  baseline_snapshot : option string;
  alert_thresholds : Thresholds
}.

Record Config := mkConfig {
  monitoring : MonitoringCfg;
  history : option (list HistoryEntry)
}.

(** The files the engine reads and writes: config/monitoring.json and the
    snapshot files, by path. *)
Record World := mkWorld {
  monitoring_json : option Config;
  snapshot_files : gmap string Snapshot
}.

Inductive CheckResult :=
| Disabled
| NoBaseline (msg : string)
| Checked (status : string) (diff : Diff) (alerts : list Alert)
          (baseline_date : string).

(** [diff.changes.push(c); diff.summary.has_changes = true] *)
Definition push_change (c : Change) (d : Diff) : Diff :=
  mkDiff (timestamp d) (changes d ++ [c])
         (mkSummary true (pages_added (summary d)) (pages_removed (summary d))
                    (scores (summary d))).

Definition set_page_summary (added removed : Z) (d : Diff) : Diff :=
  mkDiff (timestamp d) (changes d)
         (mkSummary (has_changes (summary d)) added removed (scores (summary d))).

Definition set_score (metric : string) (s : ScoreDelta) (d : Diff) : Diff :=
  mkDiff (timestamp d) (changes d)
         (mkSummary (has_changes (summary d)) (pages_added (summary d))
                    (pages_removed (summary d))
                    (<[metric := s]> (scores (summary d)))).

Definition metrics : list string :=
  ["health_score"; "citation_score"; "content_coverage_score"].

(** [s.health_checks?.health_score || s.citation_readiness?.citation_score
     || s.content_coverage?.coverage_score || 0] *)
Definition fallback_score (s : Snapshot) : Z :=
  num_or_zero
    (num_or (num_or (health_checks s ≫= health_score)
                    (citation_readiness s ≫= citation_score))
            (content_coverage s ≫= coverage_score)).

Definition compare_page_count (cur base : Snapshot) (d : Diff) : Diff :=
  let currentPageCount := num_or_zero (pages_crawled cur) in
  let baselinePageCount := num_or_zero (pages_crawled base) in
  if negb (currentPageCount =? baselinePageCount) then
    set_page_summary (Z.max 0 (currentPageCount - baselinePageCount))
                     (Z.max 0 (baselinePageCount - currentPageCount))
      (push_change (mkChange "page_count" baselinePageCount currentPageCount
                             (currentPageCount - baselinePageCount)) d)
  else d.

(** Body of the loop over [metrics]; the two scores do not mention
    [metric]. *)
Definition compare_metric (cur base : Snapshot) (d : Diff) (metric : string)
  : Diff :=
  let currentScore := fallback_score cur in
  let baselineScore := fallback_score base in
  if negb (currentScore =? baselineScore) then
    set_score metric
      (mkScoreDelta baselineScore currentScore (currentScore - baselineScore))
      (push_change (mkChange metric baselineScore currentScore
                             (currentScore - baselineScore)) d)
  else d.

Definition total_issues (s : Snapshot) : Z :=
  num_or_zero (compilation_summary s ≫= total_issues_found).

Definition compare_issues (cur base : Snapshot) (d : Diff) : Diff :=
  let currentIssues := total_issues cur in
  let baselineIssues := total_issues base in
  if negb (currentIssues =? baselineIssues) then
    push_change (mkChange "issues_count" baselineIssues currentIssues
                          (currentIssues - baselineIssues)) d
  else d.

(** [s.pages?.reduce((sum, p) => sum + (p.structured_data?.length || 0), 0)
     || 0] *)
Definition structured_total (s : Snapshot) : Z :=
  num_or_zero
    ((fun ps =>
        fold_left
          (fun sum p =>
             sum + num_or_zero ((fun l => Z.of_nat (length l)) <$> structured_data p))
          ps 0)
     <$> pages s).

Definition compare_structured (cur base : Snapshot) (d : Diff) : Diff :=
  let currentStructuredData := structured_total cur in
  let baselineStructuredData := structured_total base in
  if negb (currentStructuredData =? baselineStructuredData) then
    push_change (mkChange "structured_data_count" baselineStructuredData
                          currentStructuredData
                          (currentStructuredData - baselineStructuredData)) d
  else d.

(** [now] is the value of [new Date().toISOString()] at the call. *)
Definition compareWithBaseline (now : string) (currentSnapshot baseline : Snapshot)
  : Diff :=
  let diff := mkDiff now [] (mkSummary false 0 0 ∅) in
  let diff := compare_page_count currentSnapshot baseline diff in
  let diff := fold_left (compare_metric currentSnapshot baseline) metrics diff in
  let diff := compare_issues currentSnapshot baseline diff in
  compare_structured currentSnapshot baseline diff.

(** Body of the loop of [checkThresholds]: three [if]s in sequence, each
    pushing onto [alerts]. *)
Definition check_change (thresholds : Thresholds) (alerts : list Alert)
           (change : Change) : list Alert :=
  let alerts :=
    if (String.eqb (c_type change) "issues_count"
        && (new_issues_critical thresholds <? c_delta change))%bool
    then alerts ++ [mkAlert "critical"
                      (pretty (c_delta change) +:+ " new issues detected")]
    else alerts in
  let alerts :=
    if (JsString.includes (c_type change) "score"
        && (c_delta change <? - score_drop_above thresholds))%bool
    then alerts ++ [mkAlert "warning"
                      (c_type change +:+ " dropped by "
                       +:+ pretty (Z.abs (c_delta change)) +:+ " points")]
    else alerts in
  if (String.eqb (c_type change) "page_count"
      && (c_delta change <? - pages_removed_above thresholds))%bool
  then alerts ++ [mkAlert "warning"
                    (pretty (Z.abs (c_delta change)) +:+ " pages removed")]
  else alerts.

Definition checkThresholds (diff : Diff) (thresholds : Thresholds) : list Alert :=
  fold_left (check_change thresholds) (changes diff) [].

(** [l.slice(-n)] *)
Definition slice_last {A} (n : nat) (l : list A) : list A :=
  drop (length l - n) l.

Section Engine.
Context `{NodePath}.

Definition loadMonitoringConfig (w : World) : option Config :=
  monitoring_json w.

Definition loadBaseline (w : World) : option Snapshot :=
  match loadMonitoringConfig w with
  | None => None
  | Some config =>
      match baseline_snapshot (monitoring config) with
      | None => None
      | Some p =>
          if JsString.truthy p then
            let baselinePath :=
              if path_isAbsolute p then p else path_join WORKSPACE_DIR p in
            snapshot_files w !! baselinePath
          else None
      end
  end.

(** One monitoring run against the files in [w]; returns the result and
    the files after the run. *)
Definition runMonitoringCheck (w : World) (now : string)
           (currentSnapshot : Snapshot) : CheckResult * World :=
  match loadMonitoringConfig w with
  | None => (Disabled, w)
  | Some config =>
      if negb (enabled (monitoring config)) then (Disabled, w)
      else
        match loadBaseline w with
        | None => (NoBaseline "No baseline snapshot found. Run audit first.", w)
        | Some baseline =>
            let diff := compareWithBaseline now currentSnapshot baseline in
            let alerts := checkThresholds diff (alert_thresholds (monitoring config)) in
            let hist := default [] (history config) in
            let hist := hist ++ [mkHistoryEntry (timestamp diff) diff alerts] in
            let hist :=
              if (30 <? length hist)%nat then slice_last 30 hist else hist in
            let config := mkConfig (monitoring config) (Some hist) in
            (Checked (if (0 <? length alerts)%nat then "alerts" else "ok")
                     diff alerts
                     (match baseline_created_at baseline with
                      | Some s => if JsString.truthy s then s else crawled_at baseline
                      | None => crawled_at baseline
                      end),
             mkWorld (Some config) (snapshot_files w))
        end
  end.

(** A sequence of runs, each with its clock reading and snapshot. *)
Fixpoint run_checks (w : World) (calls : list (string * Snapshot)) : World :=
  match calls with
  | [] => w
  | (now, snap) :: rest => run_checks (snd (runMonitoringCheck w now snap)) rest
  end.

End Engine.

End Monitoring.

(** ** The monitoring rules as the specification words them *)

Module MonitoringSpec.
Import Monitoring.

(** "picking the first non-zero candidate score from an analyzer-priority
    chain": the first present, non-zero number of the list, else 0. *)
Fixpoint first_truthy (candidates : list (option Z)) : Z :=
  match candidates with
  | [] => 0
  | Some n :: rest => if n =? 0 then first_truthy rest else n
  | None :: rest => first_truthy rest
  end.

Definition is_score_type (c : Change) : bool :=
  JsString.includes (c_type c) "score".

(** Gate 1: issue-count delta greater than [new_issues_critical]. *)
Definition gate_issues (new_issues_critical : Z) (c : Change) : list Alert :=
  if (String.eqb (c_type c) "issues_count" && (new_issues_critical <? c_delta c))%bool
  then [mkAlert "critical" (pretty (c_delta c) +:+ " new issues detected")]
  else [].

(** Gate 2: a score-type change more negative than [-score_drop_above]. *)
Definition gate_score (score_drop_above : Z) (c : Change) : list Alert :=
  if (is_score_type c && (c_delta c <? - score_drop_above))%bool
  then [mkAlert "warning"
          (c_type c +:+ " dropped by " +:+ pretty (Z.abs (c_delta c)) +:+ " points")]
  else [].

(** Gate 3: page-count delta more negative than [-pages_removed_above]. *)
Definition gate_pages (pages_removed_above : Z) (c : Change) : list Alert :=
  if (String.eqb (c_type c) "page_count" && (c_delta c <? - pages_removed_above))%bool
  then [mkAlert "warning" (pretty (Z.abs (c_delta c)) +:+ " pages removed")]
  else [].

Definition gates (th : Thresholds) (c : Change) : list Alert :=
  gate_issues (new_issues_critical th) c
  ++ gate_score (score_drop_above th) c
  ++ gate_pages (pages_removed_above th) c.

Definition spec_alerts (diff : Diff) (th : Thresholds) : list Alert :=
  flat_map (gates th) (changes diff).

(** The history entry a run at clock reading [now] on snapshot [snap]
    produces, for monitoring section [m] and baseline [baseline]. *)
Definition entry_of (m : MonitoringCfg) (baseline : Snapshot)
           (call : string * Snapshot) : HistoryEntry :=
  let diff := compareWithBaseline (fst call) (snd call) baseline in
  mkHistoryEntry (fst call) diff (checkThresholds diff (alert_thresholds m)).

(** The history after one more entry is pushed and the list is trimmed to
    its last 30 entries. *)
Definition push_history (hist : list HistoryEntry) (e : HistoryEntry)
  : list HistoryEntry := slice_last 30 (hist ++ [e]).

End MonitoringSpec.

(** ** Content coverage checker *)

Module ContentCoverageChecker.

Record Issue := mkIssue {
  i_type : string;
  i_severity : string;
  i_page : string;
  i_message : string
}.

Record CoverageSummary := mkCoverageSummary {
  total_content_pages : nat;
  pages_with_meta_description : nat;
  pages_with_h1 : nat;
  pages_with_title : nat;
  total_issues : nat;
  high_severity : nat;
  medium_severity : nat;
  summary_coverage_score : Z
}.

Record Result := mkResult {
  issues : list Issue;
  summary : CoverageSummary;
  contentPages : list Page
}.

(** The predicate of the [contentPages] filter. *)
Definition is_content_page (p : Page) : bool :=
  let url := JsString.toLowerCase (url p) in
  (negb (JsString.endsWith url ".css") && negb (JsString.endsWith url ".js")
   && negb (JsString.endsWith url ".ico") && negb (JsString.endsWith url ".png")
   && negb (JsString.endsWith url ".jpg"))%bool.

(** [!s || s.trim() === ''] for a string property that may be missing. *)
Definition blank (s : option string) : bool :=
  match s with
  | None => true
  | Some s => (negb (JsString.truthy s) || String.eqb (JsString.trim s) "")%bool
  end.

(** [s && s.trim()] as a condition. *)
Definition present (s : option string) : bool :=
  match s with
  | None => false
  | Some s => (JsString.truthy s && JsString.truthy (JsString.trim s))%bool
  end.

(** [s.length] *)
Definition str_length (s : string) : Z := Z.of_nat (JsString.length s).

(** Check 1: meta descriptions *)
Definition check_meta_description (issues : list Issue) (page : Page) : list Issue :=
  if blank (meta_description page) then
    issues ++ [mkIssue "missing_meta_description" "high" (url page)
                       "Page missing meta description"]
  else
    let d := default "" (meta_description page) in
    if str_length d <? 50 then
      issues ++ [mkIssue "short_meta_description" "medium" (url page)
                   ("Meta description too short (" +:+ pretty (str_length d)
                    +:+ " chars). Recommended: 150-160")]
    else issues.

(** Check 2: H1 tags *)
Definition check_h1 (issues : list Issue) (page : Page) : list Issue :=
  match h1 page with
  | None | Some [] =>
      issues ++ [mkIssue "missing_h1" "high" (url page) "Page missing H1 heading"]
  | Some hs =>
      if (1 <? length hs)%nat then
        issues ++ [mkIssue "multiple_h1" "medium" (url page)
                     ("Multiple H1 headings found (" +:+ pretty (length hs)
                      +:+ "). Should have exactly one.")]
      else issues
  end.

(** Check 3: title tags *)
Definition check_title (issues : list Issue) (page : Page) : list Issue :=
  if blank (title page) then
    issues ++ [mkIssue "missing_title" "high" (url page) "Page missing title tag"]
  else issues.

(** Check 4: content word count; [undefined < 50] is false. *)
Definition check_word_count (issues : list Issue) (page : Page) : list Issue :=
  match word_count page with
  | Some n =>
      if n <? 50 then
        issues ++ [mkIssue "thin_content" "medium" (url page)
                     ("Very low word count (" +:+ pretty n
                      +:+ "). Pages should have substantial content.")]
      else issues
  | None => issues
  end.

(** Check 5: images without alt text *)
Definition check_images (issues : list Issue) (page : Page) : list Issue :=
  match images page with
  | None | Some [] => issues
  | Some imgs =>
      let imagesWithoutAlt :=
        List.filter (fun img => blank (Some (img_alt img))) imgs in
      if (0 <? length imagesWithoutAlt)%nat then
        issues ++ [mkIssue "images_missing_alt" "medium" (url page)
                     (pretty (length imagesWithoutAlt) +:+ " images missing alt text")]
      else issues
  end.

Definition count_severity (sev : string) (issues : list Issue) : nat :=
  length (List.filter (fun i => String.eqb (i_severity i) sev) issues).

Definition calculateCoverageScore (pages : list Page) (issues : list Issue) : Z :=
  match pages with
  | [] => 0
  | _ =>
      let score := 100 in
      let score := score - Z.of_nat (count_severity "high" issues) * 15 in
      let score := score - Z.of_nat (count_severity "medium" issues) * 5 in
      Z.max 0 (Z.min 100 score)
  end.

Definition has_h1 (p : Page) : bool :=
  match h1 p with
  | Some (_ :: _) => true
  | _ => false
  end.

Definition analyzeContentCoverage (siteSnapshot : Snapshot) : Result :=
  let pages := default [] (pages siteSnapshot) in
  let contentPages := List.filter is_content_page pages in
  let issues := fold_left check_meta_description contentPages [] in
  let issues := fold_left check_h1 contentPages issues in
  let issues := fold_left check_title contentPages issues in
  let issues := fold_left check_word_count contentPages issues in
  let issues := fold_left check_images contentPages issues in
  let summary :=
    mkCoverageSummary
      (length contentPages)
      (length (List.filter (fun p => present (meta_description p)) contentPages))
      (length (List.filter has_h1 contentPages))
      (length (List.filter (fun p => present (title p)) contentPages))
      (length issues)
      (count_severity "high" issues)
      (count_severity "medium" issues)
      (calculateCoverageScore contentPages issues) in
  mkResult issues summary contentPages.

End ContentCoverageChecker.

(** ** Key-page detector *)

Module KeyPages.

(** A JavaScript number that may be [NaN] ([None]). *)
Definition Num := option Q.

Definition num_of (x : option Z) : Num := inject_Z <$> x.

Definition nadd (a b : Num) : Num :=
  match a, b with
  | Some x, Some y => Some (x + y)%Q
  | _, _ => None
  end.

(** [Math.min(a, b)] *)
Definition nmin (a b : Num) : Num :=
  match a, b with
  | Some x, Some y => Some (if Qle_bool x y then x else y)
  | _, _ => None
  end.

(** [Math.round(x)]: the integer nearest to [x], ties upwards. *)
Definition round (x : Num) : option Z :=
  (fun q => Qfloor (q + (1 # 2))%Q) <$> x.

Record KeyPage := mkKeyPage {
  kp_url : string;
  kp_title : string;
  kp_type : string;
  kp_word_count : option Z;
  kp_internal_links : option Z;
  key_headings : list string;
  importance_score : option Z
}.

Definition is_candidate (p : Page) : bool :=
  let url := JsString.toLowerCase (url p) in
  (negb (JsString.endsWith url ".css") && negb (JsString.endsWith url ".js")
   && negb (JsString.endsWith url ".ico") && negb (JsString.endsWith url ".png")
   && negb (JsString.endsWith url ".jpg") && negb (JsString.endsWith url ".gif")
   && negb (JsString.includes url "/static/") && (status_code p =? 200))%bool.

(** [url === url.replace(/\/$/, '') || url.endsWith('/')] *)
Definition root_test (url : string) : bool :=
  (String.eqb url (JsString.stripTrailingSlash url) || JsString.endsWith url "/")%bool.

Definition nonempty {A} (l : option (list A)) : bool :=
  match l with
  | Some (_ :: _) => true
  | _ => false
  end.

Definition contentScore (page : Page) : Num :=
  let score : Num := Some 0%Q in
  let score :=
    nadd score (nmin ((fun w => (w / 10)%Q) <$> num_of (word_count page)) (Some 40%Q)) in
  let score :=
    nadd score ((fun n => (n * 10)%Q) <$> num_of (internal_links page)) in
  let score := if nonempty (h1 page) then nadd score (Some 20%Q) else score in
  let score := if nonempty (h2 page) then nadd score (Some 10%Q) else score in
  if root_test (url page) then nadd score (Some 15%Q) else score.

(** The comparator [(a, b) => b._contentScore - a._contentScore] is negative
    exactly when [a] scores strictly more than [b]; a [NaN] difference
    counts as zero. *)
Definition sorts_before (a b : Page * Num) : bool :=
  match snd a, snd b with
  | Some x, Some y => negb (Qle_bool x y)
  | _, _ => false
  end.

(** [Array.prototype.sort] is stable; modelled as a stable insertion sort.
    Where a score is [NaN] the comparator is not consistent and the order of
    the result is the engine's own; the model then has the order of the
    insertion sort. *)
Fixpoint insert_sorted (x : Page * Num) (l : list (Page * Num)) : list (Page * Num) :=
  match l with
  | [] => [x]
  | y :: r => if sorts_before x y then x :: y :: r else y :: insert_sorted x r
  end.

Definition sort_scored (l : list (Page * Num)) : list (Page * Num) :=
  fold_left (fun acc x => insert_sorted x acc) l [].

Definition classify (url : string) : string :=
  if root_test url then "homepage"
  else if JsString.includes url "/blog" then "blog"
  else if JsString.includes url "/about" then "about"
  else if JsString.includes url "/contact" then "contact"
  else if (JsString.includes url "/product" || JsString.includes url "/service")%bool
       then "product"
  else "content".

Definition to_key_page (scored : Page * Num) : KeyPage :=
  let page := fst scored in
  mkKeyPage (url page)
            (default "" (title page))
            (classify (url page))
            (word_count page)
            (internal_links page)
            (take 5 (default [] (h1 page) ++ default [] (h2 page)))
            (round (snd scored)).

Definition detectKeyPages (pages : list Page) : list KeyPage :=
  let contentPages := List.filter is_candidate pages in
  let scored := map (fun page => (page, contentScore page)) contentPages in
  let scored := sort_scored scored in
  map to_key_page (take 10 scored).

End KeyPages.

(** ** Platform services of the crawler and of the collector *)

(** Outcome of [await fetchPage(url)] followed by [await response.text()]:
    a status and a body, or the message of the error either of them threw
    (network failure, abort on timeout). *)
Inductive FetchResult :=
| Fetched (status : Z) (html : string)
| FetchError (message : string).

(** The regular expressions of the sources whose matching is left to the
    engine of the platform. In the comments, Q stands for the character class
    of the two quote characters, ^Q for its complement and {0,} for the star. *)
Inductive Pattern :=
| re_title        (* /<title[^>]*>([^<]+)<\/title>/i *)
| re_desc         (* /<meta[^>]+name=[Q]description[Q][^>]+content=[Q]([^Q]+)[Q]/i *)
| re_altDesc      (* /<meta[^>]+content=[Q]([^Q]+)[Q][^>]+name=[Q]description[Q]/i *)
| re_h1           (* /<h1[^>]*>([^<]+)<\/h1>/gi *)
| re_h2           (* /<h2[^>]*>([^<]+)<\/h2>/gi *)
| re_h3           (* /<h3[^>]*>([^<]+)<\/h3>/gi *)
| re_img          (* /<img[^>]+>/gi *)
| re_src          (* /src=[Q]([^Q]+)[Q]/ *)
| re_alt          (* /alt=[Q]([^Q]{0,})[Q]/ *)
| re_tag          (* /<[^>]+>/g *)
| re_spaces       (* /\s+/g, /\s+/ *)
| re_og           (* /<meta[^>]+property=[Q](og:[^Q]+)[Q][^>]+content=[Q]([^Q]{0,})[Q]/gi *)
| re_ogAlt        (* /<meta[^>]+content=[Q]([^Q]{0,})[Q][^>]+property=[Q](og:[^Q]+)[Q]/gi *)
| re_twitter      (* /<meta[^>]+name=[Q](twitter:[^Q]+)[Q][^>]+content=[Q]([^Q]{0,})[Q]/gi *)
| re_microdata.   (* /<([^>\s]+)[^>]*itemscope[^>]*itemtype=[Q]([^Q]+)[Q][^>]*>/gi *)

Class WebPlatform := {
  (** the [URL] class *)
  URL : Type;
  (** [new URL(s)]; [None] when the constructor throws *)
  url_parse : string -> option URL;
  (** [new URL(href, base)]; [None] when the constructor throws *)
  url_resolve : string -> URL -> option URL;
  url_href : URL -> string;
  url_hostname : URL -> string;
  (** message of the TypeError a failing [new URL] throws *)
  invalid_url_message : string;
  fetchPage : string -> FetchResult;
  (** [JSON.parse]; [None] when it throws *)
  JSON_parse : string -> option JSON;
  (** the successive matches of a pattern in a text, each with its groups
      (group 0 first), as a loop over [exec] sees them *)
  regex_matches : Pattern -> string -> list (list string);
  (** [text.replace(pattern, by)] *)
  regex_replace : Pattern -> string -> string -> string;
  (** [text.split(pattern)] *)
  regex_split : Pattern -> string -> list string
}.

(** ** Matching of the two patterns the link and JSON-LD extraction rest on *)

Module Scan.

Definition is_quote (c : ascii) : bool :=
  (Nat.eqb (nat_of_ascii c) 34 || Nat.eqb (nat_of_ascii c) 39)%bool.

Definition is_gt (c : ascii) : bool := Ascii.eqb c ">"%char.

(** [s] without the prefix [p], letters compared case-insensitively. *)
Fixpoint strip_prefix_ci (p s : string) : option string :=
  match p with
  | EmptyString => Some s
  | String a p' =>
      match s with
      | EmptyString => None
      | String b s' =>
          if Ascii.eqb (JsString.lower_ascii a) (JsString.lower_ascii b)
          then strip_prefix_ci p' s' else None
      end
  end.

(** Longest prefix of characters not satisfying [stop], and the rest. *)
Fixpoint span_until (stop : ascii -> bool) (s : string) : string * string :=
  match s with
  | EmptyString => (EmptyString, EmptyString)
  | String c r =>
      if stop c then (EmptyString, s)
      else let '(a, b) := span_until stop r in (String c a, b)
  end.

(** First case-insensitive occurrence of [needle]: the text before it and
    the text after it. *)
Fixpoint find_ci (needle s : string) : option (string * string) :=
  match strip_prefix_ci needle s with
  | Some rest => Some (EmptyString, rest)
  | None =>
      match s with
      | EmptyString => None
      | String c r =>
          match find_ci needle r with
          | Some (before, after) => Some (String c before, after)
          | None => None
          end
      end
  end.

(** All matches of a pattern that never matches the empty string, scanning
    from the left and resuming after each match ([lastIndex]). [here s]
    gives, for a match starting at the head of [s], its group 1 and the
    text that follows the match. *)
Fixpoint scan (here : string -> option (string * string)) (skip : nat) (s : string)
  : list string :=
  match s with
  | EmptyString => []
  | String _ r =>
      match skip with
      | S k => scan here k r
      | O =>
          match here s with
          | Some (group1, rest) =>
              group1 :: scan here (String.length s - String.length rest - 1) r
          | None => scan here 0 r
          end
      end
  end.

(** /href=[Q]([^Q]+)[Q]/gi at the head of [s]. *)
Definition href_here (s : string) : option (string * string) :=
  match strip_prefix_ci "href=" s with
  | Some (String q r) =>
      if is_quote q then
        match span_until is_quote r with
        | (String c g, String _ rest) => Some (String c g, rest)
        | _ => None
        end
      else None
  | _ => None
  end.

(** The captured [href] values of a text, in order. *)
Definition hrefs (html : string) : list string := scan href_here 0 html.

(** [type=[Q]application\/ld\+json[Q]] at the head of [s]. *)
Definition type_attr_here (s : string) : bool :=
  match strip_prefix_ci "type=" s with
  | Some (String q r) =>
      if is_quote q then
        match strip_prefix_ci "application/ld+json" r with
        | Some (String q' _) => is_quote q'
        | _ => false
        end
      else false
  | _ => false
  end.

Fixpoint any_suffix (p : string -> bool) (s : string) : bool :=
  if p s then true
  else match s with
       | EmptyString => false
       | String _ r => any_suffix p r
       end.

(** /<script[^>]+type=[Q]application\/ld\+json[Q][^>]*>([\s\S]*?)<\/script>/gi
    at the head of [s]: after [<script], the text up to the first [>] must
    hold the type attribute at an offset of at least one character, and the
    body runs to the first [</script>]. *)
Definition jsonld_here (s : string) : option (string * string) :=
  match strip_prefix_ci "<script" s with
  | Some r =>
      match span_until is_gt r with
      | (String _ attrs, String _ body) =>
          if any_suffix type_attr_here attrs then find_ci "</script>" body
          else None
      | _ => None
      end
  | None => None
  end.

(** The bodies of the JSON-LD script blocks of a text, in order. *)
Definition jsonld_blocks (html : string) : list string := scan jsonld_here 0 html.

End Scan.

(** ** lib/crawler.js *)

Module Crawler.

Definition MAX_PAGES : nat := 10.

Record Meta := mkMeta {
  m_title : string;
  m_meta_description : string;
  m_h1 : list string;
  m_h2 : list string;
  m_h3 : list string;
  m_structured_data : list JSON;
  m_word_count : Z;
  m_images : list Image;
  m_internal_links : Z;
  m_external_links : Z
}.

(** The two module-level collections the traversal shares, [visited] and
    [pages], and the trace of its effect on the outside: the URLs that were
    passed to [fetchPage], in order. *)
Record CrawlState := mkCrawlState {
  visited : gset string;
  crawled : list Page;
  requests : list string
}.

(** [visited.add(url)] *)
Definition add_visited (url : string) (st : CrawlState) : CrawlState :=
  mkCrawlState ({[url]} ∪ visited st) (crawled st) (requests st).

(** The call [fetchPage(url)], as far as the trace goes. *)
Definition log_request (url : string) (st : CrawlState) : CrawlState :=
  mkCrawlState (visited st) (crawled st) (requests st ++ [url]).

(** [pages.push(p)] *)
Definition push_page (p : Page) (st : CrawlState) : CrawlState :=
  mkCrawlState (visited st) (crawled st ++ [p]) (requests st).

(** [[...new Set(links)]]: first occurrences, in order. *)
Fixpoint dedup_from (seen : list string) (l : list string) : list string :=
  match l with
  | [] => []
  | x :: r =>
      if bool_decide (x ∈ seen) then dedup_from seen r
      else x :: dedup_from (x :: seen) r
  end.

Definition dedup (l : list string) : list string := dedup_from [] l.

Definition group (n : nat) (m : list string) : string := nth n m "".

Definition skipped_href (href : string) : bool :=
  (JsString.startsWith href "#" || JsString.startsWith href "javascript:"
   || JsString.startsWith href "mailto:" || JsString.startsWith href "tel:")%bool.

Section WithPlatform.
Context `{WebPlatform}.

(** Body of the loop of [extractLinks]. *)
Definition collect_link (base : URL) (links : list string) (href : string)
  : list string :=
  if skipped_href href then links
  else match url_resolve href base with
       | None => links
       | Some resolvedUrl =>
           if String.eqb (url_hostname resolvedUrl) (url_hostname base)
           then links ++ [url_href resolvedUrl]
           else links
       end.

Definition extractLinks (html : string) (base : URL) : list string :=
  dedup (fold_left (collect_link base) (Scan.hrefs html) []).

(** [html.match(pattern)] for a pattern without the [g] flag. *)
Definition first_match (p : Pattern) (text : string) : option (list string) :=
  head (regex_matches p text).

Definition headings (p : Pattern) (html : string) : list string :=
  map (fun m => JsString.trim (regex_replace re_tag "" (group 1 m)))
      (regex_matches p html).

Definition parse_image (tag : string) : option Image :=
  let img := mkImage "" "" false in
  let img :=
    match first_match re_src tag with
    | Some m => mkImage (group 1 m) (img_alt img) (img_has_alt img)
    | None => img
    end in
  let img :=
    match first_match re_alt tag with
    | Some m => mkImage (img_src img) (group 1 m)
                        (0 <? String.length (group 1 m))%nat
    | None => img
    end in
  if JsString.truthy (img_src img) then Some img else None.

Definition extractMeta (html : string) : Meta :=
  let title :=
    match first_match re_title html with
    | Some m => JsString.trim (group 1 m)
    | None => ""
    end in
  let meta_description :=
    match first_match re_desc html with
    | None =>
        match first_match re_altDesc html with
        | Some m => JsString.trim (group 1 m)
        | None => ""
        end
    | Some m => JsString.trim (group 1 m)
    end in
  let structured_data :=
    omap JSON_parse (Scan.jsonld_blocks html) in
  let images :=
    omap (fun m => parse_image (group 0 m)) (regex_matches re_img html) in
  let textOnly :=
    JsString.trim (regex_replace re_spaces " " (regex_replace re_tag " " html)) in
  let word_count :=
    length (List.filter (fun w => (0 <? String.length w)%nat)
                        (regex_split re_spaces textOnly)) in
  mkMeta title meta_description
         (headings re_h1 html) (headings re_h2 html) (headings re_h3 html)
         structured_data (Z.of_nat word_count) images 0 0.

(** [links.filter(l => new URL(l).hostname === baseUrl.hostname)];
    [None] when a [new URL(l)] throws. *)
Fixpoint filter_internal (baseUrl : URL) (links : list string)
  : option (list string) :=
  match links with
  | [] => Some []
  | l :: rest =>
      match url_parse l with
      | None => None
      | Some u =>
          match filter_internal baseUrl rest with
          | None => None
          | Some kept =>
              Some (if String.eqb (url_hostname u) (url_hostname baseUrl)
                    then l :: kept else kept)
          end
      end
  end.

(** The record of the [catch] branch. *)
Definition error_page (url message : string) : Page :=
  mkPage url 0 None None None None None None None None None None (Some message).

(** [{ url, status_code: response.status, ...extractMeta(html) }] with the
    two link counts then overwritten. *)
Definition page_data (url : string) (status : Z) (m : Meta)
           (internal external : Z) : Page :=
  mkPage url status (Some (m_title m)) (Some (m_meta_description m))
         (Some (m_h1 m)) (Some (m_h2 m)) (Some (m_h3 m))
         (Some (m_structured_data m)) (Some (m_word_count m))
         (Some (m_images m)) (Some internal) (Some external) None.

(** The loop over the links to follow; [visit] is the recursive call. *)
Fixpoint follow (visit : string -> CrawlState -> option CrawlState)
         (links : list string) (st : CrawlState) : option CrawlState :=
  match links with
  | [] => Some st
  | link :: rest =>
      if bool_decide (link ∈ visited st) then follow visit rest st
      else match visit link st with
           | Some st' => follow visit rest st'
           | None => None
           end
  end.

(** [crawl(url)] on the shared state; [None] only when [fuel], which
    bounds the depth of the recursion, runs out. *)
Fixpoint crawl (baseUrl : URL) (fuel : nat) (url : string) (st : CrawlState)
  : option CrawlState :=
  match fuel with
  | O => None
  | S fuel =>
      if (bool_decide (url ∈ visited st)
          || (MAX_PAGES <=? length (crawled st))%nat)%bool
      then Some st
      else
        let st := log_request url (add_visited url st) in
        match fetchPage url with
        | FetchError message => Some (push_page (error_page url message) st)
        | Fetched status html =>
            let meta := extractMeta html in
            match url_parse url with
            | None => Some (push_page (error_page url invalid_url_message) st)
            | Some base =>
                let allLinks := extractLinks html base in
                match filter_internal baseUrl allLinks with
                | None => Some (push_page (error_page url invalid_url_message) st)
                | Some internal =>
                    let internal_links := Z.of_nat (length internal) in
                    let external_links :=
                      Z.of_nat (length allLinks) - internal_links in
                    let st :=
                      push_page (page_data url status meta internal_links
                                           external_links) st in
                    match filter_internal baseUrl allLinks with
                    | None =>
                        Some (push_page (error_page url invalid_url_message) st)
                    | Some internalLinks =>
                        follow (crawl baseUrl fuel)
                               (take (MAX_PAGES - length (crawled st)) internalLinks)
                               st
                    end
                end
            end
        end
  end.

(** [await crawl(START_URL)] from the empty collections. A nesting depth
    of [MAX_PAGES + 1] is never exceeded (see [crawl_total]). *)
Definition run_crawl (baseUrl : URL) (START_URL : string) : option CrawlState :=
  crawl baseUrl (S MAX_PAGES) START_URL (mkCrawlState ∅ [] []).

(** [main]: [None] when [new URL(START_URL)] throws at load time. *)
Definition main (START_URL crawled_at : string) (crawlDuration : Z)
  : option Snapshot :=
  baseUrl ← url_parse START_URL;
  st ← run_crawl baseUrl START_URL;
  Some (mkSnapshot START_URL crawled_at crawlDuration
                   (Some (Z.of_nat (length (crawled st)))) (Some (crawled st))
                   false [] [] None None None None None).

End WithPlatform.

End Crawler.

(** ** The link counts as the specification words them *)

Module CrawlerSpec.
Import Crawler.

Section WithPlatform.
Context `{WebPlatform}.

(** The links of a page: every [href] that is not an anchor, [javascript:],
    [mailto:] or [tel:] reference and that resolves against the page. *)
Definition resolved_links (html : string) (base : URL) : list URL :=
  omap (fun href => if skipped_href href then None else url_resolve href base)
       (Scan.hrefs html).

Definition same_host (base r : URL) : bool :=
  String.eqb (url_hostname r) (url_hostname base).

(** "the number of distinct same-hostname links" *)
Definition spec_internal_links (html : string) (base : URL) : Z :=
  Z.of_nat (length (dedup (map url_href
                             (List.filter (same_host base) (resolved_links html base))))).

(** "the number of distinct cross-host links" *)
Definition spec_external_links (html : string) (base : URL) : Z :=
  Z.of_nat (length (dedup (map url_href
                             (List.filter (fun r => negb (same_host base r))
                                          (resolved_links html base))))).

End WithPlatform.

End CrawlerSpec.

(** ** Invariants of the traversal *)

Module CrawlerInvariant.
Import Crawler.

Section WithPlatform.
Context `{WebPlatform}.

Definition urls (st : CrawlState) : list string := url <$> crawled st.

(** What the traversal maintains on its two collections. *)
Record Inv (st : CrawlState) : Prop := {
  inv_nodup : NoDup (urls st);
  inv_visited : forall u, u ∈ urls st -> u ∈ visited st;
  inv_budget : (length (crawled st) <= MAX_PAGES)%nat;
  inv_requests : requests st = urls st
}.

(** The invariant together with a property [P] of every record. *)
Definition Good (P : Page -> Prop) (st : CrawlState) : Prop :=
  Inv st /\ Forall P (crawled st).


(** A URL string that, if it parses, parses to the host of the seed. *)
Definition on_seed_host (baseUrl : URL) (u : string) : Prop :=
  forall b, url_parse u = Some b -> url_hostname b = url_hostname baseUrl.

(** A record is an error record or counts no external link. *)
Definition no_external (p : Page) : Prop :=
  is_Some (error p) \/ external_links p = Some 0.

End WithPlatform.

End CrawlerInvariant.

(** ** Structured-data collector *)

Module StructuredData.

Definition entry (type : string) (schema data : JSON) : JSON :=
  JObj [("type", JStr type); ("schema", schema); ("data", data)].

(** [s.split('/').pop()]: the text after the last slash. *)
Fixpoint last_segment (s : string) : string :=
  match s with
  | EmptyString => EmptyString
  | String c r =>
      if JsString.includes r "/" then last_segment r
      else if Ascii.eqb c "/"%char then r else s
  end.

(** [s.replace(']', '')]: drop the first closing bracket. *)
Fixpoint drop_first_bracket (s : string) : string :=
  match s with
  | EmptyString => EmptyString
  | String c r => if Ascii.eqb c "]"%char then r else String c (drop_first_bracket r)
  end.

Definition is_jsonld (e : JSON) : bool :=
  match Json.get e "type" with
  | Some (Some (JStr t)) => String.eqb t "json-ld"
  | _ => false
  end.

Section WithPlatform.
Context `{WebPlatform}.

(** Body of the JSON-LD loop: a block is pushed unless the [try] throws,
    in [JSON.parse] or in the read of [parsed['@type']]. *)
Definition jsonld_entry (block : string) : option JSON :=
  match JSON_parse block with
  | None => None
  | Some parsed =>
      match Json.get parsed "@type" with
      | None => None
      | Some ty => Some (entry "json-ld" (Json.or_default ty (JStr "Unknown")) parsed)
      end
  end.

Definition tags_of (key value : nat) (tags : list (string * JSON))
           (matches : list (list string)) : list (string * JSON) :=
  fold_left (fun tags m =>
               Json.assoc_set (Crawler.group key m) (JStr (Crawler.group value m)) tags)
            matches tags.

Definition tag_entry (type typeKey fallback : string) (tags : list (string * JSON))
  : list JSON :=
  match tags with
  | [] => []
  | _ => [entry type (Json.or_default (Json.assoc typeKey tags) (JStr fallback))
                (JObj tags)]
  end.

Definition microdata_entry (m : list string) : JSON :=
  let schemaUrl := Crawler.group 2 m in
  let schemaType := drop_first_bracket (last_segment schemaUrl) in
  entry "microdata" (JStr schemaType)
        (JObj [("element", JStr (Crawler.group 1 m)); ("itemType", JStr schemaUrl)]).

Definition extractStructuredData (html url : string) : list JSON :=
  let results := omap jsonld_entry (Scan.jsonld_blocks html) in
  let ogTags := tags_of 1 2 [] (regex_matches re_og html) in
  let ogTags := tags_of 2 1 ogTags (regex_matches re_ogAlt html) in
  let results := results ++ tag_entry "opengraph" "og:type" "website" ogTags in
  let twitterTags := tags_of 1 2 [] (regex_matches re_twitter html) in
  let results :=
    results ++ tag_entry "twitter-card" "twitter:card" "summary" twitterTags in
  results ++ map microdata_entry (regex_matches re_microdata html).

Definition set_structured_data (p : Page) (sd : list JSON) : Page :=
  mkPage (url p) (status_code p) (title p) (meta_description p) (h1 p) (h2 p)
         (h3 p) (Some sd) (word_count p) (images p) (internal_links p)
         (external_links p) (error p).

(** Body of the loop of the collector's [main] over the pages. *)
Definition process_page (page : Page) : Page :=
  if negb (status_code page =? 200) then page
  else match fetchPage (url page) with
       | Fetched _ html =>
           set_structured_data page (extractStructuredData html (url page))
       | FetchError _ => set_structured_data page []
       end.

End WithPlatform.

End StructuredData.

(** ** Concrete inputs used by the examples below *)

Module Fixtures.

Definition bare_page (u : string) (t : string) : Page :=
  mkPage u 200 (Some t) None None None None None (Some 30) None None None None.

Definition snapshot_of_pages (ps : list Page) : Snapshot :=
  mkSnapshot "https://example.com/" "2024-01-01T00:00:00.000Z" 1200
             (Some (Z.of_nat (length ps))) (Some ps) false [] []
             None None None None None.

(** A crawled script file: status 200, 30 words, a title, nothing else. *)
Definition script_page : Page := bare_page "https://example.com/app.js" "App".

(** A page whose title consists of one space. *)
Definition blank_title_page : Page := bare_page "https://example.com/" " ".

Definition blog_page : Page :=
  mkPage "https://example.com/blog/post-1" 200 (Some "First post") (Some "A post")
         (Some ["First post"]) (Some []) (Some []) (Some []) (Some 120) (Some [])
         (Some 3) (Some 0) None.

Definition two_alert_diff : Monitoring.Diff :=
  Monitoring.mkDiff "2024-01-02T00:00:00.000Z"
    [Monitoring.mkChange "issues_count" 0 3 3;
     Monitoring.mkChange "page_count" 9 4 (-5)]
    (Monitoring.mkSummary true 0 5 ∅).

(** *** A small closed web

    Four absolute URLs on two hosts, three pages of [example.com] that
    answer and one that does not, and just enough of the URL class and of
    [JSON.parse] for the links and script bodies occurring in them. *)

Definition home_html : string :=
  "<a href='/about'>About</a> <a href='https://other.example/'>Partner</a> "
  +:+ "<a href='/broken'>Broken</a> <a href='/about'>About again</a>".

Definition about_html : string :=
  "<h1>About</h1><script type='application/ld+json'>{}</script>"
  +:+ "<script type='application/ld+json'>{bad</script>".

(** A page whose only link leaves the site. *)
Definition partners_html : string :=
  "<p>See <a href='https://other.example/'>our partner</a>.</p>".

(** Two JSON-LD blocks: the JSON value [null], and a malformed one. *)
Definition null_and_bad_html : string :=
  "<script type='application/ld+json'>null</script>"
  +:+ "<script type='application/ld+json'>{bad</script>".

Record ToyURL := mkToyURL { toy_href : string; toy_hostname : string }.

Definition toy_hosts : list (string * string) :=
  [("https://example.com/", "example.com");
   ("https://example.com/about", "example.com");
   ("https://example.com/broken", "example.com");
   ("https://example.com/partners", "example.com");
   ("https://other.example/", "other.example")].

Fixpoint lookup_host (s : string) (table : list (string * string)) : option string :=
  match table with
  | [] => None
  | (k, h) :: rest => if String.eqb s k then Some h else lookup_host s rest
  end.

Definition toy_parse (s : string) : option ToyURL :=
  mkToyURL s <$> lookup_host s toy_hosts.

Definition toy_resolve (href : string) (base : ToyURL) : option ToyURL :=
  if String.eqb href "/about" then toy_parse "https://example.com/about"
  else if String.eqb href "/broken" then toy_parse "https://example.com/broken"
  else toy_parse href.

Definition toy_fetch (u : string) : FetchResult :=
  if String.eqb u "https://example.com/" then Fetched 200 home_html
  else if String.eqb u "https://example.com/about" then Fetched 200 about_html
  else if String.eqb u "https://example.com/partners" then Fetched 200 partners_html
  else FetchError "fetch failed".

Definition toy_json (s : string) : option JSON :=
  if String.eqb s "null" then Some JNull
  else if String.eqb s "{}" then Some (JObj [])
  else None.

#[local] Instance toy_web : WebPlatform := {|
  URL := ToyURL;
  url_parse := toy_parse;
  url_resolve := toy_resolve;
  url_href := toy_href;
  url_hostname := toy_hostname;
  invalid_url_message := "Invalid URL";
  fetchPage := toy_fetch;
  JSON_parse := toy_json;
  regex_matches := fun _ _ => [];
  regex_replace := fun _ _ text => text;
  regex_split := fun _ text => [text]
|}.

Definition toy_base : ToyURL := mkToyURL "https://example.com/" "example.com".

#[local] Instance toy_path : NodePath := {|
  WORKSPACE_DIR := "/srv/aeo-workspace";
  path_isAbsolute := fun p => JsString.startsWith p "/";
  path_join := fun a b => a +:+ "/" +:+ b
|}.

Definition toy_thresholds : Monitoring.Thresholds := Monitoring.mkThresholds 0 10 1.

Definition toy_baseline : Snapshot := snapshot_of_pages [blog_page].

Definition toy_world : Monitoring.World :=
  Monitoring.mkWorld
    (Some (Monitoring.mkConfig
             (Monitoring.mkMonitoringCfg true (Some "data/baseline_snapshot.json")
                                         toy_thresholds)
             None))
    {["/srv/aeo-workspace/data/baseline_snapshot.json" := toy_baseline]}.

(** Thirty-five runs, the [i]-th on a snapshot of [i] pages. *)
Definition toy_calls : list (string * Snapshot) :=
  map (fun i => ("run-" +:+ pretty i, snapshot_of_pages (replicate i blog_page)))
      (seq 1 35).

End Fixtures.

(** ** Auxiliary notions for the further properties of the diff *)

Module MonitoringAux.
Import Monitoring.

(** A diff is flagged exactly when it lists a change. *)
Definition flagged (d : Diff) : Prop :=
  has_changes (summary d) = true <-> changes d <> [].

(** An entry with baseline and current exchanged and the delta negated. *)
Definition flip_change (c : Change) : Change :=
  mkChange (c_type c) (c_current c) (c_baseline c) (- c_delta c).

(** Component-wise order on thresholds. *)
Definition thresholds_le (a b : Thresholds) : Prop :=
  new_issues_critical a <= new_issues_critical b
  /\ score_drop_above a <= score_drop_above b
  /\ pages_removed_above a <= pages_removed_above b.

Definition is_checked (r : CheckResult) : bool :=
  match r with
  | Checked _ _ _ _ => true
  | _ => false
  end.

End MonitoringAux.

(** ** The monitoring command line: creating a baseline *)

Module MonitoringCli.
Import Monitoring.

(** [{...snapshot, baseline_created_at: now}]. The copy also gets a property
    [original_crawled_at], and the configuration below a property
    [monitoring.baseline_created_at]; no function of the engine reads either,
    and the records of the data model do not list them. *)
Definition stamp_baseline (now : string) (snapshot : Snapshot) : Snapshot :=
  mkSnapshot (website_url snapshot) (crawled_at snapshot) (crawl_duration_ms snapshot)
             (pages_crawled snapshot) (pages snapshot) (robots_txt_exists snapshot)
             (sitemaps snapshot) (key_entities snapshot) (health_checks snapshot)
             (citation_readiness snapshot) (content_coverage snapshot)
             (compilation_summary snapshot) (Some now).

Section WithPath.
Context `{NodePath}.

Definition DATA_DIR : string := path_join WORKSPACE_DIR "data".

(** [createBaseline(snapshot)]: the baseline file is written first, then the
    configuration is read, changed and written back. The boolean is [false]
    when reading the configuration throws because the file is missing; the
    baseline file has been written by then. *)
Definition createBaseline (w : World) (now : string) (snapshot : Snapshot)
  : World * bool :=
  let baselinePath := path_join DATA_DIR "baseline_snapshot.json" in
  let baseline := stamp_baseline now snapshot in
  let w := mkWorld (monitoring_json w) (<[baselinePath := baseline]> (snapshot_files w)) in
  match monitoring_json w with
  | None => (w, false)
  | Some config =>
      let m := mkMonitoringCfg (enabled (monitoring config))
                               (Some "data/baseline_snapshot.json")
                               (alert_thresholds (monitoring config)) in
      (mkWorld (Some (mkConfig m (history config))) (snapshot_files w), true)
  end.

End WithPath.

End MonitoringCli.

(** ** Auxiliary notions for the content coverage checker *)

Module ContentCoverageAux.
Import ContentCoverageChecker.

(** An issue of the analyzer: high or medium, and about one of the pages. *)
Definition issue_about (ps : list Page) (i : Issue) : Prop :=
  (i_severity i = "high" \/ i_severity i = "medium")
  /\ exists p, p ∈ ps /\ i_page i = url p.

(** A page that passes all five checks: a meta description of at least 50
    characters, exactly one H1, a title, at least 50 words when the word
    count is known, and no image with a blank alt text. *)
Definition clean_page (p : Page) : bool :=
  (match meta_description p with
   | Some d => negb (blank (Some d)) && (50 <=? str_length d)
   | None => false
   end
   && match h1 p with
      | Some [_] => true
      | _ => false
      end
   && negb (blank (title p))
   && match word_count p with
      | Some n => 50 <=? n
      | None => true
      end
   && match images p with
      | Some imgs => forallb (fun img => negb (blank (Some (img_alt img)))) imgs
      | None => true
      end)%bool.

(** What one check can add for one page: at most one issue, of high or
    medium severity, about that page. *)
Definition one_issue_for (p : Page) (l : list Issue) : Prop :=
  (length l <= 1)%nat
  /\ Forall (fun i => (i_severity i = "high" \/ i_severity i = "medium")
                      /\ i_page i = url p) l.

End ContentCoverageAux.

(** ** Auxiliary notions for the key-page detector *)

Module KeyPagesAux.
Import KeyPages.

(** [a] scores at least as much as [b], both scores being numbers. *)
Definition scores_ge (a b : Page * Num) : Prop :=
  exists x y, snd a = Some x /\ snd b = Some y /\ (y <= x)%Q.

Definition has_score (a : Page * Num) : Prop := is_Some (snd a).

(** The record of a page has the two numbers the score is computed from. *)
Definition counts_known (p : Page) : Prop :=
  is_Some (word_count p) /\ is_Some (internal_links p).

(** [a] is listed with an importance at least that of [b]. *)
Definition importance_ge (a b : KeyPage) : Prop :=
  exists x y, importance_score a = Some x /\ importance_score b = Some y /\ y <= x.

End KeyPagesAux.

(** ** Entity extraction of the key-page module *)

(** The one further property of the [URL] class that the entity extraction
    reads. *)
Class UrlPathname `{WebPlatform} := {
  url_pathname : URL -> string
}.

Module Entities.

Record Entity := mkEntity {
  e_type : string;
  e_value : string;
  e_display : string;
  e_source : string
}.

(** The two locals of [extractEntities]: the list and the [seen] set. *)
Record EState := mkEState {
  entities : list Entity;
  seen : gset string
}.

(** [s.split(sep)] for a one-character separator. *)
Fixpoint split_char (sep : ascii) (s : string) : list string :=
  match s with
  | EmptyString => [EmptyString]
  | String c r =>
      if Ascii.eqb c sep then EmptyString :: split_char sep r
      else match split_char sep r with
           | w :: ws => String c w :: ws
           | [] => [String c EmptyString]
           end
  end.

(** [s.split(/\s+/)]: the pieces between maximal runs of white space, with an
    empty piece before a leading and after a trailing run. [in_run] tells
    that the previous character was white space. *)
Fixpoint split_spaces_from (in_run : bool) (s : string) : list string :=
  match s with
  | EmptyString => [EmptyString]
  | String c r =>
      if JsString.is_space c then
        if in_run then split_spaces_from true r
        else EmptyString :: split_spaces_from true r
      else match split_spaces_from false r with
           | w :: ws => String c w :: ws
           | [] => [String c EmptyString]
           end
  end.

Definition split_spaces (s : string) : list string := split_spaces_from false s.

(** [s.replace(/[-_]/g, ' ')] *)
Fixpoint dashes_to_spaces (s : string) : string :=
  match s with
  | EmptyString => EmptyString
  | String c r =>
      String (if (Ascii.eqb c "-" || Ascii.eqb c "_")%bool then " "%char else c)
             (dashes_to_spaces r)
  end.

(** The guarded push that all four loops share:
    [if (key.length > min && !seen.has(key)) { seen.add(key); entities.push(..) }] *)
Definition add_entity (type : string) (min : nat) (value key source : string)
           (st : EState) : EState :=
  if ((min <? String.length key)%nat && negb (bool_decide (key ∈ seen st)))%bool
  then mkEState (entities st ++ [mkEntity type value key source]) ({[key]} ∪ seen st)
  else st.

Definition add_segment (source : string) (st : EState) (segment : string) : EState :=
  let normalized := dashes_to_spaces (JsString.toLowerCase segment) in
  add_entity "url_path" 2 segment normalized source st.

Definition add_word (type source : string) (st : EState) (word : string) : EState :=
  add_entity type 3 word word source st.

Definition add_words (type source : string) (st : EState) (text : string) : EState :=
  fold_left (add_word type source) (split_spaces (JsString.toLowerCase text)) st.

Section WithPlatform.
Context `{UrlPathname}.

(** Body of [pages.forEach]; [None] when [new URL(page.url)] throws. *)
Definition entities_of_page (st : EState) (page : Page) : option EState :=
  match url_parse (url page) with
  | None => None
  | Some u =>
      let pathSegments :=
        List.filter (fun s => (JsString.truthy s && negb (String.eqb s "index.html"))%bool)
                    (split_char "/" (url_pathname u)) in
      let st := fold_left (add_segment (url page)) pathSegments st in
      let st :=
        match title page with
        | Some t => if (0 <? String.length t)%nat then add_words "title" (url page) st t
                    else st
        | None => st
        end in
      let st :=
        match h1 page with
        | Some hs => fold_left (add_words "heading" (url page)) hs st
        | None => st
        end in
      let st :=
        match h2 page with
        | Some hs => fold_left (add_words "heading" (url page)) hs st
        | None => st
        end in
      Some st
  end.

Fixpoint entities_of_pages (st : EState) (pages : list Page) : option EState :=
  match pages with
  | [] => Some st
  | page :: rest =>
      match entities_of_page st page with
      | Some st' => entities_of_pages st' rest
      | None => None
      end
  end.

Definition extractEntities (pages : list Page) : option (list Entity) :=
  entities <$> entities_of_pages (mkEState [] ∅) pages.

End WithPlatform.



End Entities.

(** ** Further concrete inputs *)

Module MoreFixtures.

Definition about_page : Page :=
  mkPage "https://example.com/about" 200 (Some "About our bakery team")
         (Some "Who we are") (Some ["Our team"; "Our bakery"]) (Some ["Contact the team"])
         (Some []) (Some []) (Some 400) (Some []) (Some 5) (Some 0) None.

Definition toy_pathname (u : Fixtures.ToyURL) : string :=
  String.substring (8 + String.length (Fixtures.toy_hostname u))
                   (String.length (Fixtures.toy_href u)) (Fixtures.toy_href u).

#[local] Instance toy_paths : @UrlPathname Fixtures.toy_web :=
  @Build_UrlPathname Fixtures.toy_web toy_pathname.

End MoreFixtures.

(** ** Citation readiness checks *)

Module CitationChecks.
Import ContentCoverageChecker.

(** The five schema flags of check 1. *)
Record SchemaFlags := mkSchemaFlags {
  hasSchemaOrg : bool;
  hasAuthorSchema : bool;
  hasOrganizationSchema : bool;
  hasFAQSchema : bool;
  hasHowToSchema : bool
}.

(** The locals of check 2. *)
Record Eeat := mkEeat {
  eatScore : Z;
  hasAuthorInfo : bool;
  hasContactInfo : bool;
  hasAboutPage : bool;
  hasPrivacyPolicy : bool
}.

Record CitationResult := mkCitationResult {
  r_citation_score : Z;
  r_max_score : Z;
  r_total_issues : nat;
  r_high_severity : nat;
  r_medium_severity : nat;
  r_low_severity : nat;
  r_structured_data_score : Z;
  r_flags : SchemaFlags;
  r_eeat : Eeat;
  r_content_score : Z;
  r_pages_with_substantial_content : nat;
  r_pages_with_headings : nat;
  r_issues : list Issue
}.

(** [v === name] for a property value that may be [undefined]. *)
Definition type_is (ty : option JSON) (name : string) : bool :=
  match ty with
  | Some (JStr s) => String.eqb s name
  | _ => false
  end.

(** [ctx.includes('schema.org')] for a truthy [ctx]: substring test on a
    string, membership test on an array, and a TypeError ([None]) on any
    other value, which has no callable [includes]. *)
Definition includes_schema_org (ctx : JSON) : option bool :=
  match ctx with
  | JStr s => Some (JsString.includes s "schema.org")
  | JArr l =>
      Some (existsb (fun x => match x with
                              | JStr t => String.eqb t "schema.org"
                              | _ => false
                              end) l)
  | _ => None
  end.

(** [sd['@type'] === 'SchemaOrg' ||
     (sd['@context'] && sd['@context'].includes('schema.org'))],
    for [sd] other than [null]. *)
Definition is_schema_org (sd : JSON) (ty : option JSON) : option bool :=
  if type_is ty "SchemaOrg" then Some true
  else match Json.get sd "@context" with
       | Some (Some ctx) => if Json.truthy ctx then includes_schema_org ctx else Some false
       | _ => Some false
       end.

(** [sd.mainEntity && Array.isArray(sd.mainEntity)] *)
Definition has_main_entity_array (sd : JSON) : bool :=
  match Json.get sd "mainEntity" with
  | Some (Some (JArr _)) => true
  | _ => false
  end.

(** Body of the loop over the structured-data items of a page; [None] when
    it throws: on [null], whose properties cannot be read, and on a
    [@context] without [includes]. *)
Definition scan_item (f : SchemaFlags) (sd : JSON) : option SchemaFlags :=
  match Json.get sd "@type" with
  | None => None
  | Some ty =>
      match is_schema_org sd ty with
      | None => None
      | Some schema =>
          Some (mkSchemaFlags
                  (hasSchemaOrg f || schema)
                  (hasAuthorSchema f || type_is ty "Person" || type_is ty "Author")
                  (hasOrganizationSchema f || type_is ty "Organization"
                   || type_is ty "Corporation")
                  (hasFAQSchema f || type_is ty "FAQPage" || has_main_entity_array sd)
                  (hasHowToSchema f || type_is ty "HowTo"))
      end
  end.

Fixpoint scan_items (f : SchemaFlags) (items : list JSON) : option SchemaFlags :=
  match items with
  | [] => Some f
  | sd :: rest =>
      match scan_item f sd with
      | Some f' => scan_items f' rest
      | None => None
      end
  end.

(** Body of the loop over the pages in check 1. *)
Definition scan_page (acc : Z * SchemaFlags) (page : Page) : option (Z * SchemaFlags) :=
  match structured_data page with
  | Some (sd :: rest) =>
      match scan_items (snd acc) (sd :: rest) with
      | Some f => Some (fst acc + 10, f)
      | None => None
      end
  | _ => Some acc
  end.

Fixpoint scan_pages (acc : Z * SchemaFlags) (pages : list Page)
  : option (Z * SchemaFlags) :=
  match pages with
  | [] => Some acc
  | page :: rest =>
      match scan_page acc page with
      | Some acc' => scan_pages acc' rest
      | None => None
      end
  end.

(** [arr.join(' ')] *)
Definition join_spaces (l : list string) : string := String.concat " " l.

(** The text of a page that the keyword search looks at. *)
Definition page_text (p : Page) : string :=
  default "" (title p) +:+ " " +:+ default "" (meta_description p) +:+ " "
  +:+ default "" (join_spaces <$> h1 p) +:+ " "
  +:+ default "" (join_spaces <$> h2 p).

Definition allContent (pages : list Page) : string :=
  JsString.toLowerCase (join_spaces (map page_text pages)).

Definition authorKeywords : list string :=
  ["author"; "about"; "team"; "contact"; "privacy"; "terms"].

(** Body of the loop over the keywords. *)
Definition scan_keyword (content : string) (e : Eeat) (kw : string) : Eeat :=
  if JsString.includes content kw then
    mkEeat (eatScore e + 5)
           (hasAuthorInfo e || String.eqb kw "author" || String.eqb kw "team")
           (hasContactInfo e || String.eqb kw "contact")
           (hasAboutPage e || String.eqb kw "about")
           (hasPrivacyPolicy e || String.eqb kw "privacy")
  else e.

Definition has_headings (p : Page) : bool :=
  (KeyPages.nonempty (h1 p) || KeyPages.nonempty (h2 p))%bool.

(** The issues, in the order of the source. *)
Definition citation_issues (site : string) (f : SchemaFlags) (e : Eeat) (thin : nat)
  : list Issue :=
  (if hasSchemaOrg f then []
   else [mkIssue "missing_schema_org" "high" site
           "No Schema.org structured data found. AI systems prefer sites with structured data for citation."])
  ++ (if (negb (hasAuthorSchema f) && negb (hasAuthorInfo e))%bool
      then [mkIssue "missing_author_info" "medium" site
              "No author information or Author schema found. E-E-A-T requires clear attribution."]
      else [])
  ++ (if hasOrganizationSchema f then []
      else [mkIssue "missing_organization_schema" "medium" site
              "No Organization schema found. Adding this helps establish authority."])
  ++ (if hasFAQSchema f then []
      else [mkIssue "missing_faq_schema" "low" site
              "No FAQ schema found. FAQs are highly valued for AI citations."])
  ++ (if hasHowToSchema f then []
      else [mkIssue "missing_howto_schema" "low" site
              "No HowTo schema found. How-to content is frequently cited by AI."])
  ++ (if (0 <? thin)%nat
      then [mkIssue "thin_content" "high" site
              (pretty thin
               +:+ " page(s) with very thin content (<50 words). AI prefers substantial content.")]
      else []).

(** [checkCitationReadiness(siteSnapshot)]; [None] when it throws. *)
Definition checkCitationReadiness (siteSnapshot : Snapshot) : option CitationResult :=
  match pages siteSnapshot with
  | None => None
  | Some pages =>
      match scan_pages (0, mkSchemaFlags false false false false false) pages with
      | None => None
      | Some (structuredDataScore, flags) =>
          let structuredDataScore := Z.min structuredDataScore 40 in
          let score := 0 + structuredDataScore in
          let eeat :=
            fold_left (scan_keyword (allContent pages)) authorKeywords
                      (mkEeat 0 false false false false) in
          let eat :=
            if hasOrganizationSchema flags then eatScore eeat + 5 else eatScore eeat in
          let eat := Z.min eat 30 in
          let score := score + eat in
          let pagesWithContent :=
            List.filter (fun p => 100 <? num_or_zero (word_count p)) pages in
          let pagesWithHeadings := List.filter has_headings pages in
          let contentScore :=
            0 + Z.min (Z.of_nat (length pagesWithContent) * 7) 20
            + Z.min (Z.of_nat (length pagesWithHeadings) * 5) 10 in
          let score := score + contentScore in
          let pagesWithThinContent :=
            List.filter (fun p => num_or_zero (word_count p) <? 50) pages in
          let issues :=
            citation_issues (website_url siteSnapshot) flags eeat
                            (length pagesWithThinContent) in
          Some (mkCitationResult
                  score 100 (length issues)
                  (count_severity "high" issues)
                  (count_severity "medium" issues)
                  (count_severity "low" issues)
                  structuredDataScore flags
                  (mkEeat eat (hasAuthorInfo eeat) (hasContactInfo eeat)
                          (hasAboutPage eeat) (hasPrivacyPolicy eeat))
                  contentScore
                  (length pagesWithContent) (length pagesWithHeadings)
                  issues)
      end
  end.

(** An item on which the loop body does not throw. *)
Definition safe_item (sd : JSON) : bool :=
  match Json.get sd "@type" with
  | None => false
  | Some ty =>
      match is_schema_org sd ty with
      | Some _ => true
      | None => false
      end
  end.

Definition safe_page (p : Page) : bool :=
  forallb safe_item (default [] (structured_data p)).

End CitationChecks.

(** ** What a crawl leaves behind *)

Module CrawlerAux.
Import Crawler.

Section WithPlatform.
Context `{WebPlatform}.

(** A URL string that the URL class accepts and places on the host of the
    seed. *)
Definition on_host (baseUrl : URL) (u : string) : Prop :=
  exists b, url_parse u = Some b /\ url_hostname b = url_hostname baseUrl.

(** An image record as [extractMeta] pushes it. *)
Definition image_ok (img : Image) : Prop :=
  img_src img <> ""
  /\ img_has_alt img = (0 <? String.length (img_alt img))%nat.

(** The record of the [catch] branch: a URL, status 0, a message, and no
    other property. *)
Definition bare_error_record (p : Page) : Prop :=
  status_code p = 0 /\ is_Some (error p)
  /\ title p = None /\ meta_description p = None
  /\ h1 p = None /\ h2 p = None /\ h3 p = None
  /\ structured_data p = None /\ word_count p = None /\ images p = None
  /\ internal_links p = None /\ external_links p = None.

(** The record of a page that was fetched: every property is set, there is no
    message, the counts are natural numbers and the images are well formed. *)
Definition data_record (p : Page) : Prop :=
  error p = None
  /\ is_Some (title p) /\ is_Some (meta_description p)
  /\ is_Some (h1 p) /\ is_Some (h2 p) /\ is_Some (h3 p)
  /\ is_Some (structured_data p)
  /\ (exists w, word_count p = Some w /\ 0 <= w)
  /\ (exists imgs, images p = Some imgs /\ Forall image_ok imgs)
  /\ (exists i e, internal_links p = Some i /\ external_links p = Some e
                  /\ 0 <= i /\ 0 <= e).

Definition record_shape (p : Page) : Prop :=
  bare_error_record p \/ data_record p.

End WithPlatform.

End CrawlerAux.

(** ** Characters of a captured group *)

Module ScanAux.

Fixpoint chars (s : string) : list ascii :=
  match s with
  | EmptyString => []
  | String c r => c :: chars r
  end.

(** No character of [s] satisfies [stop]. *)
Definition free_of (stop : ascii -> bool) (s : string) : Prop :=
  Forall (fun c => stop c = false) (chars s).

End ScanAux.

(** ** The entries of the collector *)

Module StructuredDataAux.

(** The [type] property of an entry. *)
Definition entry_type (e : JSON) : option string :=
  match Json.get e "type" with
  | Some (Some (JStr t)) => Some t
  | _ => None
  end.

Definition has_type (t : string) (e : JSON) : Prop := entry_type e = Some t.

Definition kinds : list string := ["json-ld"; "opengraph"; "twitter-card"; "microdata"].

(** An entry as the collector builds it. *)
Definition collector_entry (e : JSON) : Prop :=
  exists type schema data, e = StructuredData.entry type schema data /\ type ∈ kinds.

(** 0 for an empty list and 1 for any other. *)
Definition one_if_any {A} (l : list A) : nat :=
  match l with [] => 0 | _ => 1 end.

Definition no_flags : CitationChecks.SchemaFlags :=
  CitationChecks.mkSchemaFlags false false false false false.

(** A page of the small closed web as the crawler records it. *)
Definition crawled_about : Page :=
  @Crawler.page_data "https://example.com/about" 200
     (@Crawler.extractMeta Fixtures.toy_web Fixtures.about_html) 0 0.

End StructuredDataAux.

(** ** The normalized form of a fetched URL *)

Module CrawlerNormalized.

Section WithPlatform.
Context `{WebPlatform}.

(** The normalized form of a URL string: the [href] of [new URL(u)]. *)
Definition normalized (u : string) : option string := url_href <$> url_parse u.

(** "no duplicate fetches of the same normalized URL": two fetches of URL
    strings with the same normalized form are one and the same fetch. *)
Definition spec_unique_fetches (reqs : list string) : Prop :=
  forall i j u v n,
    reqs !! i = Some u -> reqs !! j = Some v ->
    normalized u = Some n -> normalized v = Some n -> i = j.

End WithPlatform.

End CrawlerNormalized.

(** A site that is entered by its origin, written without the final slash:
    [new URL] gives both spellings the [href] with the slash, and the page
    links to its own root. *)
Module SlashFixtures.
Import Fixtures.

Definition root : ToyURL := mkToyURL "https://h.example/" "h.example".

Definition slash_parse (s : string) : option ToyURL :=
  if (String.eqb s "https://h.example" || String.eqb s "https://h.example/")%bool
  then Some root else None.

Definition slash_resolve (href : string) (base : ToyURL) : option ToyURL :=
  if String.eqb href "/" then Some root else slash_parse href.

Definition slash_html : string := "<a href='/'>Home</a>".

Definition slash_fetch (u : string) : FetchResult :=
  match slash_parse u with
  | Some _ => Fetched 200 slash_html
  | None => FetchError "fetch failed"
  end.

#[local] Instance slash_web : WebPlatform := {|
  URL := ToyURL;
  url_parse := slash_parse;
  url_resolve := slash_resolve;
  url_href := toy_href;
  url_hostname := toy_hostname;
  invalid_url_message := "Invalid URL";
  fetchPage := slash_fetch;
  JSON_parse := toy_json;
  regex_matches := fun _ _ => [];
  regex_replace := fun _ _ text => text;
  regex_split := fun _ text => [text]
|}.

End SlashFixtures.

(** ** Strings outside ASCII *)

Module UnicodeFixtures.

(** U+00A0, the no-break space. *)
Definition nbsp : string := String (ascii_of_nat 194) (String (ascii_of_nat 160) "").

(** U+00E9, e with acute accent. *)
Definition e_acute : string := String (ascii_of_nat 195) (String (ascii_of_nat 169) "").

(** U+1F600, a character of two UTF-16 code units. *)
Definition grinning_face : string :=
  String (ascii_of_nat 240) (String (ascii_of_nat 159)
    (String (ascii_of_nat 152) (String (ascii_of_nat 128) ""))).

Fixpoint repeat_string (n : nat) (s : string) : string :=
  match n with
  | O => ""
  | S k => s +:+ repeat_string k s
  end.

(** A page with a title, 120 words, one H1 and a description of [d]. *)
Definition described_page (t d : string) : Page :=
  mkPage "https://example.com/" 200 (Some t) (Some d) (Some ["Home"]) (Some [])
         (Some []) (Some []) (Some 120) (Some []) (Some 0) (Some 0) None.

End UnicodeFixtures.

(** * Properties *)

(** ** Monitoring engine *)

Module MonitoringProps.
Import Monitoring MonitoringSpec.

Lemma fold_check_change_app th cs acc :
  fold_left (check_change th) cs acc
  = acc ++ fold_left (check_change th) cs [].
Proof.
  revert acc. induction cs as [|c cs IH]; intros acc; simpl.
  - by rewrite app_nil_r.
  - rewrite IH. rewrite (IH (check_change th [] c)).
    rewrite app_assoc. f_equal.
    unfold check_change.
    repeat match goal with |- context [if ?b then _ else _] => destruct b end;
      simpl; rewrite <- ?app_assoc; simpl; rewrite ?app_nil_r; reflexivity.
Qed.

Lemma check_change_gates th c : check_change th [] c = gates th c.
Proof.
  unfold check_change, gates, gate_issues, gate_score, gate_pages, is_score_type.
  repeat match goal with |- context [if ?b then _ else _] => destruct b end;
    reflexivity.
Qed.

Lemma checkThresholds_spec diff th :
  checkThresholds diff th = spec_alerts diff th.
Proof.
  unfold checkThresholds, spec_alerts.
  induction (changes diff) as [|c cs IH]; simpl; [done|].
  rewrite fold_check_change_app, IH. by rewrite check_change_gates.
Qed.

(** C5. [checkThresholds] returns exactly the alerts of three independent
    gates applied to every change entry in order: a critical alert for an
    [issues_count] change whose delta exceeds [new_issues_critical], a
    warning for a score-type change whose delta is below
    [-score_drop_above], a warning for a [page_count] change whose delta is
    below [-pages_removed_above]; and one run can raise several alerts. *)
Theorem checkThresholds_independent_gates :
  (forall diff th, checkThresholds diff th = spec_alerts diff th)
  /\ (exists diff th, (1 < length (checkThresholds diff th))%nat).
Proof.
  split; [apply checkThresholds_spec|].
  exists Fixtures.two_alert_diff, (mkThresholds 0 10 1). vm_compute. lia.
Qed.

Lemma fallback_score_first_truthy s :
  fallback_score s
  = first_truthy [health_checks s ≫= health_score;
                  citation_readiness s ≫= citation_score;
                  content_coverage s ≫= coverage_score].
Proof.
  unfold fallback_score, num_or_zero, num_or. simpl.
  destruct (health_checks s ≫= health_score) as [a|];
    destruct (citation_readiness s ≫= citation_score) as [b|];
    destruct (content_coverage s ≫= coverage_score) as [c|]; simpl;
    repeat match goal with |- context [if ?b then _ else _] => destruct b eqn:? end;
    simpl; try reflexivity; lia.
Qed.

(** Effect of the individual comparison steps on the change list. *)

Lemma changes_set_score m x d : changes (set_score m x d) = changes d.
Proof. reflexivity. Qed.

Lemma changes_set_page_summary a r d : changes (set_page_summary a r d) = changes d.
Proof. reflexivity. Qed.

Lemma changes_push_change c d : changes (push_change c d) = changes d ++ [c].
Proof. reflexivity. Qed.

Lemma changes_compare_metrics cur base ms d :
  changes (fold_left (compare_metric cur base) ms d)
  = changes d
    ++ (if fallback_score cur =? fallback_score base then []
        else map (fun m => mkChange m (fallback_score base) (fallback_score cur)
                                   (fallback_score cur - fallback_score base)) ms).
Proof.
  revert d. induction ms as [|m ms IH]; intros d; simpl.
  - destruct (_ =? _); by rewrite app_nil_r.
  - rewrite IH. unfold compare_metric.
    destruct (fallback_score cur =? fallback_score base) eqn:E; simpl.
    + reflexivity.
    + by rewrite <- app_assoc.
Qed.

Lemma changes_compare_issues cur base d :
  changes (compare_issues cur base d)
  = changes d
    ++ (if total_issues cur =? total_issues base then []
        else [mkChange "issues_count" (total_issues base) (total_issues cur)
                       (total_issues cur - total_issues base)]).
Proof.
  unfold compare_issues. destruct (_ =? _); simpl; by rewrite ?app_nil_r.
Qed.

Lemma changes_compare_structured cur base d :
  changes (compare_structured cur base d)
  = changes d
    ++ (if structured_total cur =? structured_total base then []
        else [mkChange "structured_data_count" (structured_total base)
                       (structured_total cur)
                       (structured_total cur - structured_total base)]).
Proof.
  unfold compare_structured. destruct (_ =? _); simpl; by rewrite ?app_nil_r.
Qed.

Lemma changes_compareWithBaseline now cur base :
  changes (compareWithBaseline now cur base)
  = changes (compare_page_count cur base (mkDiff now [] (mkSummary false 0 0 ∅)))
    ++ (if fallback_score cur =? fallback_score base then []
        else map (fun m => mkChange m (fallback_score base) (fallback_score cur)
                                   (fallback_score cur - fallback_score base)) metrics)
    ++ (if total_issues cur =? total_issues base then []
        else [mkChange "issues_count" (total_issues base) (total_issues cur)
                       (total_issues cur - total_issues base)])
    ++ (if structured_total cur =? structured_total base then []
        else [mkChange "structured_data_count" (structured_total base)
                       (structured_total cur)
                       (structured_total cur - structured_total base)]).
Proof.
  unfold compareWithBaseline.
  rewrite changes_compare_structured, changes_compare_issues,
    changes_compare_metrics.
  by rewrite <- !app_assoc.
Qed.

Lemma score_entries_page_count cur base d :
  List.filter is_score_type (changes d) = [] ->
  List.filter is_score_type (changes (compare_page_count cur base d)) = [].
Proof.
  intros Hd. unfold compare_page_count.
  destruct (negb _); [|exact Hd].
  rewrite changes_set_page_summary, changes_push_change, List.filter_app, Hd.
  reflexivity.
Qed.

(** C3. The current and the baseline score compared for each of the three
    metric names are one and the same fallback value (the first truthy of
    [health_checks.health_score], [citation_readiness.citation_score],
    [content_coverage.coverage_score], else 0), whatever the metric; so the
    score-type entries of a diff are either none, or exactly the three
    metric entries in order, all with the same baseline, current and
    delta. *)
Theorem compare_score_entries_all_or_none :
  forall now cur base,
    let b := fallback_score base in
    let c := fallback_score cur in
    b = first_truthy [health_checks base ≫= health_score;
                      citation_readiness base ≫= citation_score;
                      content_coverage base ≫= coverage_score]
    /\ c = first_truthy [health_checks cur ≫= health_score;
                         citation_readiness cur ≫= citation_score;
                         content_coverage cur ≫= coverage_score]
    /\ (List.filter is_score_type (changes (compareWithBaseline now cur base)) = []
        \/ List.filter is_score_type (changes (compareWithBaseline now cur base))
           = [mkChange "health_score" b c (c - b);
              mkChange "citation_score" b c (c - b);
              mkChange "content_coverage_score" b c (c - b)]).
Proof.
  intros now cur base b c.
  split; [apply fallback_score_first_truthy|].
  split; [apply fallback_score_first_truthy|].
  rewrite changes_compareWithBaseline, !List.filter_app.
  rewrite (score_entries_page_count cur base (mkDiff now [] (mkSummary false 0 0 ∅)) eq_refl).
  assert (Hi : forall l : list Change,
             (exists x, l = [] \/ l = [mkChange "issues_count" x.1.1 x.1.2 x.2]
                        \/ l = [mkChange "structured_data_count" x.1.1 x.1.2 x.2]) ->
             List.filter is_score_type l = []).
  { intros l [x [-> | [-> | ->]]]; reflexivity. }
  rewrite (Hi (if total_issues cur =? total_issues base then _ else _)).
  2:{ eexists (_, _, _). destruct (_ =? _); [by left | right; left; reflexivity]. }
  rewrite (Hi (if structured_total cur =? structured_total base then _ else _)).
  2:{ eexists (_, _, _). destruct (_ =? _); [by left | right; right; reflexivity]. }
  fold b c. simpl. rewrite !app_nil_r.
  destruct (c =? b); [left | right]; reflexivity.
Qed.

(** C4. Comparing a snapshot with itself yields no change entry and
    [has_changes = false]. *)
Theorem compare_self_no_changes :
  forall now S,
    changes (compareWithBaseline now S S) = []
    /\ has_changes (summary (compareWithBaseline now S S)) = false.
Proof.
  intros now S.
  unfold compareWithBaseline, compare_structured, compare_issues,
    compare_page_count, metrics, compare_metric. simpl.
  rewrite !Z.eqb_refl. simpl. split; reflexivity.
Qed.

Lemma timestamp_compare_metrics cur base ms d :
  timestamp (fold_left (compare_metric cur base) ms d) = timestamp d.
Proof.
  revert d. induction ms as [|m ms IH]; intros d; simpl; [done|].
  rewrite IH. unfold compare_metric. by destruct (negb _).
Qed.

Lemma timestamp_compareWithBaseline now cur base :
  timestamp (compareWithBaseline now cur base) = now.
Proof.
  unfold compareWithBaseline.
  assert (Hs : forall d, timestamp (compare_structured cur base d) = timestamp d)
    by (intros d; unfold compare_structured; by destruct (negb _)).
  assert (Hi : forall d, timestamp (compare_issues cur base d) = timestamp d)
    by (intros d; unfold compare_issues; by destruct (negb _)).
  assert (Hp : forall d, timestamp (compare_page_count cur base d) = timestamp d)
    by (intros d; unfold compare_page_count; by destruct (negb _)).
  by rewrite Hs, Hi, timestamp_compare_metrics, Hp.
Qed.

(** *** The bounded history *)

Lemma slice_last_short {A} n (l : list A) :
  (length l <= n)%nat -> slice_last n l = l.
Proof.
  intros Hl. unfold slice_last.
  replace (length l - n)%nat with 0%nat by lia. reflexivity.
Qed.

Lemma length_slice_last {A} n (l : list A) :
  length (slice_last n l) = Nat.min n (length l).
Proof. unfold slice_last. rewrite length_drop. lia. Qed.

Lemma slice_last_snoc {A} n (l : list A) x :
  (0 < n)%nat ->
  slice_last n (slice_last n l ++ [x]) = slice_last n (l ++ [x]).
Proof.
  intros Hn.
  destruct (decide (length l <= n)%nat) as [Hle|Hgt].
  - by rewrite (slice_last_short n l).
  - unfold slice_last at 1 3.
    rewrite !length_app, length_slice_last. simpl.
    replace (Nat.min n (length l) + 1 - n)%nat with 1%nat by lia.
    replace (length l + 1 - n)%nat with (S (length l - n)) by lia.
    unfold slice_last.
    rewrite (drop_app_le l [x]) by lia.
    rewrite (drop_app_le (drop _ l) [x]) by (rewrite length_drop; lia).
    f_equal. rewrite drop_drop. f_equal. lia.
Qed.

Lemma slice_last_app {A} n (l es : list A) :
  (0 < n)%nat ->
  slice_last n (slice_last n l ++ es) = slice_last n (l ++ es).
Proof.
  intros Hn. induction es as [|x es IH] using rev_ind.
  - rewrite !app_nil_r. apply slice_last_short. rewrite length_slice_last. lia.
  - rewrite !app_assoc.
    rewrite <- (slice_last_snoc n (slice_last n l ++ es)) by done.
    rewrite IH. by apply slice_last_snoc.
Qed.

Section Runs.
Context `{NodePath}.

Lemma runMonitoringCheck_checked w cfg baseline now snap :
  monitoring_json w = Some cfg ->
  enabled (monitoring cfg) = true ->
  loadBaseline w = Some baseline ->
  snd (runMonitoringCheck w now snap)
  = mkWorld (Some (mkConfig (monitoring cfg)
                     (Some (push_history (default [] (history cfg))
                              (entry_of (monitoring cfg) baseline (now, snap))))))
            (snapshot_files w).
Proof.
  intros Hcfg Hen Hbase. unfold runMonitoringCheck, loadMonitoringConfig.
  rewrite Hcfg, Hen, Hbase. simpl. unfold push_history, entry_of. simpl.
  rewrite timestamp_compareWithBaseline.
  destruct (30 <? _)%nat eqn:E; [reflexivity|].
  apply Nat.ltb_ge in E. by rewrite slice_last_short.
Qed.

Lemma loadBaseline_after_run w cfg hist :
  monitoring_json w = Some cfg ->
  loadBaseline (mkWorld (Some (mkConfig (monitoring cfg) hist)) (snapshot_files w))
  = loadBaseline w.
Proof.
  intros Hcfg. unfold loadBaseline, loadMonitoringConfig. simpl. by rewrite Hcfg.
Qed.

Lemma run_checks_history calls : forall w cfg baseline,
  monitoring_json w = Some cfg ->
  enabled (monitoring cfg) = true ->
  loadBaseline w = Some baseline ->
  calls <> [] ->
  monitoring_json (run_checks w calls)
  = Some (mkConfig (monitoring cfg)
            (Some (slice_last 30
                     (default [] (history cfg)
                      ++ map (entry_of (monitoring cfg) baseline) calls)))).
Proof.
  induction calls as [|[now snap] rest IH]; intros w cfg baseline Hcfg Hen Hbase Hne;
    [done|].
  simpl. rewrite (runMonitoringCheck_checked w cfg baseline) by done.
  destruct rest as [|call rest].
  - reflexivity.
  - erewrite IH; [| reflexivity | exact Hen | | done].
    2:{ rewrite (loadBaseline_after_run w cfg) by done. exact Hbase. }
    simpl history. simpl default. unfold push_history.
    rewrite slice_last_app by lia.
    rewrite <- app_assoc. reflexivity.
Qed.

(** C9. With monitoring enabled, a baseline present and an empty (or
    absent) history, 35 runs in sequence leave in the persisted history
    exactly the entries of the last 30 runs, in call order. *)
Theorem history_keeps_last_30_of_35 :
  forall (w : World) (cfg : Config) (baseline : Snapshot)
         (calls : list (string * Snapshot)),
    monitoring_json w = Some cfg ->
    enabled (monitoring cfg) = true ->
    default [] (history cfg) = [] ->
    loadBaseline w = Some baseline ->
    length calls = 35%nat ->
    exists cfg',
      monitoring_json (run_checks w calls) = Some cfg'
      /\ history cfg' = Some (map (entry_of (monitoring cfg) baseline) (drop 5 calls))
      /\ (length <$> history cfg') = Some 30%nat.
Proof.
  intros w cfg baseline calls Hcfg Hen Hh Hbase Hlen.
  eexists. split.
  - apply (run_checks_history calls w cfg baseline); try done.
    intros ->. discriminate.
  - simpl. rewrite Hh. simpl. unfold slice_last.
    rewrite length_map, Hlen. simpl.
    rewrite List.skipn_map. split; [reflexivity|].
    simpl. by rewrite length_map, length_drop, Hlen.
Qed.

End Runs.

Lemma history_keeps_last_30_of_35_witness :
  exists cfg',
    monitoring_json (@run_checks Fixtures.toy_path Fixtures.toy_world Fixtures.toy_calls)
    = Some cfg'
    /\ history cfg'
       = Some (map (entry_of (mkMonitoringCfg true (Some "data/baseline_snapshot.json")
                                              Fixtures.toy_thresholds)
                             Fixtures.toy_baseline)
                   (drop 5 Fixtures.toy_calls))
    /\ (length <$> history cfg') = Some 30%nat.
Proof.
  apply (@history_keeps_last_30_of_35 Fixtures.toy_path Fixtures.toy_world
           (mkConfig (mkMonitoringCfg true (Some "data/baseline_snapshot.json")
                                      Fixtures.toy_thresholds) None)
           Fixtures.toy_baseline Fixtures.toy_calls);
    reflexivity.
Defined.

End MonitoringProps.

(** ** Content coverage checker *)

Module ContentCoverageProps.
Import ContentCoverageChecker.

Lemma blank_title t : JsString.trim t <> "" -> blank (Some t) = false.
Proof.
  intros Ht. unfold blank, JsString.truthy.
  destruct (String.eqb_spec t "") as [->|_]; [by destruct Ht|].
  destruct (String.eqb_spec (JsString.trim t) ""); [done|reflexivity].
Qed.

(** C8, as the code has it. A snapshot of one page that passes the
    content-page filter (its URL does not end in .css, .js, .ico, .png or
    .jpg), with status 200, 30 words, a title that is not blank, no meta
    description, no H1 and no images, gets exactly the issues
    [missing_meta_description] (high), [missing_h1] (high) and
    [thin_content] (medium), and the score 100 - 15 - 15 - 5 = 65. *)
Theorem single_thin_page_coverage :
  forall (snap : Snapshot) (p : Page) (t : string),
    pages snap = Some [p] ->
    is_content_page p = true ->
    status_code p = 200 ->
    word_count p = Some 30 ->
    title p = Some t ->
    JsString.trim t <> "" ->
    (meta_description p = None \/ meta_description p = Some "") ->
    (h1 p = None \/ h1 p = Some []) ->
    (images p = None \/ images p = Some []) ->
    issues (analyzeContentCoverage snap)
    = [mkIssue "missing_meta_description" "high" (url p) "Page missing meta description";
       mkIssue "missing_h1" "high" (url p) "Page missing H1 heading";
       mkIssue "thin_content" "medium" (url p)
               "Very low word count (30). Pages should have substantial content."]
    /\ summary_coverage_score (summary (analyzeContentCoverage snap)) = 65.
Proof.
  intros snap p t Hp Hc _ Hw Ht Htrim Hm Hh Hi.
  unfold analyzeContentCoverage. rewrite Hp. simpl. rewrite Hc. simpl.
  unfold check_meta_description, check_h1, check_title, check_word_count,
    check_images.
  rewrite Hw, Ht, (blank_title t Htrim).
  assert (Hmb : blank (meta_description p) = true)
    by (destruct Hm as [-> | ->]; reflexivity).
  rewrite Hmb.
  destruct Hh as [-> | ->]; destruct Hi as [-> | ->]; split; reflexivity.
Qed.

Lemma single_thin_page_coverage_witness :
  issues (analyzeContentCoverage
            (Fixtures.snapshot_of_pages [Fixtures.bare_page "https://example.com/" "Home"]))
  = [mkIssue "missing_meta_description" "high" "https://example.com/"
             "Page missing meta description";
     mkIssue "missing_h1" "high" "https://example.com/" "Page missing H1 heading";
     mkIssue "thin_content" "medium" "https://example.com/"
             "Very low word count (30). Pages should have substantial content."]
  /\ summary_coverage_score
       (summary (analyzeContentCoverage
                   (Fixtures.snapshot_of_pages
                      [Fixtures.bare_page "https://example.com/" "Home"]))) = 65.
Proof.
  apply (single_thin_page_coverage _ (Fixtures.bare_page "https://example.com/" "Home") "Home");
    first [ reflexivity | by left | by vm_compute ].
Defined.

(** Counterexample to C8 as the specification words it. It fails on a page
    the content-page filter drops: a crawled script file with status 200,
    30 words, a title, no meta description, no H1 and no images yields no
    issue at all and the score 0. It also fails on a page whose title is a
    single space, which gets a fourth issue, [missing_title], and the
    score 50. *)
Lemma single_thin_page_coverage_counterexample :
  (let p := Fixtures.script_page in
   let r := analyzeContentCoverage (Fixtures.snapshot_of_pages [p]) in
   status_code p = 200 /\ word_count p = Some 30 /\ title p = Some "App"
   /\ meta_description p = None /\ h1 p = None /\ images p = None
   /\ issues r = [] /\ summary_coverage_score (summary r) = 0)
  /\ (let p := Fixtures.blank_title_page in
      let r := analyzeContentCoverage (Fixtures.snapshot_of_pages [p]) in
      status_code p = 200 /\ word_count p = Some 30 /\ title p = Some " "
      /\ meta_description p = None /\ h1 p = None /\ images p = None
      /\ map i_type (issues r)
         = ["missing_meta_description"; "missing_h1"; "missing_title"; "thin_content"]
      /\ summary_coverage_score (summary r) = 50).
Proof. vm_compute. repeat split. Qed.

End ContentCoverageProps.

(** ** Key-page detector *)

Module KeyPagesProps.
Import KeyPages.

Lemma endsWith_slash_false_strip u :
  JsString.endsWith u "/" = false -> JsString.stripTrailingSlash u = u.
Proof.
  induction u as [|c r IH]; [done|].
  intros Hends. simpl in Hends. simpl.
  destruct r as [|c' r'].
  - destruct (Ascii.eqb c "/"%char); [discriminate | done].
  - f_equal. apply IH.
    destruct (Ascii.eqb c "/"%char); simpl in Hends; exact Hends.
Qed.

(** The root test holds of every URL: a URL either ends in a slash or is
    unchanged by stripping one. *)
Lemma root_test_always u : root_test u = true.
Proof.
  unfold root_test. destruct (JsString.endsWith u "/") eqn:E.
  - apply orb_true_r.
  - rewrite (endsWith_slash_false_strip u E), String.eqb_refl. reflexivity.
Qed.

Lemma classify_always u : classify u = "homepage".
Proof. unfold classify. by rewrite root_test_always. Qed.

Lemma detectKeyPages_all_homepage pages kp :
  kp ∈ detectKeyPages pages -> kp_type kp = "homepage".
Proof.
  unfold detectKeyPages. intros Hin.
  apply list_elem_of_In, in_map_iff in Hin as [sp [<- _]].
  apply classify_always.
Qed.

(** C2 at a non-root blog URL. The page
    [https://example.com/blog/post-1] is retained as a key page, and its
    type comes out as [homepage], not [blog]: the root test that guards
    the precedence chain holds of every URL. *)
Theorem blog_page_classified_homepage :
  JsString.includes (url Fixtures.blog_page) "/blog" = true
  /\ JsString.endsWith (url Fixtures.blog_page) "/" = false
  /\ detectKeyPages [Fixtures.blog_page]
     = [mkKeyPage "https://example.com/blog/post-1" "First post" "homepage"
                  (Some 120) (Some 3) ["First post"] (Some 77)].
Proof. vm_compute. repeat split. Qed.

End KeyPagesProps.

(** ** Crawler *)

Module CrawlerProps.
Import Crawler CrawlerSpec CrawlerInvariant.

Local Arguments MAX_PAGES : simpl never.

Section WithPlatform.
Context `{WebPlatform}.
Variable baseUrl : URL.

Lemma all_true {A} (l : list A) : Forall (fun _ => True) l.
Proof. by apply Forall_forall. Qed.

Lemma Inv_empty : Inv (mkCrawlState ∅ [] []).
Proof. split; simpl; [constructor | set_solver | lia | done]. Qed.

(** Recording the page of a URL that was not visited before. *)
Lemma Inv_push st p :
  Inv st ->
  url p ∉ visited st ->
  (length (crawled st) < MAX_PAGES)%nat ->
  Inv (push_page p (log_request (url p) (add_visited (url p) st))).
Proof.
  intros [Hnd Hvis Hlen Hreq] Hfresh Hroom. split; unfold urls in *; simpl.
  - rewrite fmap_app. simpl. apply NoDup_app. split; [done|]. split.
    + intros u Hu Hu'. apply list_elem_of_singleton in Hu' as ->.
      by apply Hfresh, Hvis.
    + apply NoDup_singleton.
  - intros u. rewrite fmap_app, elem_of_app. simpl.
    rewrite list_elem_of_singleton. intros [Hu | ->]; [|set_solver].
    apply Hvis in Hu. set_solver.
  - rewrite length_app. simpl. lia.
  - by rewrite fmap_app, Hreq.
Qed.

(** The defining equation of [crawl]. *)
Lemma crawl_step fuel u st :
  crawl baseUrl (S fuel) u st
  = if (bool_decide (u ∈ visited st)
        || (MAX_PAGES <=? length (crawled st))%nat)%bool
    then Some st
    else
      let st1 := log_request u (add_visited u st) in
      match fetchPage u with
      | FetchError message => Some (push_page (error_page u message) st1)
      | Fetched status html =>
          match url_parse u with
          | None => Some (push_page (error_page u invalid_url_message) st1)
          | Some base =>
              let allLinks := extractLinks html base in
              match filter_internal baseUrl allLinks with
              | None => Some (push_page (error_page u invalid_url_message) st1)
              | Some internal =>
                  let st2 :=
                    push_page
                      (page_data u status (extractMeta html)
                         (Z.of_nat (length internal))
                         (Z.of_nat (length allLinks) - Z.of_nat (length internal)))
                      st1 in
                  follow (crawl baseUrl fuel)
                         (take (MAX_PAGES - length (crawled st2)) internal) st2
              end
          end
      end.
Proof.
  cbn [crawl]. destruct (_ || _)%bool; [reflexivity|].
  destruct (fetchPage u); [|reflexivity].
  destruct (url_parse u); [|reflexivity].
  cbv zeta.
  destruct (filter_internal baseUrl _); reflexivity.
Qed.

Section PageProperty.
(** A property [P] of page records that both kinds of record have, for
    URLs satisfying [Q], which the seed and every followed link do. *)
Variable P : Page -> Prop.
Variable Q : string -> Prop.
Hypothesis P_error : forall u message, P (error_page u message).
Hypothesis P_data :
  forall u status html base internal,
    Q u ->
    fetchPage u = Fetched status html ->
    url_parse u = Some base ->
    filter_internal baseUrl (extractLinks html base) = Some internal ->
    P (page_data u status (extractMeta html) (Z.of_nat (length internal))
         (Z.of_nat (length (extractLinks html base))
          - Z.of_nat (length internal))).
Hypothesis Q_internal :
  forall links internal,
    filter_internal baseUrl links = Some internal -> Forall Q internal.

Lemma Good_push st p :
  Good P st -> P p -> url p ∉ visited st ->
  (length (crawled st) < MAX_PAGES)%nat ->
  Good P (push_page p (log_request (url p) (add_visited (url p) st))).
Proof.
  intros [Hinv Hall] Hp Hfresh Hroom. split; [by apply Inv_push|].
  simpl. apply Forall_app. split; [done | by constructor].
Qed.

Lemma follow_good visit links :
  (forall u st st', Q u -> visit u st = Some st' -> Good P st -> Good P st') ->
  Forall Q links ->
  forall st st', follow visit links st = Some st' -> Good P st -> Good P st'.
Proof.
  intros Hvisit Hlinks.
  induction Hlinks as [|link rest Hlink _ IH]; intros st st' Hrun Hst;
    simpl in Hrun.
  - by simplify_eq.
  - case_bool_decide; [by eapply IH|].
    destruct (visit link st) as [st1|] eqn:Hv; [|done].
    eapply IH; [done|]. by eapply Hvisit.
Qed.

Lemma crawl_good fuel : forall u st st',
  Q u -> crawl baseUrl fuel u st = Some st' -> Good P st -> Good P st'.
Proof.
  induction fuel as [|fuel IH]; intros u st st' Hu Hrun Hst; [done|].
  rewrite crawl_step in Hrun.
  destruct (bool_decide (u ∈ visited st)) eqn:Hseen; cbn [orb] in Hrun;
    [by simplify_eq|].
  destruct (MAX_PAGES <=? length (crawled st))%nat eqn:Hfull;
    [by simplify_eq|].
  apply bool_decide_eq_false in Hseen. apply Nat.leb_gt in Hfull.
  assert (Herr : forall message,
             Good P (push_page (error_page u message)
                       (log_request u (add_visited u st))))
    by (intros message; by apply (Good_push st (error_page u message))).
  destruct (fetchPage u) as [status html|message] eqn:Hfetch;
    [|simplify_eq; apply Herr].
  destruct (url_parse u) as [base|] eqn:Hbase; [|simplify_eq; apply Herr].
  cbv zeta in Hrun.
  destruct (filter_internal baseUrl (extractLinks html base)) as [internal|]
    eqn:Hint; [|simplify_eq; apply Herr].
  eapply follow_good; [exact IH | | exact Hrun |].
  - apply Forall_take. by eapply Q_internal.
  - by apply (Good_push st (page_data u status _ _ _)); [| eapply P_data | |].
Qed.

End PageProperty.

(** *** Termination: the nesting depth never exceeds the page budget *)

Lemma follow_total visit fuel links :
  (forall u st, (MAX_PAGES - length (crawled st) < fuel)%nat ->
     exists st', visit u st = Some st'
                 /\ (length (crawled st) <= length (crawled st'))%nat) ->
  forall st, (MAX_PAGES - length (crawled st) < fuel)%nat ->
    exists st', follow visit links st = Some st'
                /\ (length (crawled st) <= length (crawled st'))%nat.
Proof.
  intros Hvisit. induction links as [|link rest IH]; intros st Hfuel; simpl.
  - by exists st.
  - case_bool_decide; [by apply IH|].
    destruct (Hvisit link st Hfuel) as (st1 & -> & Hle).
    destruct (IH st1) as (st2 & Hrun & Hle2); [lia|].
    exists st2. split; [done | lia].
Qed.

Lemma crawl_total fuel : forall u st,
  (MAX_PAGES - length (crawled st) < fuel)%nat ->
  exists st', crawl baseUrl fuel u st = Some st'
              /\ (length (crawled st) <= length (crawled st'))%nat.
Proof.
  induction fuel as [|fuel IH]; intros u st Hfuel; [lia|].
  rewrite crawl_step.
  destruct (bool_decide (u ∈ visited st)); cbn [orb]; [by exists st|].
  destruct (MAX_PAGES <=? length (crawled st))%nat eqn:Hfull; [by exists st|].
  apply Nat.leb_gt in Hfull.
  assert (Herr : forall message,
             exists st', Some (push_page (error_page u message)
                                 (log_request u (add_visited u st)))
                         = Some st'
                         /\ (length (crawled st) <= length (crawled st'))%nat).
  { intros message. eexists. split; [reflexivity|].
    simpl. rewrite length_app. lia. }
  destruct (fetchPage u) as [status html|message]; [|apply Herr].
  destruct (url_parse u) as [base|]; [|apply Herr].
  cbv zeta.
  destruct (filter_internal baseUrl (extractLinks html base)) as [internal|];
    [|apply Herr].
  match goal with
  | |- context [follow _ ?ls ?s] =>
      destruct (follow_total (crawl baseUrl fuel) fuel ls IH s)
        as (st' & Hrun & Hle)
  end.
  { simpl. rewrite length_app. simpl. lia. }
  exists st'. split; [exact Hrun|].
  simpl in Hle. rewrite length_app in Hle. simpl in Hle. lia.
Qed.

Lemma run_crawl_total START_URL :
  exists st, run_crawl baseUrl START_URL = Some st.
Proof.
  destruct (crawl_total (S MAX_PAGES) START_URL (mkCrawlState ∅ [] []))
    as (st & Hrun & _); [cbn [crawled length]; lia|].
  by exists st.
Qed.

(** [main] writes a snapshot whenever the seed is a valid URL. *)
Lemma main_snapshot START_URL crawled_at crawlDuration :
  url_parse START_URL = Some baseUrl ->
  exists st,
    run_crawl baseUrl START_URL = Some st
    /\ main START_URL crawled_at crawlDuration
       = Some (mkSnapshot START_URL crawled_at crawlDuration
                 (Some (Z.of_nat (length (crawled st)))) (Some (crawled st))
                 false [] [] None None None None None).
Proof.
  intros Hseed. destruct (run_crawl_total START_URL) as [st Hrun].
  exists st. split; [exact Hrun|].
  unfold main. rewrite Hseed. simpl. by rewrite Hrun.
Qed.

End WithPlatform.

(** Every crawl run ends, with at most [MAX_PAGES] = 10 page records, no two
    of which have the same URL string; the URL strings fetched are those of
    the records, in order, so no string is fetched twice either. Two strings
    may still name the same URL (see [CrawlerDuplicates]). *)
Theorem crawl_pages_bounded_and_unique :
  MAX_PAGES = 10%nat
  /\ forall (platform : WebPlatform) (baseUrl : URL) (START_URL : string),
       exists st,
         run_crawl baseUrl START_URL = Some st
         /\ (length (crawled st) <= MAX_PAGES)%nat
         /\ NoDup (url <$> crawled st)
         /\ requests st = url <$> crawled st
         /\ NoDup (requests st).
Proof.
  split; [reflexivity|].
  intros platform baseUrl START_URL.
  destruct (run_crawl_total baseUrl START_URL) as [st Hrun].
  exists st. split; [exact Hrun|].
  destruct (crawl_good baseUrl (fun _ => True) (fun _ => True) (fun _ _ => I)
              (fun _ _ _ _ _ _ _ _ _ => I) (fun _ _ _ => all_true _)
              _ _ _ _ I Hrun) as [[Hnd _ Hlen Hreq] _].
  { split; [apply Inv_empty | constructor]. }
  repeat split; try done. by rewrite Hreq.
Qed.

(** *** Status code and error field *)



(** A failed fetch is recorded and [crawl] returns normally. *)
Lemma crawl_fetch_error `{WebPlatform} baseUrl fuel u st message :
  u ∉ visited st ->
  (length (crawled st) < MAX_PAGES)%nat ->
  fetchPage u = FetchError message ->
  crawl baseUrl (S fuel) u st
  = Some (mkCrawlState ({[u]} ∪ visited st) (crawled st ++ [error_page u message])
            (requests st ++ [u])).
Proof.
  intros Hfresh Hroom Hfetch. rewrite crawl_step.
  rewrite bool_decide_eq_false_2 by done.
  apply Nat.leb_gt in Hroom. rewrite Hroom, Hfetch. reflexivity.
Qed.





(** *** Link counts *)

Section Links.
Context `{WebPlatform}.

Lemma dedup_from_subset seen l x : x ∈ dedup_from seen l -> x ∈ l.
Proof.
  revert seen. induction l as [|y l IH]; intros seen; simpl; [done|].
  case_bool_decide.
  - intros Hx. apply elem_of_cons. right. by eapply IH.
  - rewrite !elem_of_cons. intros [-> | Hx]; [by left | right; by eapply IH].
Qed.

Lemma dedup_from_nodup seen l :
  NoDup (dedup_from seen l) /\ forall x, x ∈ dedup_from seen l -> x ∉ seen.
Proof.
  revert seen. induction l as [|y l IH]; intros seen; simpl.
  - split; [constructor | set_solver].
  - case_bool_decide as Hy; [apply IH|].
    destruct (IH (y :: seen)) as [Hnd Hout]. split.
    + constructor; [|done]. intros Hin. apply Hout in Hin.
      apply Hin, elem_of_cons. by left.
    + intros x. rewrite elem_of_cons. intros [-> | Hx]; [done|].
      apply Hout in Hx. intros Hs. apply Hx, elem_of_cons. by right.
Qed.

(** The links of a page are pairwise distinct. *)
Lemma extractLinks_nodup html base : NoDup (extractLinks html base).
Proof. apply dedup_from_nodup. Qed.

Lemma collect_links_same_host base hs : forall acc,
  Forall (fun l => exists r, url_href r = l /\ url_hostname r = url_hostname base) acc ->
  Forall (fun l => exists r, url_href r = l /\ url_hostname r = url_hostname base)
         (fold_left (collect_link base) hs acc).
Proof.
  induction hs as [|h hs IH]; intros acc Hacc; simpl; [done|].
  apply IH. unfold collect_link.
  destruct (skipped_href h); [done|].
  destruct (url_resolve h base) as [r|]; [|done].
  destruct (String.eqb_spec (url_hostname r) (url_hostname base)); [|done].
  apply Forall_app. split; [done|]. constructor; [by exists r | constructor].
Qed.

(** Every link [extractLinks] returns is on the host of the page it was
    extracted from: links to other hosts are dropped, not returned. *)
Lemma extractLinks_same_host html base l :
  l ∈ extractLinks html base ->
  exists r, url_href r = l /\ url_hostname r = url_hostname base.
Proof.
  intros Hl. apply dedup_from_subset in Hl.
  pose proof (collect_links_same_host base (Scan.hrefs html) [] (List.Forall_nil _)) as Hall.
  by apply (proj1 (Forall_forall _ _) Hall).
Qed.

Lemma collect_links_cross_host base hs :
  Forall (fun h => exists other, url_resolve h base = Some other
                                 /\ url_hostname other <> url_hostname base) hs ->
  fold_left (collect_link base) hs [] = [].
Proof.
  induction 1 as [|h hs (other & Hres & Hhost) _ IH]; simpl; [done|].
  unfold collect_link at 2.
  destruct (skipped_href h); [done|]. rewrite Hres.
  by destruct (String.eqb_spec (url_hostname other) (url_hostname base)).
Qed.

End Links.

(** On a platform whose URL class parses the [href] of a resolved URL back to
    that URL, no record of a crawl counts an external link at all. *)
Section ExternalLinks.
Context `{WebPlatform}.
Variable baseUrl : URL.
Hypothesis resolve_roundtrip :
  forall h b r, url_resolve h b = Some r -> url_parse (url_href r) = Some r.

Lemma collect_links_parse base hs : forall acc,
  Forall (fun l => exists r, url_parse l = Some r
                             /\ url_hostname r = url_hostname base) acc ->
  Forall (fun l => exists r, url_parse l = Some r
                             /\ url_hostname r = url_hostname base)
         (fold_left (collect_link base) hs acc).
Proof.
  induction hs as [|h hs IH]; intros acc Hacc; simpl; [done|].
  apply IH. unfold collect_link.
  destruct (skipped_href h); [done|].
  destruct (url_resolve h base) as [r|] eqn:Hres; [|done].
  destruct (String.eqb_spec (url_hostname r) (url_hostname base)); [|done].
  apply Forall_app. split; [done|].
  constructor; [|constructor]. exists r. split; [by eapply resolve_roundtrip | done].
Qed.

Lemma extractLinks_parse html base :
  Forall (fun l => exists r, url_parse l = Some r
                             /\ url_hostname r = url_hostname base)
         (extractLinks html base).
Proof.
  apply Forall_forall. intros l Hl. apply dedup_from_subset in Hl.
  pose proof (collect_links_parse base (Scan.hrefs html) [] (List.Forall_nil _)) as Hall.
  by apply (proj1 (Forall_forall _ _) Hall).
Qed.

Lemma filter_internal_keeps_all links :
  Forall (fun l => exists r, url_parse l = Some r
                             /\ url_hostname r = url_hostname baseUrl) links ->
  filter_internal baseUrl links = Some links.
Proof.
  induction 1 as [|l links (r & Hr & Hhost) _ IH]; simpl; [done|].
  rewrite Hr, IH, Hhost, String.eqb_refl. reflexivity.
Qed.

Lemma filter_internal_on_seed_host links : forall internal,
  filter_internal baseUrl links = Some internal ->
  Forall (on_seed_host baseUrl) internal.
Proof.
  induction links as [|l links IH]; intros internal Hf; simpl in Hf.
  - simplify_eq. constructor.
  - destruct (url_parse l) as [u|] eqn:Hu; [|done].
    destruct (filter_internal baseUrl links) as [kept|]; [|done].
    destruct (String.eqb_spec (url_hostname u) (url_hostname baseUrl)) as [Hh|];
      simplify_eq; [|by apply IH].
    constructor; [|by apply IH].
    intros b Hb. congruence.
Qed.

Lemma external_links_always_zero START_URL st :
  on_seed_host baseUrl START_URL ->
  run_crawl baseUrl START_URL = Some st ->
  Forall no_external (crawled st).
Proof.
  intros Hseed Hrun.
  refine (proj2 (crawl_good baseUrl no_external (on_seed_host baseUrl) _ _
                   filter_internal_on_seed_host _ _ _ _ Hseed Hrun _)).
  - intros u message. left. by eexists.
  - intros u status html base internal Hu _ Hbase Hint. right.
    rewrite filter_internal_keeps_all in Hint.
    + simplify_eq. cbn [page_data external_links]. f_equal. lia.
    + rewrite <- (Hu base Hbase). apply extractLinks_parse.
  - split; [apply Inv_empty | constructor].
Qed.

End ExternalLinks.

Section LinkCounts.
Context `{WebPlatform}.

Lemma collect_links_spec base hs : forall acc,
  fold_left (collect_link base) hs acc
  = acc ++ map url_href
             (List.filter (same_host base)
                (omap (fun href => if skipped_href href then None
                                   else url_resolve href base) hs)).
Proof.
  induction hs as [|h hs IH]; intros acc; [by rewrite app_nil_r|].
  cbn [fold_left omap list_omap]. rewrite IH. unfold collect_link.
  destruct (skipped_href h); [done|].
  destruct (url_resolve h base) as [r|]; [|done].
  cbn [List.filter]. unfold same_host.
  destruct (String.eqb (url_hostname r) (url_hostname base)); [|done].
  by rewrite <- app_assoc.
Qed.

(** The same-host half of the link counts: what [extractLinks] returns is
    the list of the distinct same-host links of the page. *)
Lemma extractLinks_spec html base :
  extractLinks html base
  = dedup (map url_href (List.filter (same_host base) (resolved_links html base))).
Proof. unfold extractLinks. by rewrite collect_links_spec. Qed.

Lemma dedup_from_nonempty seen x l :
  x ∉ seen -> dedup_from seen (x :: l) <> [].
Proof. intros Hx. simpl. by rewrite bool_decide_eq_false_2. Qed.

End LinkCounts.

(** C1 on a page all of whose links leave the site. The page has at least
    one distinct cross-host link, yet its record has [internal_links = 0]
    and [external_links = 0]: [extractLinks] keeps same-host links only, so
    the subtraction in [crawl] has nothing left to count. *)
Theorem cross_host_links_not_counted :
  forall (platform : WebPlatform) (baseUrl base : URL) (START_URL html : string)
         (status : Z),
    fetchPage START_URL = Fetched status html ->
    url_parse START_URL = Some base ->
    Scan.hrefs html <> [] ->
    Forall (fun h => skipped_href h = false
                     /\ exists other, url_resolve h base = Some other
                                      /\ url_hostname other <> url_hostname base)
           (Scan.hrefs html) ->
    0 < spec_external_links html base
    /\ exists p,
         run_crawl baseUrl START_URL
         = Some (mkCrawlState ({[START_URL]} ∪ ∅) [p] [START_URL])
         /\ url p = START_URL
         /\ internal_links p = Some 0
         /\ external_links p = Some 0.
Proof.
  intros platform baseUrl base START_URL html status Hfetch Hbase Hne Hcross.
  split.
  - unfold spec_external_links, resolved_links.
    destruct (Scan.hrefs html) as [|h hs]; [done|].
    apply Forall_cons in Hcross as [(Hskip & other & Hres & Hhost) _].
    cbn [omap list_omap]. rewrite Hskip, Hres. cbn [List.filter].
    unfold same_host at 1.
    destruct (String.eqb_spec (url_hostname other) (url_hostname base)); [done|].
    cbn [negb map]. unfold dedup.
    pose proof (dedup_from_nonempty [] (url_href other)
                  (map url_href
                     (List.filter (fun r => negb (same_host base r))
                        (omap (fun href => if skipped_href href then None
                                           else url_resolve href base) hs)))
                  (not_elem_of_nil _)) as Hnonempty.
    destruct (dedup_from _ _); [done | simpl; lia].
  - unfold run_crawl. rewrite crawl_step.
    rewrite bool_decide_eq_false_2 by set_solver.
    cbn [orb crawled length]. change (MAX_PAGES <=? 0)%nat with false.
    cbv zeta iota. rewrite Hfetch, Hbase.
    unfold extractLinks. rewrite (collect_links_cross_host base).
    + cbn [dedup dedup_from filter_internal length take follow].
      rewrite take_nil. cbn [follow].
      eexists. split; [reflexivity|]. by repeat split.
    + eapply Forall_impl; [exact Hcross|]. by intros h [_ Hh].
Qed.

Lemma cross_host_links_not_counted_witness :
  Scan.hrefs Fixtures.partners_html = ["https://other.example/"]
  /\ 0 < @spec_external_links Fixtures.toy_web Fixtures.partners_html
           (Fixtures.mkToyURL "https://example.com/partners" "example.com")
  /\ exists p,
       @run_crawl Fixtures.toy_web Fixtures.toy_base "https://example.com/partners"
       = Some (mkCrawlState ({["https://example.com/partners"]} ∪ ∅) [p]
                 ["https://example.com/partners"])
       /\ url p = "https://example.com/partners"
       /\ internal_links p = Some 0
       /\ external_links p = Some 0.
Proof.
  split; [reflexivity|].
  apply (cross_host_links_not_counted Fixtures.toy_web Fixtures.toy_base
           (Fixtures.mkToyURL "https://example.com/partners" "example.com")
           "https://example.com/partners" Fixtures.partners_html 200).
  - reflexivity.
  - reflexivity.
  - by vm_compute.
  - vm_compute. constructor; [|constructor].
    split; [reflexivity|]. eexists. split; [reflexivity|]. simpl. discriminate.
Defined.

(** The crawl of the small site of [Fixtures]: depth-first order, one record
    per URL, the unreachable page recorded with status 0, and the link to
    the other host of the home page counted nowhere. *)
Example crawl_small_site :
  (fun st => (map (fun p => (url p, status_code p, internal_links p, external_links p,
                            error p)) (crawled st), requests st))
    <$> @run_crawl Fixtures.toy_web Fixtures.toy_base "https://example.com/"
  = Some ([("https://example.com/", 200, Some 2, Some 0, None);
           ("https://example.com/about", 200, Some 0, Some 0, None);
           ("https://example.com/broken", 0, None, None, Some "fetch failed")],
          ["https://example.com/"; "https://example.com/about";
           "https://example.com/broken"]).
Proof. vm_compute. reflexivity. Qed.

End CrawlerProps.

(** ** Structured data *)

Module StructuredDataProps.
Import StructuredData.

Section WithPlatform.
Context `{WebPlatform}.

Lemma is_jsonld_entry type schema data :
  is_jsonld (entry type schema data) = String.eqb type "json-ld".
Proof. reflexivity. Qed.

Lemma jsonld_entry_is_jsonld block e :
  jsonld_entry block = Some e -> is_jsonld e = true.
Proof.
  unfold jsonld_entry. intros He.
  destruct (JSON_parse block) as [parsed|]; [|done].
  destruct (Json.get parsed "@type"); [|done].
  by simplify_eq.
Qed.

Lemma filter_jsonld_entries blocks :
  List.filter is_jsonld (omap jsonld_entry blocks) = omap jsonld_entry blocks.
Proof.
  induction blocks as [|b bs IH]; [done|].
  cbn [omap list_omap].
  destruct (jsonld_entry b) as [e|] eqn:He; [|exact IH].
  cbn [List.filter]. rewrite (jsonld_entry_is_jsonld b e He).
  f_equal. exact IH.
Qed.

Lemma filter_jsonld_tag_entry type typeKey fallback tags :
  String.eqb type "json-ld" = false ->
  List.filter is_jsonld (tag_entry type typeKey fallback tags) = [].
Proof.
  intros Ht. destruct tags; [done|].
  unfold tag_entry. cbn [List.filter]. by rewrite is_jsonld_entry, Ht.
Qed.

Lemma filter_jsonld_microdata ms :
  List.filter is_jsonld (map microdata_entry ms) = [].
Proof. induction ms; simpl; done. Qed.

(** The [json-ld] entries of an extraction are the entries of the
    JSON-LD blocks, one per block whose [try] body runs through. *)
Lemma jsonld_entries_of_extraction html u :
  List.filter is_jsonld (extractStructuredData html u)
  = omap jsonld_entry (Scan.jsonld_blocks html).
Proof.
  unfold extractStructuredData.
  rewrite !List.filter_app, filter_jsonld_entries,
    !filter_jsonld_tag_entry, filter_jsonld_microdata by reflexivity.
  by rewrite !app_nil_r.
Qed.

(** Where the parsed value is not [null], a block with a malformed
    sibling yields exactly one entry, in the collector as in the
    crawler. *)
Lemma one_valid_one_malformed html u good bad v :
  (Scan.jsonld_blocks html = [good; bad] \/ Scan.jsonld_blocks html = [bad; good]) ->
  JSON_parse good = Some v ->
  v <> JNull ->
  JSON_parse bad = None ->
  (exists schema,
      List.filter is_jsonld (extractStructuredData html u)
      = [entry "json-ld" schema v])
  /\ Crawler.m_structured_data (Crawler.extractMeta html) = [v].
Proof.
  intros Hblocks Hgood Hv Hbad.
  rewrite jsonld_entries_of_extraction.
  assert (Hentry : exists schema,
             jsonld_entry good = Some (entry "json-ld" schema v)).
  { unfold jsonld_entry. rewrite Hgood.
    destruct v; try (eexists; reflexivity). done. }
  destruct Hentry as [schema Hentry].
  assert (Hnone : jsonld_entry bad = None)
    by (unfold jsonld_entry; by rewrite Hbad).
  unfold Crawler.extractMeta. cbn [Crawler.m_structured_data].
  destruct Hblocks as [-> | ->]; simpl;
    rewrite Hentry, Hnone, Hgood, Hbad; split; eauto.
Qed.

End WithPlatform.

(** C10 at a block holding the JSON value [null]. The page has two JSON-LD
    blocks, [null] (valid JSON) and a malformed one; the collector returns
    no [json-ld] entry for it: reading [parsed['@type']] of [null] throws
    inside the [try] that is meant to skip invalid JSON. The crawler's own
    extraction keeps the value. *)
Theorem null_block_yields_no_entry :
  forall (platform : WebPlatform) (u : string),
    JSON_parse "null" = Some JNull ->
    JSON_parse "{bad" = None ->
    Scan.jsonld_blocks Fixtures.null_and_bad_html = ["null"; "{bad"]
    /\ List.filter is_jsonld (extractStructuredData Fixtures.null_and_bad_html u) = []
    /\ Crawler.m_structured_data (Crawler.extractMeta Fixtures.null_and_bad_html)
       = [JNull].
Proof.
  intros platform u Hnull Hbad.
  assert (Hblocks : Scan.jsonld_blocks Fixtures.null_and_bad_html = ["null"; "{bad"])
    by (vm_compute; reflexivity).
  split; [exact Hblocks|].
  rewrite jsonld_entries_of_extraction.
  unfold Crawler.extractMeta. cbn [Crawler.m_structured_data].
  rewrite Hblocks. unfold jsonld_entry. simpl.
  rewrite Hnull, Hbad. simpl. by split.
Qed.

Lemma null_block_yields_no_entry_witness :
  List.filter is_jsonld
    (@extractStructuredData Fixtures.toy_web Fixtures.null_and_bad_html
       "https://example.com/") = [].
Proof.
  exact (proj1 (proj2 (null_block_yields_no_entry Fixtures.toy_web
                         "https://example.com/" eq_refl eq_refl))).
Defined.

(** The usual case: an object next to a malformed block gives one entry. *)
Example object_and_bad_block :
  Scan.jsonld_blocks Fixtures.about_html = ["{}"; "{bad"]
  /\ List.filter is_jsonld
       (@extractStructuredData Fixtures.toy_web Fixtures.about_html
          "https://example.com/about")
     = [entry "json-ld" (JStr "Unknown") (JObj [])].
Proof. vm_compute. by split. Qed.

End StructuredDataProps.

(** * Further properties of the code *)

(** ** Monitoring engine: the diff *)

Module MonitoringMore.
Import Monitoring MonitoringSpec MonitoringAux MonitoringProps.

(** The comparison steps and the summary. *)

Lemma summary_push_change c d :
  summary (push_change c d)
  = mkSummary true (pages_added (summary d)) (pages_removed (summary d))
              (scores (summary d)).
Proof. reflexivity. Qed.

Lemma flagged_push c d : flagged (push_change c d).
Proof.
  split; [|done]. intros _. rewrite changes_push_change.
  intros Hnil. by apply app_eq_nil in Hnil as [_ ?].
Qed.

Lemma flagged_page_count cur base d :
  flagged d -> flagged (compare_page_count cur base d).
Proof.
  intros Hd. unfold compare_page_count. destruct (negb _); [|done].
  unfold flagged. rewrite changes_set_page_summary. cbn [set_page_summary summary has_changes].
  apply flagged_push.
Qed.

Lemma flagged_metrics cur base ms : forall d,
  flagged d -> flagged (fold_left (compare_metric cur base) ms d).
Proof.
  induction ms as [|m ms IH]; intros d Hd; [done|].
  simpl. apply IH. unfold compare_metric. destruct (negb _); [|done].
  unfold flagged. rewrite changes_set_score. cbn [set_score summary has_changes].
  apply flagged_push.
Qed.

Lemma flagged_issues cur base d :
  flagged d -> flagged (compare_issues cur base d).
Proof.
  intros Hd. unfold compare_issues. destruct (negb _); [apply flagged_push | done].
Qed.

Lemma flagged_structured cur base d :
  flagged d -> flagged (compare_structured cur base d).
Proof.
  intros Hd. unfold compare_structured. destruct (negb _); [apply flagged_push | done].
Qed.

Lemma changes_page_count cur base d :
  changes (compare_page_count cur base d)
  = changes d
    ++ (if num_or_zero (pages_crawled cur) =? num_or_zero (pages_crawled base) then []
        else [mkChange "page_count" (num_or_zero (pages_crawled base))
                       (num_or_zero (pages_crawled cur))
                       (num_or_zero (pages_crawled cur)
                        - num_or_zero (pages_crawled base))]).
Proof.
  unfold compare_page_count. destruct (_ =? _); simpl; by rewrite ?app_nil_r.
Qed.

(** The change list of a comparison, entry by entry. *)
Lemma changes_compare_full now cur base :
  changes (compareWithBaseline now cur base)
  = (if num_or_zero (pages_crawled cur) =? num_or_zero (pages_crawled base) then []
     else [mkChange "page_count" (num_or_zero (pages_crawled base))
                    (num_or_zero (pages_crawled cur))
                    (num_or_zero (pages_crawled cur)
                     - num_or_zero (pages_crawled base))])
    ++ (if fallback_score cur =? fallback_score base then []
        else map (fun m => mkChange m (fallback_score base) (fallback_score cur)
                                   (fallback_score cur - fallback_score base)) metrics)
    ++ (if total_issues cur =? total_issues base then []
        else [mkChange "issues_count" (total_issues base) (total_issues cur)
                       (total_issues cur - total_issues base)])
    ++ (if structured_total cur =? structured_total base then []
        else [mkChange "structured_data_count" (structured_total base)
                       (structured_total cur)
                       (structured_total cur - structured_total base)]).
Proof. rewrite changes_compareWithBaseline, changes_page_count. reflexivity. Qed.

Lemma compare_flagged now cur base : flagged (compareWithBaseline now cur base).
Proof.
  unfold compareWithBaseline.
  apply flagged_structured, flagged_issues, flagged_metrics, flagged_page_count.
  split; [discriminate | done].
Qed.

Lemma compare_self_nil now S : changes (compareWithBaseline now S S) = [].
Proof. rewrite changes_compare_full, !Z.eqb_refl. reflexivity. Qed.

(** X1. [has_changes] is set exactly when the change list is not empty, and a
    diff never has more than six entries (page count, three metrics, issue
    count, structured-data count). *)
Theorem compare_flag_and_size :
  forall now cur base,
    (has_changes (summary (compareWithBaseline now cur base)) = true
     <-> changes (compareWithBaseline now cur base) <> [])
    /\ (length (changes (compareWithBaseline now cur base)) <= 6)%nat.
Proof.
  intros now cur base. split.
  - apply compare_flagged.
  - rewrite changes_compare_full.
    repeat match goal with |- context [if ?b then _ else _] => destruct b end;
      simpl; lia.
Qed.

(** The page counters of the summary. *)

Lemma pages_summary_metrics cur base ms : forall d,
  pages_added (summary (fold_left (compare_metric cur base) ms d))
  = pages_added (summary d)
  /\ pages_removed (summary (fold_left (compare_metric cur base) ms d))
     = pages_removed (summary d).
Proof.
  induction ms as [|m ms IH]; intros d; [done|].
  simpl. destruct (IH (compare_metric cur base d m)) as [-> ->].
  unfold compare_metric. by destruct (negb _).
Qed.

(** [pages_added] and [pages_removed] are the positive and the negative part
    of the difference of the two page counts: neither is negative, at most
    one is non-zero, and their difference is the page-count delta. *)
Theorem compare_page_counters :
  forall now cur base,
    let d := compareWithBaseline now cur base in
    let delta := num_or_zero (pages_crawled cur) - num_or_zero (pages_crawled base) in
    pages_added (summary d) = Z.max 0 delta
    /\ pages_removed (summary d) = Z.max 0 (- delta)
    /\ pages_added (summary d) - pages_removed (summary d) = delta.
Proof.
  intros now cur base d delta. subst d. unfold compareWithBaseline.
  assert (Hs : forall x,
             pages_added (summary (compare_structured cur base x))
             = pages_added (summary x)
             /\ pages_removed (summary (compare_structured cur base x))
                = pages_removed (summary x))
    by (intros x; unfold compare_structured; by destruct (negb _)).
  assert (Hi : forall x,
             pages_added (summary (compare_issues cur base x))
             = pages_added (summary x)
             /\ pages_removed (summary (compare_issues cur base x))
                = pages_removed (summary x))
    by (intros x; unfold compare_issues; by destruct (negb _)).
  destruct (Hs (compare_issues cur base
                  (fold_left (compare_metric cur base) metrics
                     (compare_page_count cur base
                        (mkDiff now [] (mkSummary false 0 0 ∅)))))) as [-> ->].
  destruct (Hi (fold_left (compare_metric cur base) metrics
                  (compare_page_count cur base
                     (mkDiff now [] (mkSummary false 0 0 ∅))))) as [-> ->].
  destruct (pages_summary_metrics cur base metrics
              (compare_page_count cur base (mkDiff now [] (mkSummary false 0 0 ∅))))
    as [-> ->].
  unfold compare_page_count. subst delta.
  destruct (Z.eqb_spec (num_or_zero (pages_crawled cur))
                       (num_or_zero (pages_crawled base))) as [Heq|Hne]; simpl; lia.
Qed.

(** X2. Swapping the two snapshots swaps baseline and current in every entry and
    negates its delta. *)
Theorem compare_swap :
  forall now now' A B,
    changes (compareWithBaseline now' B A)
    = map flip_change (changes (compareWithBaseline now A B)).
Proof.
  intros now now' A B. rewrite !changes_compare_full, !map_app.
  rewrite (Z.eqb_sym (num_or_zero (pages_crawled B))),
    (Z.eqb_sym (fallback_score B)), (Z.eqb_sym (total_issues B)),
    (Z.eqb_sym (structured_total B)).
  repeat match goal with |- context [if ?b then _ else _] => destruct b end;
    cbn [map metrics app]; unfold flip_change;
    cbn [c_type c_baseline c_current c_delta];
    rewrite ?Z.opp_sub_distr, ?Z.add_opp_l; reflexivity.
Qed.

(** The per-metric summary. *)

Lemma scores_metrics cur base ms : forall d,
  scores (summary (fold_left (compare_metric cur base) ms d))
  = if fallback_score cur =? fallback_score base then scores (summary d)
    else fold_left
           (fun acc m => <[m := mkScoreDelta (fallback_score base) (fallback_score cur)
                                   (fallback_score cur - fallback_score base)]> acc)
           ms (scores (summary d)).
Proof.
  induction ms as [|m ms IH]; intros d; simpl; [by destruct (_ =? _)|].
  rewrite IH. unfold compare_metric.
  by destruct (fallback_score cur =? fallback_score base).
Qed.

(** [summary.scores] has an entry for a key exactly when the compared score
    differs and the key is one of the three metric names, and the entry
    repeats the baseline, current and delta of the change entries. *)
Theorem compare_scores_summary :
  forall now cur base m,
    let b := fallback_score base in
    let c := fallback_score cur in
    scores (summary (compareWithBaseline now cur base)) !! m
    = if (negb (c =? b) && bool_decide (m ∈ metrics))%bool
      then Some (mkScoreDelta b c (c - b)) else None.
Proof.
  intros now cur base m b c. unfold compareWithBaseline.
  assert (Hs : forall x, scores (summary (compare_structured cur base x))
                         = scores (summary x))
    by (intros x; unfold compare_structured; by destruct (negb _)).
  assert (Hi : forall x, scores (summary (compare_issues cur base x))
                         = scores (summary x))
    by (intros x; unfold compare_issues; by destruct (negb _)).
  assert (Hp : forall x, scores (summary (compare_page_count cur base x))
                         = scores (summary x))
    by (intros x; unfold compare_page_count; by destruct (negb _)).
  rewrite Hs, Hi, scores_metrics, Hp. fold b c.
  destruct (c =? b); cbn [negb andb summary scores]; [apply lookup_empty|].
  unfold metrics. cbn [fold_left].
  case_bool_decide as Hm.
  - repeat (apply elem_of_cons in Hm as [-> | Hm]);
      [| | | by apply elem_of_nil in Hm]; by simplify_map_eq.
  - rewrite !lookup_insert_ne, lookup_empty; [done | | |];
      intros <-; apply Hm; set_solver.
Qed.

(** ** Monitoring engine: the thresholds *)

Lemma gates_at_most_one th c : (length (gates th c) <= 1)%nat.
Proof.
  unfold gates, gate_issues, gate_score, gate_pages, is_score_type.
  destruct (String.eqb_spec (c_type c) "issues_count") as [->|_];
    [cbn; destruct (_ <? _); simpl; lia|].
  destruct (String.eqb_spec (c_type c) "page_count") as [->|_];
    [cbn; destruct (_ <? _); simpl; lia|].
  cbn [andb app]. destruct (_ && _)%bool; simpl; lia.
Qed.

(** X3. A change entry raises at most one alert, so a diff raises at most as
    many alerts as it has entries, and none when it has none. *)
Theorem checkThresholds_at_most_one_per_change :
  forall diff th,
    (length (checkThresholds diff th) <= length (changes diff))%nat.
Proof.
  intros diff th. rewrite checkThresholds_spec. unfold spec_alerts.
  induction (changes diff) as [|c cs IH]; simpl; [done|].
  rewrite length_app. pose proof (gates_at_most_one th c). lia.
Qed.

Lemma gates_sublist th th' c :
  thresholds_le th th' -> gates th' c `sublist_of` gates th c.
Proof.
  intros (Hi & Hs & Hp). unfold gates.
  repeat apply sublist_app.
  - unfold gate_issues. destruct (String.eqb _ _); [|done]. cbn [andb].
    destruct (Z.ltb_spec (new_issues_critical th') (c_delta c));
      destruct (Z.ltb_spec (new_issues_critical th) (c_delta c));
      first [done | apply sublist_nil_l | lia].
  - unfold gate_score. destruct (is_score_type c); [|done]. cbn [andb].
    destruct (Z.ltb_spec (c_delta c) (- score_drop_above th'));
      destruct (Z.ltb_spec (c_delta c) (- score_drop_above th));
      first [done | apply sublist_nil_l | lia].
  - unfold gate_pages. destruct (String.eqb _ _); [|done]. cbn [andb].
    destruct (Z.ltb_spec (c_delta c) (- pages_removed_above th'));
      destruct (Z.ltb_spec (c_delta c) (- pages_removed_above th));
      first [done | apply sublist_nil_l | lia].
Qed.

(** X4. Raising thresholds never adds an alert: the alerts under the higher
    thresholds are a sub-sequence of the alerts under the lower ones. *)
Theorem checkThresholds_antitone :
  forall diff th th',
    thresholds_le th th' ->
    checkThresholds diff th' `sublist_of` checkThresholds diff th.
Proof.
  intros diff th th' Hle. rewrite !checkThresholds_spec. unfold spec_alerts.
  induction (changes diff) as [|c cs IH]; simpl; [done|].
  apply sublist_app; [by apply gates_sublist | exact IH].
Qed.

Lemma checkThresholds_antitone_witness :
  checkThresholds Fixtures.two_alert_diff (mkThresholds 5 10 1)
  `sublist_of` checkThresholds Fixtures.two_alert_diff (mkThresholds 0 10 1).
Proof.
  apply (checkThresholds_antitone Fixtures.two_alert_diff
           (mkThresholds 0 10 1) (mkThresholds 5 10 1)).
  unfold thresholds_le. simpl. lia.
Defined.

(** ** Monitoring engine: a run *)

Section Run.
Context `{NodePath}.

(** X5. A run performs the comparison exactly when the configuration exists, is
    enabled and points to a baseline file that exists; otherwise it writes
    nothing. *)
Theorem runMonitoringCheck_gate :
  forall w now snap,
    let r := runMonitoringCheck w now snap in
    (is_checked (fst r) = true
     <-> (exists cfg, monitoring_json w = Some cfg /\ enabled (monitoring cfg) = true)
         /\ is_Some (loadBaseline w))
    /\ (is_checked (fst r) = false -> snd r = w)
    /\ (fst r = Disabled
        <-> ~ exists cfg, monitoring_json w = Some cfg /\ enabled (monitoring cfg) = true).
Proof.
  intros w now snap. unfold runMonitoringCheck, loadMonitoringConfig.
  destruct (monitoring_json w) as [cfg|] eqn:Hcfg; cbn zeta.
  - destruct (enabled (monitoring cfg)) eqn:Hen; cbn [negb].
    + destruct (loadBaseline w) as [b|] eqn:Hb; cbn [fst snd is_checked].
      * split; [|split]; [| done |].
        -- split; [|done]. intros _. split; [by exists cfg | by eexists].
        -- split; [done|]. intros Hno. destruct Hno. by exists cfg.
      * split; [|split]; [| done |].
        -- split; [done|]. by intros [_ [? ?]].
        -- split; [done|]. intros Hno. destruct Hno. by exists cfg.
    + cbn [fst snd is_checked]. split; [|split]; [| done |].
      * split; [done|]. intros [(cfg' & Hc & He) _]. congruence.
      * split; [|done]. intros _ (cfg' & Hc & He). congruence.
  - cbn [fst snd is_checked]. split; [|split]; [| done |].
    + split; [done|]. by intros [(cfg' & Hc & _) _].
    + split; [|done]. by intros _ (cfg' & Hc & _).
Qed.

(** X6. No run touches the snapshot files, the monitoring section of the
    configuration or, hence, the baseline in force; and after a run that
    performed the comparison the persisted history has between 1 and 30
    entries, however long it was before. *)
Theorem runMonitoringCheck_footprint :
  forall w now snap,
    let r := runMonitoringCheck w now snap in
    snapshot_files (snd r) = snapshot_files w
    /\ (monitoring <$> monitoring_json (snd r)) = (monitoring <$> monitoring_json w)
    /\ loadBaseline (snd r) = loadBaseline w
    /\ (is_checked (fst r) = true ->
        exists cfg h,
          monitoring_json (snd r) = Some cfg
          /\ history cfg = Some h
          /\ (1 <= length h <= 30)%nat).
Proof.
  intros w now snap. unfold runMonitoringCheck, loadMonitoringConfig.
  destruct (monitoring_json w) as [cfg|] eqn:Hcfg; cbn zeta;
    [|cbn [fst snd is_checked]; by rewrite Hcfg].
  destruct (enabled (monitoring cfg)) eqn:Hen; cbn [negb];
    [|cbn [fst snd is_checked]; by rewrite Hcfg].
  destruct (loadBaseline w) as [b|] eqn:Hb;
    [|cbn [fst snd is_checked]; by rewrite Hcfg, Hb].
  cbn [fst snd is_checked snapshot_files monitoring_json]. repeat split.
  - rewrite <- Hb. unfold loadBaseline, loadMonitoringConfig. by rewrite Hcfg.
  - intros _. eexists _, _. split; [reflexivity|]. split; [reflexivity|].
    destruct (30 <? _)%nat eqn:E.
    + rewrite length_slice_last. apply Nat.ltb_lt in E. lia.
    + apply Nat.ltb_ge in E. rewrite length_app in *. simpl in *. lia.
Qed.

Lemma run_without_change w cfg baseline now snap :
  monitoring_json w = Some cfg ->
  enabled (monitoring cfg) = true ->
  loadBaseline w = Some baseline ->
  changes (compareWithBaseline now snap baseline) = [] ->
  exists diff date,
    fst (runMonitoringCheck w now snap) = Checked "ok" diff [] date
    /\ changes diff = []
    /\ has_changes (summary diff) = false.
Proof.
  intros Hcfg Hen Hb Hnil.
  unfold runMonitoringCheck, loadMonitoringConfig. rewrite Hcfg, Hen, Hb.
  cbn [negb fst].
  assert (Hal : checkThresholds (compareWithBaseline now snap baseline)
                  (alert_thresholds (monitoring cfg)) = [])
    by (unfold checkThresholds; by rewrite Hnil).
  rewrite Hal. cbn [length Nat.ltb Nat.leb].
  eexists _, _. split; [reflexivity|]. split; [exact Hnil|].
  destruct (has_changes _) eqn:Hh; [|done].
  by apply (proj1 (compare_flagged now snap baseline)) in Hh.
Qed.

(** X7. Checking the snapshot that is the baseline reports no change and no
    alert: the status is [ok]. *)
Theorem check_against_own_baseline :
  forall w cfg baseline now,
    monitoring_json w = Some cfg ->
    enabled (monitoring cfg) = true ->
    loadBaseline w = Some baseline ->
    exists diff date,
      fst (runMonitoringCheck w now baseline) = Checked "ok" diff [] date
      /\ changes diff = []
      /\ has_changes (summary diff) = false.
Proof.
  intros w cfg baseline now Hcfg Hen Hb.
  eapply run_without_change; [exact Hcfg | exact Hen | exact Hb |].
  apply compare_self_nil.
Qed.

End Run.

Lemma check_against_own_baseline_witness :
  exists diff date,
    fst (@runMonitoringCheck Fixtures.toy_path Fixtures.toy_world "run-1"
           Fixtures.toy_baseline) = Checked "ok" diff [] date
    /\ changes diff = []
    /\ has_changes (summary diff) = false.
Proof.
  apply (@check_against_own_baseline Fixtures.toy_path Fixtures.toy_world
           (mkConfig (mkMonitoringCfg true (Some "data/baseline_snapshot.json")
                                      Fixtures.toy_thresholds) None)
           Fixtures.toy_baseline "run-1");
    reflexivity.
Defined.

End MonitoringMore.

(** ** Creating a baseline and checking against it *)

Module MonitoringCliProps.
Import Monitoring MonitoringSpec MonitoringAux MonitoringProps MonitoringMore MonitoringCli.

Lemma compare_stamped_nil now now' S :
  changes (compareWithBaseline now S (stamp_baseline now' S)) = [].
Proof.
  rewrite changes_compare_full.
  change (pages_crawled (stamp_baseline now' S)) with (pages_crawled S).
  change (fallback_score (stamp_baseline now' S)) with (fallback_score S).
  change (total_issues (stamp_baseline now' S)) with (total_issues S).
  change (structured_total (stamp_baseline now' S)) with (structured_total S).
  rewrite !Z.eqb_refl. reflexivity.
Qed.

Section WithPath.
Context `{NodePath}.

(** X8. On a platform whose [path.join] is associative on these segments and
    for which the relative pointer is not absolute: after [createBaseline]
    the baseline in force is the given snapshot with its creation stamp,
    whatever baseline was in force before, the history and the enabled flag
    are as they were, and a check of the same snapshot reports status [ok]
    with no change. Without a configuration file the call fails, after it
    has written the baseline file. *)
Theorem createBaseline_then_check :
  forall w now now' snap,
    path_isAbsolute "data/baseline_snapshot.json" = false ->
    path_join (path_join WORKSPACE_DIR "data") "baseline_snapshot.json"
    = path_join WORKSPACE_DIR "data/baseline_snapshot.json" ->
    (forall cfg,
        monitoring_json w = Some cfg ->
        let w' := fst (createBaseline w now snap) in
        snd (createBaseline w now snap) = true
        /\ loadBaseline w' = Some (stamp_baseline now snap)
        /\ (history <$> monitoring_json w') = Some (history cfg)
        /\ ((fun c => enabled (monitoring c)) <$> monitoring_json w')
           = Some (enabled (monitoring cfg))
        /\ (enabled (monitoring cfg) = true ->
            exists diff date,
              fst (runMonitoringCheck w' now' snap) = Checked "ok" diff [] date
              /\ changes diff = []))
    /\ (monitoring_json w = None ->
        snd (createBaseline w now snap) = false
        /\ snapshot_files (fst (createBaseline w now snap))
             !! path_join DATA_DIR "baseline_snapshot.json"
           = Some (stamp_baseline now snap)).
Proof.
  intros w now now' snap Hrel Hjoin. split.
  - intros cfg Hcfg. unfold createBaseline. cbn [monitoring_json]. rewrite Hcfg.
    cbn [fst snd].
    assert (Hload :
              loadBaseline
                (mkWorld
                   (Some (mkConfig
                            (mkMonitoringCfg (enabled (monitoring cfg))
                               (Some "data/baseline_snapshot.json")
                               (alert_thresholds (monitoring cfg)))
                            (history cfg)))
                   (<[path_join DATA_DIR "baseline_snapshot.json"
                      := stamp_baseline now snap]> (snapshot_files w)))
              = Some (stamp_baseline now snap)).
    { unfold loadBaseline, loadMonitoringConfig.
      cbn [monitoring_json monitoring baseline_snapshot snapshot_files].
      change (JsString.truthy "data/baseline_snapshot.json") with true.
      cbv iota. rewrite Hrel. unfold DATA_DIR. rewrite Hjoin.
      apply lookup_insert_eq. }
    repeat split; [exact Hload|].
    intros Hen.
    match type of Hload with
    | loadBaseline (mkWorld (Some ?c) ?f) = _ =>
        destruct (run_without_change (mkWorld (Some c) f) c
                    (stamp_baseline now snap) now' snap
                    eq_refl Hen Hload (compare_stamped_nil now' now snap))
          as (diff & date & Hrun & Hnil & _)
    end.
    by exists diff, date.
  - intros Hnone. unfold createBaseline. cbn [monitoring_json]. rewrite Hnone.
    cbn [fst snd snapshot_files]. split; [done | apply lookup_insert_eq].
Qed.

End WithPath.

Lemma createBaseline_then_check_witness :
  let w' := fst (@createBaseline Fixtures.toy_path Fixtures.toy_world "t0"
                   (Fixtures.snapshot_of_pages [Fixtures.script_page])) in
  @loadBaseline Fixtures.toy_path w'
  = Some (stamp_baseline "t0" (Fixtures.snapshot_of_pages [Fixtures.script_page])).
Proof.
  exact (proj1 (proj2 (proj1 (@createBaseline_then_check Fixtures.toy_path
                                 Fixtures.toy_world "t0" "t1"
                                 (Fixtures.snapshot_of_pages [Fixtures.script_page])
                                 eq_refl eq_refl)
                         _ eq_refl))).
Defined.

End MonitoringCliProps.

(** ** Content coverage checker: all snapshots *)

Module ContentCoverageMore.
Import ContentCoverageChecker ContentCoverageAux.

(** Each check appends to the issues it is given. *)

Lemma check_meta_description_app issues p :
  check_meta_description issues p = issues ++ check_meta_description [] p.
Proof.
  unfold check_meta_description.
  destruct (blank _); [done|]. destruct (_ <? _); [done | by rewrite app_nil_r].
Qed.

Lemma check_h1_app issues p : check_h1 issues p = issues ++ check_h1 [] p.
Proof.
  unfold check_h1. destruct (h1 p) as [[|x hs]|]; try done.
  destruct (1 <? _)%nat; [done | by rewrite app_nil_r].
Qed.

Lemma check_title_app issues p : check_title issues p = issues ++ check_title [] p.
Proof.
  unfold check_title. destruct (blank _); [done | by rewrite app_nil_r].
Qed.

Lemma check_word_count_app issues p :
  check_word_count issues p = issues ++ check_word_count [] p.
Proof.
  unfold check_word_count. destruct (word_count p); [|by rewrite app_nil_r].
  destruct (_ <? _); [done | by rewrite app_nil_r].
Qed.

Lemma check_images_app issues p : check_images issues p = issues ++ check_images [] p.
Proof.
  unfold check_images. destruct (images p) as [[|x imgs]|];
    try by rewrite app_nil_r.
  destruct (0 <? _)%nat; [done | by rewrite app_nil_r].
Qed.

Lemma fold_check_flat_map (f : list Issue -> Page -> list Issue) :
  (forall issues p, f issues p = issues ++ f [] p) ->
  forall ps acc, fold_left f ps acc = acc ++ flat_map (f []) ps.
Proof.
  intros Hf. induction ps as [|p ps IH]; intros acc; simpl;
    [by rewrite app_nil_r|].
  rewrite IH, (Hf acc p). by rewrite <- app_assoc.
Qed.

(** The issue list is grouped by check, each group in page order. *)
Lemma issues_by_check snap :
  let cps := List.filter is_content_page (default [] (pages snap)) in
  issues (analyzeContentCoverage snap)
  = flat_map (check_meta_description []) cps
    ++ flat_map (check_h1 []) cps
    ++ flat_map (check_title []) cps
    ++ flat_map (check_word_count []) cps
    ++ flat_map (check_images []) cps.
Proof.
  unfold analyzeContentCoverage. cbn [issues].
  rewrite (fold_check_flat_map _ check_images_app),
    (fold_check_flat_map _ check_word_count_app),
    (fold_check_flat_map _ check_title_app),
    (fold_check_flat_map _ check_h1_app),
    (fold_check_flat_map _ check_meta_description_app).
  cbn [app]. by rewrite <- !app_assoc.
Qed.

Lemma one_issue_nil p : one_issue_for p [].
Proof. split; [simpl; lia | constructor]. Qed.

Lemma one_issue_single p ty sev msg :
  sev = "high" \/ sev = "medium" -> one_issue_for p [mkIssue ty sev (url p) msg].
Proof.
  intros Hs. split; [simpl; lia|].
  constructor; [split; [exact Hs | reflexivity] | constructor].
Qed.

Lemma checks_one_issue p :
  one_issue_for p (check_meta_description [] p)
  /\ one_issue_for p (check_h1 [] p)
  /\ one_issue_for p (check_title [] p)
  /\ one_issue_for p (check_word_count [] p)
  /\ one_issue_for p (check_images [] p).
Proof.
  unfold check_meta_description, check_h1, check_title, check_word_count,
    check_images.
  split; [|split; [|split; [|split]]];
    repeat match goal with
           | |- context [if ?b then _ else _] => destruct b
           | |- context [match ?x with _ => _ end] => destruct x
           end;
    cbn [app];
    first [ apply one_issue_nil
          | apply one_issue_single; by left
          | apply one_issue_single; by right ].
Qed.

Lemma flat_map_one_issue (f : Page -> list Issue) ps :
  (forall p, one_issue_for p (f p)) ->
  (length (flat_map f ps) <= length ps)%nat
  /\ Forall (issue_about ps) (flat_map f ps).
Proof.
  intros Hf. induction ps as [|p ps [IHlen IHall]]; simpl; [by split|].
  destruct (Hf p) as [Hlen Hall]. split.
  - rewrite length_app. lia.
  - apply Forall_app. split.
    + eapply Forall_impl; [exact Hall|]. intros i [Hsev Hpage].
      split; [done|]. exists p. split; [by left | done].
    + eapply Forall_impl; [exact IHall|]. intros i [Hsev (q & Hq & Hpage)].
      split; [done|]. exists q. split; [by right | done].
Qed.

Lemma count_high_medium l :
  Forall (fun i : Issue => i_severity i = "high" \/ i_severity i = "medium") l ->
  length l = (count_severity "high" l + count_severity "medium" l)%nat.
Proof.
  unfold count_severity. induction 1 as [|i l [Hs | Hs] _ IH]; simpl; [done | |];
    rewrite Hs; simpl; lia.
Qed.

(** X9. Every issue is of high or medium severity and names the URL of a content
    page; no page is the subject of more than five issues in total, one per
    check; the three counters of the summary add up; and pages whose URL
    ends in an asset extension are never reported. *)
Theorem coverage_issues_shape :
  forall snap,
    let r := analyzeContentCoverage snap in
    Forall (issue_about (contentPages r)) (issues r)
    /\ (length (issues r) <= 5 * length (contentPages r))%nat
    /\ total_issues (summary r)
       = (high_severity (summary r) + medium_severity (summary r))%nat
    /\ Forall (fun p => is_content_page p = true) (contentPages r).
Proof.
  intros snap r.
  assert (Hissues : issues r
                    = flat_map (check_meta_description []) (contentPages r)
                      ++ flat_map (check_h1 []) (contentPages r)
                      ++ flat_map (check_title []) (contentPages r)
                      ++ flat_map (check_word_count []) (contentPages r)
                      ++ flat_map (check_images []) (contentPages r))
    by apply issues_by_check.
  destruct (flat_map_one_issue (check_meta_description []) (contentPages r)
              (fun p => proj1 (checks_one_issue p))) as [L1 A1].
  destruct (flat_map_one_issue (check_h1 []) (contentPages r)
              (fun p => proj1 (proj2 (checks_one_issue p)))) as [L2 A2].
  destruct (flat_map_one_issue (check_title []) (contentPages r)
              (fun p => proj1 (proj2 (proj2 (checks_one_issue p))))) as [L3 A3].
  destruct (flat_map_one_issue (check_word_count []) (contentPages r)
              (fun p => proj1 (proj2 (proj2 (proj2 (checks_one_issue p))))))
    as [L4 A4].
  destruct (flat_map_one_issue (check_images []) (contentPages r)
              (fun p => proj2 (proj2 (proj2 (proj2 (checks_one_issue p))))))
    as [L5 A5].
  assert (Hall : Forall (issue_about (contentPages r)) (issues r))
    by (rewrite Hissues; repeat (apply Forall_app; split); done).
  split; [exact Hall|]. split; [|split].
  - rewrite Hissues, !length_app. lia.
  - change (total_issues (summary r)) with (length (issues r)).
    change (high_severity (summary r)) with (count_severity "high" (issues r)).
    change (medium_severity (summary r)) with (count_severity "medium" (issues r)).
    apply count_high_medium. eapply Forall_impl; [exact Hall|]. by intros i [? _].
  - apply Forall_forall. intros p Hp.
    apply list_elem_of_In in Hp. by apply List.filter_In in Hp as [_ ?].
Qed.

(** The coverage score lies between 0 and 100; it is 0 when there is no
    content page and otherwise 100 less 15 per high and 5 per medium issue of
    the summary, floored at 0. *)
Theorem coverage_score_range :
  forall snap,
    let r := analyzeContentCoverage snap in
    let score := summary_coverage_score (summary r) in
    0 <= score <= 100
    /\ score
       = match contentPages r with
         | [] => 0
         | _ => Z.max 0 (100 - 15 * Z.of_nat (high_severity (summary r))
                             - 5 * Z.of_nat (medium_severity (summary r)))
         end.
Proof.
  intros snap r score. subst score r. unfold analyzeContentCoverage.
  cbn [summary summary_coverage_score contentPages high_severity medium_severity].
  unfold calculateCoverageScore.
  destruct (List.filter is_content_page (default [] (pages snap))); [lia|].
  cbv zeta. lia.
Qed.

Lemma flat_map_nil_iff {A B} (f : A -> list B) l :
  flat_map f l = [] <-> Forall (fun x => f x = []) l.
Proof.
  induction l as [|x l IH]; simpl; [by split|].
  split.
  - intros Happ. apply app_eq_nil in Happ as [Hx Hl].
    constructor; [done | by apply IH].
  - intros Hall. apply Forall_cons in Hall as [-> Hl]. by apply IH.
Qed.

Lemma meta_check_nil p :
  check_meta_description [] p = []
  <-> match meta_description p with
      | Some d => (negb (blank (Some d)) && (50 <=? str_length d))%bool
      | None => false
      end = true.
Proof.
  unfold check_meta_description. destruct (meta_description p) as [d|];
    [|by split].
  cbn [default from_option id]. destruct (blank (Some d)); cbn [negb andb app];
    [by split|].
  destruct (Z.ltb_spec (str_length d) 50) as [Hlt|Hge]; cbn [app].
  - split; [done|]. intros Hle. apply Z.leb_le in Hle. lia.
  - split; [|done]. intros _. by apply Z.leb_le.
Qed.

Lemma h1_check_nil p :
  check_h1 [] p = []
  <-> match h1 p with
      | Some [_] => true
      | _ => false
      end = true.
Proof.
  unfold check_h1. by destruct (h1 p) as [[|x [|y hs]]|].
Qed.

Lemma title_check_nil p :
  check_title [] p = [] <-> negb (blank (title p)) = true.
Proof. unfold check_title. by destruct (blank (title p)). Qed.

Lemma word_count_check_nil p :
  check_word_count [] p = []
  <-> match word_count p with
      | Some n => 50 <=? n
      | None => true
      end = true.
Proof.
  unfold check_word_count. destruct (word_count p) as [n|]; [|done].
  destruct (Z.ltb_spec n 50) as [Hlt|Hge]; cbn [app].
  - split; [done|]. intros Hle. apply Z.leb_le in Hle. lia.
  - split; [|done]. intros _. by apply Z.leb_le.
Qed.

Lemma images_check_nil p :
  check_images [] p = []
  <-> match images p with
      | Some imgs => forallb (fun img => negb (blank (Some (img_alt img)))) imgs
      | None => true
      end = true.
Proof.
  assert (Himg : forall imgs : list Image,
             forallb (fun img => negb (blank (Some (img_alt img)))) imgs = true
             <-> length (List.filter (fun img => blank (Some (img_alt img))) imgs)
                 = 0%nat).
  { induction imgs as [|img imgs IH]; [done|].
    cbn [forallb List.filter].
    destruct (blank (Some (img_alt img))); cbn [negb andb length];
      [by split | exact IH]. }
  unfold check_images. destruct (images p) as [[|img imgs]|]; [done | | done].
  rewrite (Himg (img :: imgs)).
  destruct (0 <? length _)%nat eqn:E; cbn [app].
  - apply Nat.ltb_lt in E. split; [done | lia].
  - apply Nat.ltb_ge in E. split; [lia | done].
Qed.

Lemma clean_page_checks p :
  clean_page p = true
  <-> check_meta_description [] p = [] /\ check_h1 [] p = []
      /\ check_title [] p = [] /\ check_word_count [] p = []
      /\ check_images [] p = [].
Proof.
  unfold clean_page. rewrite !andb_true_iff.
  rewrite meta_check_nil, h1_check_nil, title_check_nil, word_count_check_nil,
    images_check_nil.
  tauto.
Qed.

(** X10. The analyzer reports nothing exactly when every content page is clean;
    a snapshot with at least one content page, all clean, scores 100. *)
Theorem coverage_no_issue_iff_clean :
  forall snap,
    let r := analyzeContentCoverage snap in
    (issues r = [] <-> Forall (fun p => clean_page p = true) (contentPages r))
    /\ (issues r = [] -> contentPages r <> [] ->
        summary_coverage_score (summary r) = 100).
Proof.
  intros snap r. split.
  - subst r. rewrite issues_by_check. cbv zeta.
    change (contentPages (analyzeContentCoverage snap))
      with (List.filter is_content_page (default [] (pages snap))).
    set (cps := List.filter is_content_page (default [] (pages snap))).
    split.
    + intros Hnil.
      repeat (apply app_eq_nil in Hnil as [?%flat_map_nil_iff Hnil]).
      apply flat_map_nil_iff in Hnil.
      apply Forall_forall. intros p Hp. apply clean_page_checks.
      repeat split;
        match goal with
        | Hf : Forall (fun x => ?f x = []) cps |- ?f p = [] =>
            exact (proj1 (Forall_forall _ _) Hf p Hp)
        end.
    + intros Hclean.
      assert (Hp : forall p, p ∈ cps ->
                 check_meta_description [] p = [] /\ check_h1 [] p = []
                 /\ check_title [] p = [] /\ check_word_count [] p = []
                 /\ check_images [] p = []).
      { intros p Hp. apply clean_page_checks.
        exact (proj1 (Forall_forall _ _) Hclean p Hp). }
      assert (Hnil : forall f : Page -> list Issue,
                 (forall p, p ∈ cps -> f p = []) -> flat_map f cps = [])
        by (intros f Hf; by apply flat_map_nil_iff, Forall_forall).
      rewrite !Hnil; [done | | | | |]; intros p Hin;
        destruct (Hp p Hin) as (? & ? & ? & ? & ?); done.
  - intros Hnil Hne. subst r. revert Hnil Hne.
    unfold analyzeContentCoverage.
    cbn [issues summary summary_coverage_score contentPages].
    intros -> Hne. unfold calculateCoverageScore.
    destruct (List.filter is_content_page (default [] (pages snap))); [done|].
    reflexivity.
Qed.

End ContentCoverageMore.

(** ** Key-page detector: all inputs *)

Module KeyPagesMore.
Import KeyPages KeyPagesAux.

Lemma insert_sorted_perm x l : insert_sorted x l ≡ₚ x :: l.
Proof.
  induction l as [|y r IH]; simpl; [done|].
  destruct (sorts_before x y); [done|].
  rewrite IH. apply Permutation_swap.
Qed.

Lemma sort_scored_perm_acc l : forall acc,
  fold_left (fun acc x => insert_sorted x acc) l acc ≡ₚ acc ++ l.
Proof.
  induction l as [|x l IH]; intros acc; simpl; [by rewrite app_nil_r|].
  rewrite IH, insert_sorted_perm. simpl. apply Permutation_middle.
Qed.

(** Sorting keeps exactly the scored pages it is given. *)
Lemma sort_scored_perm l : sort_scored l ≡ₚ l.
Proof. unfold sort_scored. by rewrite sort_scored_perm_acc. Qed.

(** X11. At most ten key pages are returned: as many as there are candidates
    (pages with status 200 whose URL is not that of an asset), capped at 10;
    and every key page repeats the URL, word count and link count of a
    candidate page of the input. *)
Theorem detectKeyPages_from_candidates :
  forall pages,
    length (detectKeyPages pages)
    = Nat.min 10 (length (List.filter is_candidate pages))
    /\ Forall (fun kp => exists p,
                   p ∈ pages /\ is_candidate p = true /\ status_code p = 200
                   /\ kp_url kp = url p /\ kp_word_count kp = word_count p
                   /\ kp_internal_links kp = internal_links p)
              (detectKeyPages pages).
Proof.
  intros pages. unfold detectKeyPages. split.
  - rewrite length_map, length_take.
    rewrite (Permutation_length (sort_scored_perm _)), length_map. lia.
  - apply Forall_forall. intros kp Hkp.
    apply list_elem_of_fmap in Hkp as ([p q] & -> & Hin).
    apply subseteq_take in Hin. rewrite sort_scored_perm in Hin.
    apply list_elem_of_fmap in Hin as (p' & [= -> ->] & Hp').
    apply list_elem_of_In, List.filter_In in Hp' as [Hp' Hcand].
    exists p'. split; [by apply list_elem_of_In|]. split; [done|].
    split; [|done].
    unfold is_candidate in Hcand. rewrite !andb_true_iff in Hcand.
    destruct Hcand as [_ Hst]. by apply Z.eqb_eq.
Qed.

(** *** Order *)

Lemma sorts_before_ge x y :
  has_score x -> has_score y ->
  if sorts_before x y then scores_ge x y else scores_ge y x.
Proof.
  intros [qx Hx] [qy Hy]. unfold sorts_before, scores_ge. rewrite Hx, Hy.
  destruct (Qle_bool qx qy) eqn:E; cbn [negb].
  - exists qy, qx. repeat split; try done. by apply Qle_bool_iff.
  - exists qx, qy. repeat split; try done.
    destruct (Qlt_le_dec qy qx) as [Hlt|Hle]; [by apply Qlt_le_weak|].
    apply Qle_bool_iff in Hle. congruence.
Qed.

Lemma scores_ge_trans x y z : scores_ge x y -> scores_ge y z -> scores_ge x z.
Proof.
  intros (a & b & Ha & Hb & Hab) (b' & c & Hb' & Hc & Hbc).
  exists a, c. repeat split; try done.
  rewrite Hb in Hb'. injection Hb' as <-. by eapply Qle_trans.
Qed.

Lemma insert_sorted_sorted x l :
  has_score x -> Forall has_score l ->
  StronglySorted scores_ge l -> StronglySorted scores_ge (insert_sorted x l).
Proof.
  intros Hx Hl Hs. induction Hs as [|y r Hr IH Hy]; simpl.
  - by repeat constructor.
  - apply Forall_cons in Hl as [Hys Hl].
    pose proof (sorts_before_ge x y Hx Hys) as Hxy.
    destruct (sorts_before x y).
    + constructor; [by constructor|].
      constructor; [done|].
      eapply Forall_impl; [exact Hy|]. intros z Hz. by eapply scores_ge_trans.
    + constructor; [by apply IH|].
      rewrite insert_sorted_perm. by constructor.
Qed.

Lemma sort_scored_sorted_acc l : forall acc,
  Forall has_score l -> Forall has_score acc ->
  StronglySorted scores_ge acc ->
  StronglySorted scores_ge (fold_left (fun acc x => insert_sorted x acc) l acc).
Proof.
  induction l as [|x l IH]; intros acc Hl Hacc Hs; simpl; [done|].
  apply Forall_cons in Hl as [Hx Hl]. apply IH; [done | |].
  - rewrite insert_sorted_perm. by constructor.
  - by apply insert_sorted_sorted.
Qed.

Lemma contentScore_known p : counts_known p -> is_Some (contentScore p).
Proof.
  intros [[w Hw] [n Hn]]. unfold contentScore, num_of. rewrite Hw, Hn.
  cbn [fmap option_fmap option_map nmin nadd].
  destruct (nonempty (h1 p)); destruct (nonempty (h2 p));
    destruct (root_test (url p)); cbn [nadd]; by eexists.
Qed.

Lemma take_strongly_sorted {A} (R : A -> A -> Prop) n l :
  StronglySorted R l -> StronglySorted R (take n l).
Proof.
  intros Hs. revert n. induction Hs as [|x l Hl IH Hx]; intros [|n]; simpl;
    try constructor; [apply IH|].
  by apply Forall_take.
Qed.

Lemma to_key_page_ge a b :
  scores_ge a b -> importance_ge (to_key_page a) (to_key_page b).
Proof.
  intros (x & y & Ha & Hb & Hle). unfold importance_ge, to_key_page.
  cbn [importance_score]. rewrite Ha, Hb. unfold round.
  cbn [fmap option_fmap option_map].
  eexists _, _. split; [reflexivity|]. split; [reflexivity|].
  apply Qfloor_resp_le. by apply Qplus_le_l.
Qed.

(** X12. When every candidate page has its word count and its link count, the
    key pages come in order of non-increasing importance score: each one is
    listed with a score at least that of every later one. *)
Theorem detectKeyPages_sorted :
  forall pages,
    Forall (fun p => is_candidate p = true -> counts_known p) pages ->
    StronglySorted importance_ge (detectKeyPages pages).
Proof.
  intros pages Hknown. unfold detectKeyPages.
  set (scored := map (fun page => (page, contentScore page))
                     (List.filter is_candidate pages)).
  assert (Hsc : Forall has_score scored).
  { subst scored. apply Forall_forall. intros [p q] Hin.
    apply list_elem_of_fmap in Hin as (p' & [= -> ->] & Hp').
    apply list_elem_of_In, List.filter_In in Hp' as [Hp' Hcand].
    apply contentScore_known.
    apply (proj1 (Forall_forall _ _) Hknown p'); [by apply list_elem_of_In | done]. }
  assert (Hsorted : StronglySorted scores_ge (take 10 (sort_scored scored))).
  { apply take_strongly_sorted. unfold sort_scored.
    apply sort_scored_sorted_acc; [done | constructor | constructor]. }
  induction Hsorted as [|a l Hl IH Ha]; simpl; constructor; [exact IH|].
  apply Forall_forall. intros kp Hkp.
  apply list_elem_of_fmap in Hkp as (b & -> & Hb).
  apply to_key_page_ge. exact (proj1 (Forall_forall _ _) Ha b Hb).
Qed.

Lemma detectKeyPages_sorted_witness :
  StronglySorted importance_ge
    (detectKeyPages [Fixtures.blog_page; Fixtures.script_page; MoreFixtures.about_page]).
Proof.
  apply detectKeyPages_sorted.
  constructor; [intros _; split; by eexists|].
  constructor; [intros Hc; by vm_compute in Hc|].
  constructor; [intros _; split; by eexists | constructor].
Defined.

End KeyPagesMore.

(** ** Entity extraction *)

Module EntitiesProps.
Import Entities.





Section WithPlatform.
Context `{UrlPathname}.




Lemma entities_of_pages_none pages : forall st,
  entities_of_pages st pages = None
  <-> exists p, p ∈ pages /\ url_parse (url p) = None.
Proof.
  induction pages as [|page rest IH]; intros st; simpl.
  - split; [done|]. intros (p & Hp & _). by apply elem_of_nil in Hp.
  - destruct (entities_of_page st page) as [st1|] eqn:Hpg.
    + rewrite IH. split.
      * intros (p & Hp & Hnone). exists p. split; [by right | done].
      * intros (p & Hp & Hnone). apply elem_of_cons in Hp as [-> | Hp].
        -- unfold entities_of_page in Hpg. by rewrite Hnone in Hpg.
        -- by exists p.
    + split; [|done]. intros _. exists page. split; [by left|].
      unfold entities_of_page in Hpg.
      by destruct (url_parse (url page)).
Qed.

(** X14. The extraction fails as a whole exactly when the URL of some page is
    not a valid URL: one such page loses the entities of all pages. *)
Theorem extractEntities_fails_iff :
  forall pages,
    extractEntities pages = None
    <-> exists p, p ∈ pages /\ url_parse (url p) = None.
Proof.
  intros pages. unfold extractEntities.
  rewrite <- (entities_of_pages_none pages (mkEState [] ∅)).
  by destruct (entities_of_pages _ pages).
Qed.

End WithPlatform.


End EntitiesProps.

(** ** Citation readiness checks *)

Module CitationChecksProps.
Import ContentCoverageChecker CitationChecks.

Lemma scan_keywords_range content kws : forall e,
  0 <= eatScore e ->
  eatScore e
  <= eatScore (fold_left (scan_keyword content) kws e)
  <= eatScore e + 5 * Z.of_nat (length kws).
Proof.
  induction kws as [|kw kws IH]; intros e He; simpl; [lia|].
  unfold scan_keyword at 2 4.
  destruct (JsString.includes content kw).
  - specialize (IH (mkEeat (eatScore e + 5)
                           (hasAuthorInfo e || String.eqb kw "author"
                            || String.eqb kw "team")
                           (hasContactInfo e || String.eqb kw "contact")
                           (hasAboutPage e || String.eqb kw "about")
                           (hasPrivacyPolicy e || String.eqb kw "privacy"))).
    cbn [eatScore] in IH. lia.
  - specialize (IH e He). lia.
Qed.

Lemma scan_pages_score pages : forall acc acc',
  scan_pages acc pages = Some acc' ->
  fst acc <= fst acc' <= fst acc + 10 * Z.of_nat (length pages).
Proof.
  induction pages as [|p pages IH]; intros acc acc' Hrun; simpl in Hrun.
  - simplify_eq. simpl. lia.
  - destruct (scan_page acc p) as [acc1|] eqn:Hp; [|done].
    apply IH in Hrun.
    assert (fst acc <= fst acc1 <= fst acc + 10).
    { unfold scan_page in Hp. destruct (structured_data p) as [[|sd rest]|];
        try (simplify_eq; lia).
      destruct (scan_items _ _); simplify_eq. simpl. lia. }
    rewrite length_cons. lia.
Qed.

(** X15. Whenever the checker returns, each of the three partial scores lies
    between 0 and its advertised maximum (40, 30 and 30), the citation score
    is their sum and so lies between 0 and [max_score] = 100. *)
Theorem citation_score_bounds :
  forall snap r,
    checkCitationReadiness snap = Some r ->
    0 <= r_structured_data_score r <= 40
    /\ 0 <= eatScore (r_eeat r) <= 30
    /\ 0 <= r_content_score r <= 30
    /\ r_citation_score r
       = r_structured_data_score r + eatScore (r_eeat r) + r_content_score r
    /\ 0 <= r_citation_score r <= r_max_score r
    /\ r_max_score r = 100.
Proof.
  intros snap r Hrun. unfold checkCitationReadiness in Hrun.
  destruct (pages snap) as [ps|]; [|done].
  destruct (scan_pages _ ps) as [[sdScore flags]|] eqn:Hscan; [|done].
  apply scan_pages_score in Hscan. cbn [fst] in Hscan.
  pose proof (scan_keywords_range (allContent ps) authorKeywords
                (mkEeat 0 false false false false) (Z.le_refl 0)) as Heat.
  cbn [eatScore] in Heat.
  change (Z.of_nat (length authorKeywords)) with 6 in Heat.
  set (eeat := fold_left (scan_keyword (allContent ps)) authorKeywords _) in *.
  clearbody eeat.
  injection Hrun as <-.
  cbn [r_structured_data_score r_eeat eatScore r_content_score r_citation_score
       r_max_score].
  destruct (hasOrganizationSchema flags); lia.
Qed.

Lemma citation_score_bounds_witness :
  exists r,
    checkCitationReadiness
      (Fixtures.snapshot_of_pages [MoreFixtures.about_page; Fixtures.blog_page])
    = Some r
    /\ 0 <= r_citation_score r <= 100.
Proof.
  eexists. split; [vm_compute; reflexivity|].
  pose proof (citation_score_bounds
                (Fixtures.snapshot_of_pages [MoreFixtures.about_page; Fixtures.blog_page])
                _ ltac:(vm_compute; reflexivity)) as (_ & _ & _ & _ & Hs & Hm).
  lia.
Defined.

Lemma citation_issues_shape site f e thin :
  let l := citation_issues site f e thin in
  (length l <= 6)%nat
  /\ length l = (count_severity "high" l + count_severity "medium" l
                 + count_severity "low" l)%nat
  /\ Forall (fun i => i_page i = site) l.
Proof.
  unfold citation_issues, count_severity.
  destruct (hasSchemaOrg f); destruct (negb (hasAuthorSchema f) && negb (hasAuthorInfo e))%bool;
    destruct (hasOrganizationSchema f); destruct (hasFAQSchema f);
    destruct (hasHowToSchema f); destruct (0 <? thin)%nat;
    cbn [app List.filter i_severity String.eqb Ascii.eqb Bool.eqb length];
    (split; [lia | split; [reflexivity | repeat constructor]]).
Qed.

(** X16. Whenever the checker returns, it reports at most six issues, all about
    the site URL; the three severity counters add up to the total; and each
    of the four schema issues is present exactly when its flag is off. *)
Theorem citation_issues_counts :
  forall snap r,
    checkCitationReadiness snap = Some r ->
    (r_total_issues r <= 6)%nat
    /\ r_total_issues r
       = (r_high_severity r + r_medium_severity r + r_low_severity r)%nat
    /\ r_total_issues r = length (r_issues r)
    /\ Forall (fun i => i_page i = website_url snap) (r_issues r)
    /\ ("missing_schema_org" ∈ (i_type <$> r_issues r)
        <-> hasSchemaOrg (r_flags r) = false)
    /\ ("missing_organization_schema" ∈ (i_type <$> r_issues r)
        <-> hasOrganizationSchema (r_flags r) = false)
    /\ ("missing_faq_schema" ∈ (i_type <$> r_issues r)
        <-> hasFAQSchema (r_flags r) = false)
    /\ ("missing_howto_schema" ∈ (i_type <$> r_issues r)
        <-> hasHowToSchema (r_flags r) = false).
Proof.
  intros snap r Hrun. unfold checkCitationReadiness in Hrun.
  destruct (pages snap) as [ps|]; [|done].
  destruct (scan_pages _ ps) as [[sdScore flags]|]; [|done].
  injection Hrun as <-.
  cbn [r_total_issues r_high_severity r_medium_severity r_low_severity r_issues
       r_flags].
  match goal with
  | |- context [citation_issues ?s ?f ?e ?t] =>
      destruct (citation_issues_shape s f e t) as (H6 & Hsum & Hsite)
  end.
  split; [exact H6|]. split; [exact Hsum|]. split; [reflexivity|].
  split; [exact Hsite|].
  unfold citation_issues.
  destruct (hasSchemaOrg flags); destruct (negb (hasAuthorSchema flags) && _)%bool;
    destruct (hasOrganizationSchema flags); destruct (hasFAQSchema flags);
    destruct (hasHowToSchema flags); destruct (0 <? _)%nat;
    cbn [app fmap list_fmap i_type];
    repeat split; intros Hx; try done;
    try (repeat (apply elem_of_cons in Hx as [Hx | Hx]; [discriminate Hx|]);
         by apply elem_of_nil in Hx);
    set_solver.
Qed.

Lemma citation_issues_counts_witness :
  exists r,
    checkCitationReadiness
      (Fixtures.snapshot_of_pages [MoreFixtures.about_page; Fixtures.blog_page])
    = Some r
    /\ (r_total_issues r <= 6)%nat.
Proof.
  eexists. split; [vm_compute; reflexivity|].
  exact (proj1 (citation_issues_counts
                  (Fixtures.snapshot_of_pages
                     [MoreFixtures.about_page; Fixtures.blog_page])
                  _ ltac:(vm_compute; reflexivity))).
Defined.

(** *** When the checker throws *)

Lemma scan_item_safe f sd : is_Some (scan_item f sd) <-> safe_item sd = true.
Proof.
  unfold scan_item, safe_item. destruct (Json.get sd "@type") as [ty|].
  - destruct (is_schema_org sd ty) as [b|]; split; intros Hx.
    + reflexivity.
    + eexists; reflexivity.
    + destruct Hx as [x Hx]; discriminate Hx.
    + discriminate Hx.
  - split; intros Hx; [destruct Hx as [x Hx]; discriminate Hx | discriminate Hx].
Qed.

Lemma scan_items_safe items : forall f,
  is_Some (scan_items f items) <-> forallb safe_item items = true.
Proof.
  induction items as [|sd rest IH]; intros f; simpl.
  - split; intros _; [reflexivity | eexists; reflexivity].
  - rewrite andb_true_iff, <- (scan_item_safe f sd).
    destruct (scan_item f sd) as [f'|].
    + rewrite IH. split.
      * intros Hr. split; [eexists; reflexivity | exact Hr].
      * intros [_ Hr]. exact Hr.
    + split.
      * intros [x Hx]. discriminate Hx.
      * intros [[x Hx] _]. discriminate Hx.
Qed.

Lemma scan_page_safe acc p : is_Some (scan_page acc p) <-> safe_page p = true.
Proof.
  unfold scan_page, safe_page. destruct (structured_data p) as [[|sd rest]|].
  - split; intros _; [reflexivity | eexists; reflexivity].
  - cbn [default from_option id].
    rewrite <- (scan_items_safe (sd :: rest) (snd acc)).
    destruct (scan_items (snd acc) (sd :: rest)) as [f|]; split; intros [x Hx];
      first [discriminate Hx | eexists; reflexivity].
  - split; intros _; [reflexivity | eexists; reflexivity].
Qed.

Lemma scan_pages_safe pages : forall acc,
  is_Some (scan_pages acc pages) <-> Forall (fun p => safe_page p = true) pages.
Proof.
  induction pages as [|p pages IH]; intros acc; simpl.
  - split; intros _; [constructor | eexists; reflexivity].
  - rewrite Forall_cons, <- (scan_page_safe acc p).
    destruct (scan_page acc p) as [acc'|].
    + rewrite IH. split.
      * intros Hr. split; [eexists; reflexivity | exact Hr].
      * intros [_ Hr]. exact Hr.
    + split.
      * intros [x Hx]. discriminate Hx.
      * intros [[x Hx] _]. discriminate Hx.
Qed.

(** X17. The checker returns a result exactly when the snapshot has a page list
    and every structured-data item of every page is safe: not [null], and
    with a [@context] that, unless the type is already [SchemaOrg] or the
    context is falsy, is a string or an array. In every other case it throws,
    and no result is produced for the site. *)
Theorem citation_returns_iff_safe :
  forall snap,
    is_Some (checkCitationReadiness snap)
    <-> exists ps, pages snap = Some ps /\ Forall (fun p => safe_page p = true) ps.
Proof.
  intros snap. unfold checkCitationReadiness.
  destruct (pages snap) as [ps|].
  - pose proof (scan_pages_safe ps (0, mkSchemaFlags false false false false false))
      as Hsafe.
    destruct (scan_pages _ ps) as [[sc fl]|]; split.
    + intros _. exists ps. split; [reflexivity | apply Hsafe; eexists; reflexivity].
    + intros _. eexists; reflexivity.
    + intros [x Hx]. discriminate Hx.
    + intros (ps' & Hps & Hall). injection Hps as <-.
      apply Hsafe in Hall as [x Hx]. discriminate Hx.
  - split.
    + intros [x Hx]. discriminate Hx.
    + intros (ps' & Hx & _). discriminate Hx.
Qed.

(** X18. A page that the crawler recorded from HTML with a JSON-LD block holding
    the JSON value [null] makes the checker throw: the crawler keeps the
    [null] in [structured_data], and the checker reads a property of it. *)
Theorem crawled_null_block_breaks_citation :
  forall (platform : WebPlatform) (html block u : string) (status i e : Z)
         (snap : Snapshot) (ps : list Page),
    block ∈ Scan.jsonld_blocks html ->
    JSON_parse block = Some JNull ->
    pages snap = Some ps ->
    Crawler.page_data u status (Crawler.extractMeta html) i e ∈ ps ->
    checkCitationReadiness snap = None.
Proof.
  intros platform html block u status i e snap ps Hblock Hnull Hps Hin.
  unfold checkCitationReadiness. rewrite Hps.
  pose proof (scan_pages_safe ps (0, mkSchemaFlags false false false false false))
    as Hiff.
  destruct (scan_pages _ ps) as [[sc fl]|]; [|reflexivity].
  assert (Hsafe : Forall (fun p => safe_page p = true) ps)
    by (apply Hiff; eexists; reflexivity).
  pose proof (proj1 (Forall_forall _ _) Hsafe _ Hin) as Hpage.
  unfold safe_page in Hpage.
  cbn [Crawler.page_data structured_data default from_option id] in Hpage.
  unfold Crawler.extractMeta in Hpage. cbn [Crawler.m_structured_data] in Hpage.
  assert (Hmem : JNull ∈ omap JSON_parse (Scan.jsonld_blocks html))
    by (apply list_elem_of_omap; by exists block).
  pose proof (proj1 (List.forallb_forall _ _) Hpage JNull
                (proj1 (list_elem_of_In _ _) Hmem)) as Hnullsafe.
  discriminate Hnullsafe.
Qed.

Lemma crawled_null_block_breaks_citation_witness :
  checkCitationReadiness
    (Fixtures.snapshot_of_pages
       [@Crawler.page_data "https://example.com/" 200
          (@Crawler.extractMeta Fixtures.toy_web Fixtures.null_and_bad_html) 0 0])
  = None.
Proof.
  apply (crawled_null_block_breaks_citation Fixtures.toy_web
           Fixtures.null_and_bad_html "null" "https://example.com/" 200 0 0 _
           [@Crawler.page_data "https://example.com/" 200
              (@Crawler.extractMeta Fixtures.toy_web Fixtures.null_and_bad_html) 0 0]).
  - vm_compute. by left.
  - reflexivity.
  - reflexivity.
  - by left.
Defined.

End CitationChecksProps.

(** * More on the crawler *)

Module CrawlerMore.
Import Crawler CrawlerSpec CrawlerInvariant CrawlerAux CrawlerProps.

Section WithPlatform.
Context `{WebPlatform}.

(** *** The links of a page *)

Lemma dedup_from_elem seen l x : x ∈ dedup_from seen l -> x ∈ l.
Proof.
  revert seen. induction l as [|y l IH]; intros seen; simpl; [done|].
  case_bool_decide.
  - intros Hx. right. by eapply IH.
  - intros [->|Hx]%elem_of_cons; [by left | right; by eapply IH].
Qed.

Lemma collect_links_origin base hs : forall acc l,
  l ∈ fold_left (collect_link base) hs acc ->
  l ∈ acc
  \/ exists h r, h ∈ hs /\ skipped_href h = false /\ url_resolve h base = Some r
                 /\ url_hostname r = url_hostname base /\ url_href r = l.
Proof.
  induction hs as [|h hs IH]; intros acc l Hl; simpl in Hl; [by left|].
  apply IH in Hl as [Hl | (h' & r & Hh & Hrest)].
  - unfold collect_link in Hl.
    destruct (skipped_href h) eqn:Hskip; [by left|].
    destruct (url_resolve h base) as [r|] eqn:Hres; [|by left].
    destruct (String.eqb (url_hostname r) (url_hostname base)) eqn:Hhost;
      [|by left].
    apply elem_of_app in Hl as [Hl | Hl]; [by left|].
    apply list_elem_of_singleton in Hl as ->.
    right. exists h, r. apply String.eqb_eq in Hhost.
    split; [by left | done].
  - right. exists h', r. split; [by right | done].
Qed.

Lemma filter_internal_sublist baseUrl links : forall internal,
  filter_internal baseUrl links = Some internal ->
  sublist internal links /\ Forall (on_host baseUrl) internal.
Proof.
  induction links as [|l links IH]; intros internal Hf; simpl in Hf.
  - simplify_eq. split; constructor.
  - destruct (url_parse l) as [u|] eqn:Hu; [|done].
    destruct (filter_internal baseUrl links) as [kept|]; [|done].
    destruct (IH kept eq_refl) as [Hsub Hall].
    destruct (String.eqb (url_hostname u) (url_hostname baseUrl)) eqn:Hhost;
      simplify_eq.
    + split; [by constructor|]. constructor; [|done].
      exists u. by apply String.eqb_eq in Hhost.
    + split; [by constructor | done].
Qed.

(** *** The images and the structured data of a page *)

Lemma omap_length_le {A B} (f : A -> option B) (l : list A) :
  (length (omap f l) <= length l)%nat.
Proof.
  induction l as [|x l IH]; [done|]. cbn [omap list_omap].
  destruct (f x); simpl; lia.
Qed.

Lemma parse_image_ok tag img : parse_image tag = Some img -> image_ok img.
Proof.
  unfold parse_image, image_ok.
  destruct (first_match re_src tag) as [ms|], (first_match re_alt tag) as [ma|];
    cbn [img_src img_alt img_has_alt]; unfold JsString.truthy;
    (destruct (String.eqb _ "") eqn:Ht; cbn [negb]; [done|]); intros [= <-];
    cbn [img_src img_alt img_has_alt];
    (split; [by apply String.eqb_neq in Ht | reflexivity]).
Qed.

Lemma extractMeta_images_ok html : Forall image_ok (m_images (extractMeta html)).
Proof.
  unfold extractMeta. cbn [m_images]. apply Forall_forall. intros img Himg.
  apply list_elem_of_omap in Himg as (m & _ & Hm). by eapply parse_image_ok.
Qed.

(** *** The requests of a traversal *)

Section Requests.
Variable baseUrl : URL.

Lemma follow_requests visit links :
  (forall u st st', on_host baseUrl u -> visit u st = Some st' ->
     exists l, requests st' = requests st ++ l /\ Forall (on_host baseUrl) l) ->
  Forall (on_host baseUrl) links ->
  forall st st', follow visit links st = Some st' ->
    exists l, requests st' = requests st ++ l /\ Forall (on_host baseUrl) l.
Proof.
  intros Hvisit Hlinks.
  induction Hlinks as [|link rest Hlink _ IH]; intros st st' Hrun;
    simpl in Hrun.
  - simplify_eq. exists []. by rewrite app_nil_r.
  - case_bool_decide; [by eapply IH|].
    destruct (visit link st) as [st1|] eqn:Hv; [|done].
    destruct (Hvisit _ _ _ Hlink Hv) as (l1 & Hl1 & Hall1).
    destruct (IH _ _ Hrun) as (l2 & Hl2 & Hall2).
    exists (l1 ++ l2). split.
    + by rewrite Hl2, Hl1, <- app_assoc.
    + by apply Forall_app.
Qed.

(** A call of [crawl] adds nothing to the trace, or the URL it was called on
    followed by URLs on the host of the seed only; it adds nothing only when it
    returns at once. *)
Lemma crawl_requests fuel : forall u st st',
  crawl baseUrl fuel u st = Some st' ->
  exists l, requests st' = requests st ++ l
            /\ (l = [] \/ exists l', l = u :: l' /\ Forall (on_host baseUrl) l')
            /\ (u ∉ visited st -> (length (crawled st) < MAX_PAGES)%nat -> l <> []).
Proof.
  induction fuel as [|fuel IH]; intros u st st' Hrun; [done|].
  rewrite crawl_step in Hrun.
  destruct (bool_decide (u ∈ visited st)) eqn:Hseen; cbn [orb] in Hrun.
  { simplify_eq. exists []. rewrite app_nil_r.
    apply bool_decide_eq_true in Hseen. split; [done|]. split; [by left | done]. }
  destruct (MAX_PAGES <=? length (crawled st))%nat eqn:Hfull.
  { simplify_eq. exists []. rewrite app_nil_r. apply Nat.leb_le in Hfull.
    split; [done|]. split; [by left | lia]. }
  assert (Herr : forall message,
             Some (push_page (error_page u message)
                     (log_request u (add_visited u st))) = Some st' ->
             exists l, requests st' = requests st ++ l
               /\ (l = [] \/ exists l', l = u :: l' /\ Forall (on_host baseUrl) l')
               /\ (u ∉ visited st -> (length (crawled st) < MAX_PAGES)%nat
                   -> l <> [])).
  { intros message [= <-]. exists [u]. split; [reflexivity|].
    split; [right; exists []; by split | done]. }
  destruct (fetchPage u) as [status html|message]; [|by eapply Herr].
  destruct (url_parse u) as [base|]; [|by eapply Herr].
  cbv zeta in Hrun.
  destruct (filter_internal baseUrl (extractLinks html base)) as [internal|]
    eqn:Hint; [|by eapply Herr].
  apply filter_internal_sublist in Hint as [_ Hhosts].
  eapply follow_requests in Hrun as (l & Hl & Hall).
  - exists (u :: l). cbn [push_page log_request add_visited requests] in Hl.
    rewrite Hl, <- app_assoc. split; [reflexivity|].
    split; [right; by exists l | done].
  - intros v s s' Hv Hs. destruct (IH _ _ _ Hs) as (l & Hl & Hcase & _).
    exists l. split; [done|].
    destruct Hcase as [-> | (l' & -> & Hl')]; [constructor | by constructor].
  - by apply Forall_take.
Qed.

(** *** What holds of the state a run ends in *)

Lemma run_crawl_inv START_URL st :
  run_crawl baseUrl START_URL = Some st -> Inv st.
Proof.
  intros Hrun.
  assert (Hgood : Good (fun _ => True) st); [|by destruct Hgood].
  eapply (crawl_good baseUrl (fun _ => True) (fun _ => True));
    [done | done | intros; apply all_true | done | exact Hrun |].
  split; [apply Inv_empty | constructor].
Qed.

Lemma run_crawl_requests START_URL st :
  run_crawl baseUrl START_URL = Some st ->
  exists rest, requests st = START_URL :: rest /\ Forall (on_host baseUrl) rest.
Proof.
  intros Hrun. unfold run_crawl in Hrun.
  apply crawl_requests in Hrun as (l & Hl & Hcase & Hne).
  cbn [requests app] in Hl.
  destruct Hcase as [-> | (rest & -> & Hrest)]; [|by exists rest].
  exfalso. apply Hne; [set_solver | cbn [crawled length]; unfold MAX_PAGES; lia
                      | reflexivity].
Qed.

Lemma run_crawl_shapes START_URL st :
  run_crawl baseUrl START_URL = Some st -> Forall record_shape (crawled st).
Proof.
  intros Hrun.
  eapply (crawl_good baseUrl record_shape (fun _ => True))
    with (st := mkCrawlState ∅ [] []);
    [| | intros; apply all_true | done | exact Hrun |].
  - intros u message. left. unfold bare_error_record. cbn.
    split; [done|]. split; [by eexists | done].
  - intros u status html base internal _ _ _ Hint. right.
    apply filter_internal_sublist in Hint as [Hsub _].
    apply sublist_length in Hsub.
    unfold data_record. cbn [page_data error title meta_description h1 h2 h3
                               structured_data word_count images internal_links
                               external_links].
    repeat (split; [first [done | by eexists]|]).
    split; [|split].
    + eexists. split; [reflexivity|]. unfold extractMeta. cbn [m_word_count]. lia.
    + eexists. split; [reflexivity | apply extractMeta_images_ok].
    + eexists _, _. split; [reflexivity|]. split; [reflexivity|]. lia.
  - split; [apply Inv_empty | constructor].
Qed.

End Requests.

End WithPlatform.

(** X19. The links [extractLinks] returns for a page are pairwise distinct, and
    each is the [href] of the URL that some [href] attribute of the page
    resolves to against the page's URL, where that attribute is not an
    anchor, [javascript:], [mailto:] or [tel:] reference and the resolved URL
    has the hostname of the page. *)
Theorem extractLinks_distinct_same_host :
  forall (platform : WebPlatform) (html : string) (base : URL),
    NoDup (extractLinks html base)
    /\ forall l, l ∈ extractLinks html base ->
         exists h r,
           h ∈ Scan.hrefs html /\ skipped_href h = false
           /\ url_resolve h base = Some r
           /\ url_hostname r = url_hostname base /\ url_href r = l.
Proof.
  intros platform html base. split; [apply dedup_from_nodup|].
  intros l Hl. apply dedup_from_elem in Hl.
  apply collect_links_origin in Hl as [Hl | Hl]; [|exact Hl].
  by apply elem_of_nil in Hl.
Qed.

(** The images [extractMeta] records have a non-empty [src], and [has_alt]
    tells whether [alt] is non-empty; the structured data it records are the
    values of the JSON-LD blocks that parse, so never more than there are
    blocks; the two link counts are left at 0. *)
Theorem extractMeta_images_and_data :
  forall (platform : WebPlatform) (html : string),
    Forall image_ok (m_images (extractMeta html))
    /\ (length (m_images (extractMeta html))
        <= length (regex_matches re_img html))%nat
    /\ (length (m_structured_data (extractMeta html))
        <= length (Scan.jsonld_blocks html))%nat
    /\ (forall v, v ∈ m_structured_data (extractMeta html)
                  <-> exists block, block ∈ Scan.jsonld_blocks html
                                    /\ JSON_parse block = Some v)
    /\ m_internal_links (extractMeta html) = 0
    /\ m_external_links (extractMeta html) = 0.
Proof.
  intros platform html. split; [apply extractMeta_images_ok|].
  unfold extractMeta. cbn [m_images m_structured_data m_internal_links
                             m_external_links].
  split; [apply omap_length_le|]. split; [apply omap_length_le|].
  split; [|done]. intros v. apply list_elem_of_omap.
Qed.

(** X20. A crawl fetches its seed first, and after that only URLs that the URL
    class accepts and places on the host of the seed: no page of another host
    is ever requested. *)
Theorem crawl_stays_on_seed_host :
  forall (platform : WebPlatform) (baseUrl : URL) (START_URL : string),
    exists st rest,
      run_crawl baseUrl START_URL = Some st
      /\ requests st = START_URL :: rest
      /\ Forall (on_host baseUrl) rest.
Proof.
  intros platform baseUrl START_URL.
  destruct (run_crawl_total baseUrl START_URL) as [st Hrun].
  destruct (run_crawl_requests baseUrl START_URL st Hrun) as (rest & Hreq & Hrest).
  by exists st, rest.
Qed.

(** X21. Every record of a crawl is of one of two shapes: the bare record of the
    [catch] branch (URL, status 0 and a message, nothing else), or a full
    record without a message, whose word count and two link counts are not
    negative and whose images are well formed. There is always at least one
    record. *)
Theorem crawl_record_shapes :
  forall (platform : WebPlatform) (baseUrl : URL) (START_URL : string),
    exists st,
      run_crawl baseUrl START_URL = Some st
      /\ crawled st <> []
      /\ Forall record_shape (crawled st).
Proof.
  intros platform baseUrl START_URL.
  destruct (run_crawl_total baseUrl START_URL) as [st Hrun].
  exists st. split; [exact Hrun|]. split; [|by eapply run_crawl_shapes].
  destruct (run_crawl_requests baseUrl START_URL st Hrun) as (rest & Hreq & _).
  destruct (run_crawl_inv baseUrl START_URL st Hrun) as [_ _ _ Hurls].
  intros Hnil. unfold urls in Hurls. rewrite Hnil, Hreq in Hurls. done.
Qed.

(** X22. [main] fails only when the seed is not a valid URL. Otherwise the crawl
    ends and the snapshot holds its records: between one and ten, the first
    one for the seed, with [pages_crawled] their number. *)
Theorem main_snapshot_holds_seed :
  forall (platform : WebPlatform) (START_URL crawled_at : string) (crawlDuration : Z),
    match url_parse START_URL with
    | None => main START_URL crawled_at crawlDuration = None
    | Some baseUrl =>
        exists st p0 rest,
          run_crawl baseUrl START_URL = Some st
          /\ crawled st = p0 :: rest
          /\ url p0 = START_URL
          /\ (length (crawled st) <= 10)%nat
          /\ main START_URL crawled_at crawlDuration
             = Some (mkSnapshot START_URL crawled_at crawlDuration
                       (Some (Z.of_nat (length (crawled st)))) (Some (crawled st))
                       false [] [] None None None None None)
    end.
Proof.
  intros platform START_URL crawled_at crawlDuration.
  destruct (url_parse START_URL) as [baseUrl|] eqn:Hseed;
    [|unfold main; by rewrite Hseed].
  destruct (main_snapshot baseUrl START_URL crawled_at crawlDuration Hseed)
    as (st & Hrun & Hmain).
  destruct (run_crawl_requests baseUrl START_URL st Hrun) as (rest & Hl & _).
  destruct (run_crawl_inv baseUrl START_URL st Hrun) as [_ _ Hlen Hreq].
  unfold urls in Hreq. rewrite Hl in Hreq.
  destruct (crawled st) as [|p0 ps] eqn:Hps; [done|].
  cbn [fmap list_fmap] in Hreq. injection Hreq as Hurl _.
  exists st, p0, ps. rewrite ?Hps.
  split; [exact Hrun|]. split; [reflexivity|]. split; [by symmetry|].
  split; [exact Hlen | exact Hmain].
Qed.

(** X23. Where [new URL] gives back the URL whose [href] it is given, and the
    seed parses to the base URL as in the program, every record of a crawl is
    an error record or has [external_links = 0]: the links counted were all
    filtered to the page's host before. *)
Theorem crawl_external_links_zero :
  forall (platform : WebPlatform) (baseUrl : URL) (START_URL : string),
    (forall h b r, url_resolve h b = Some r -> url_parse (url_href r) = Some r) ->
    url_parse START_URL = Some baseUrl ->
    exists st,
      run_crawl baseUrl START_URL = Some st
      /\ Forall no_external (crawled st).
Proof.
  intros platform baseUrl START_URL Hround Hseed.
  destruct (run_crawl_total baseUrl START_URL) as [st Hrun].
  exists st. split; [exact Hrun|].
  eapply (crawl_good baseUrl no_external (on_seed_host baseUrl))
    with (st := mkCrawlState ∅ [] []); [| | | | exact Hrun |].
  - intros u message. left. by eexists.
  - intros u status html base internal Hu _ Hbase Hint. right.
    cbn [page_data external_links]. f_equal.
    pose proof (extractLinks_parse Hround html base) as Hall.
    rewrite (Hu base Hbase) in Hall.
    rewrite (filter_internal_keeps_all baseUrl _ Hall) in Hint.
    injection Hint as <-. lia.
  - intros links internal Hint.
    by eapply filter_internal_on_seed_host.
  - intros b Hb. rewrite Hseed in Hb. by injection Hb as <-.
  - split; [apply Inv_empty | constructor].
Qed.

Lemma toy_parse_href s r :
  Fixtures.toy_parse s = Some r -> Fixtures.toy_parse (Fixtures.toy_href r) = Some r.
Proof.
  unfold Fixtures.toy_parse. intros Hs.
  destruct (Fixtures.lookup_host s Fixtures.toy_hosts) as [h|] eqn:Hh; [|done].
  injection Hs as <-. cbn [Fixtures.toy_href]. by rewrite Hh.
Qed.

Lemma toy_resolve_roundtrip h b r :
  Fixtures.toy_resolve h b = Some r ->
  Fixtures.toy_parse (Fixtures.toy_href r) = Some r.
Proof.
  unfold Fixtures.toy_resolve.
  destruct (String.eqb h "/about"); [apply toy_parse_href|].
  destruct (String.eqb h "/broken"); apply toy_parse_href.
Qed.

Lemma crawl_external_links_zero_witness :
  exists st,
    @run_crawl Fixtures.toy_web Fixtures.toy_base "https://example.com/" = Some st
    /\ Forall (@no_external) (crawled st).
Proof.
  apply (crawl_external_links_zero Fixtures.toy_web Fixtures.toy_base
           "https://example.com/").
  - exact toy_resolve_roundtrip.
  - reflexivity.
Defined.

End CrawlerMore.

(** * The two scanners *)

Module ScanProps.
Import Scan ScanAux.

Lemma scan_groups (P : string -> Prop) here :
  (forall s g rest, here s = Some (g, rest) -> P g) ->
  forall s skip, Forall P (scan here skip s).
Proof.
  intros Hhere. induction s as [|c r IH]; intros skip; simpl; [constructor|].
  destruct skip as [|k]; [|apply IH].
  destruct (here (String c r)) as [[g rest]|] eqn:Hg; [|apply IH].
  constructor; [by eapply Hhere | apply IH].
Qed.

Lemma span_until_free stop s a b :
  span_until stop s = (a, b) -> free_of stop a.
Proof.
  revert a b. induction s as [|c r IH]; intros a b; simpl.
  - intros [= <- <-]. constructor.
  - destruct (stop c) eqn:Hc; [intros [= <- <-]; constructor|].
    destruct (span_until stop r) as [a' b'] eqn:Hr. intros [= <- <-].
    constructor; [exact Hc | by eapply IH].
Qed.

Lemma href_here_group s g rest :
  href_here s = Some (g, rest) -> g <> "" /\ free_of is_quote g.
Proof.
  unfold href_here. intros Hs.
  destruct (strip_prefix_ci "href=" s) as [[|q r]|]; [done| |done].
  destruct (is_quote q); [|done].
  destruct (span_until is_quote r) as [[|c a] [|d b]] eqn:Hspan; try done.
  injection Hs as <- <-. split; [done | by eapply span_until_free].
Qed.

Lemma strip_prefix_ci_app p : forall s x t,
  strip_prefix_ci p s = Some x -> strip_prefix_ci p (s +:+ t) = Some (x +:+ t).
Proof.
  induction p as [|a p IH]; intros s x t; simpl.
  - by intros [= <-].
  - destruct s as [|b s]; [done|]. simpl.
    destruct (Ascii.eqb _ _); [apply IH | done].
Qed.

Lemma find_ci_split needle : forall s before after,
  find_ci needle s = Some (before, after) -> exists t, s = before +:+ t.
Proof.
  induction s as [|c r IH]; intros before after; simpl.
  - destruct (strip_prefix_ci needle ""); [|done].
    intros [= <- <-]. by exists "".
  - destruct (strip_prefix_ci needle (String c r)).
    + intros [= <- <-]. by exists (String c r).
    + destruct (find_ci needle r) as [[b a]|] eqn:Hr; [|done].
      intros [= <- <-]. destruct (IH b a eq_refl) as [t ->].
      by exists t.
Qed.

(** The text before the first occurrence of a non-empty needle holds no
    occurrence of it. *)
Lemma find_ci_first a needle : forall s before after,
  find_ci (String a needle) s = Some (before, after) ->
  find_ci (String a needle) before = None.
Proof.
  induction s as [|c r IH]; intros before after.
  - simpl. done.
  - cbn [find_ci].
    destruct (strip_prefix_ci (String a needle) (String c r)) eqn:Hhead.
    + intros [= <- <-]. reflexivity.
    + destruct (find_ci (String a needle) r) as [[b rest]|] eqn:Hr; [|done].
      intros [= <- <-].
      destruct (find_ci_split _ _ _ _ Hr) as [t ->].
      cbn [find_ci]. rewrite (IH b rest eq_refl).
      destruct (strip_prefix_ci (String a needle) (String c b)) as [x|] eqn:Hx;
        [|reflexivity].
      apply (strip_prefix_ci_app _ _ _ t) in Hx.
      change (String c b +:+ t) with (String c (b +:+ t)) in Hx. congruence.
Qed.

Lemma jsonld_here_group s g rest :
  jsonld_here s = Some (g, rest) -> find_ci "</script>" g = None.
Proof.
  unfold jsonld_here. intros Hs.
  destruct (strip_prefix_ci "<script" s) as [r|]; [|done].
  destruct (span_until is_gt r) as [[|c attrs] [|d body]]; try done.
  destruct (any_suffix type_attr_here attrs); [|done].
  by eapply find_ci_first.
Qed.

(** X24. Every [href] value the link pattern captures is non-empty and holds no
    quote character of either kind. *)
Theorem hrefs_nonempty_quote_free :
  forall html : string,
    Forall (fun g => g <> "" /\ free_of is_quote g) (hrefs html).
Proof.
  intros html. apply scan_groups. intros s g rest. apply href_here_group.
Qed.

(** X25. No JSON-LD block that the script pattern captures holds a closing
    [script] tag, in any letter case: a block ends at the first one. *)
Theorem jsonld_blocks_hold_no_closing_tag :
  forall html : string,
    Forall (fun block => find_ci "</script>" block = None) (jsonld_blocks html).
Proof.
  intros html. apply scan_groups. intros s g rest. apply jsonld_here_group.
Qed.

End ScanProps.

(** * More on the structured-data collector *)

Module StructuredDataMore.
Import StructuredData StructuredDataAux CitationChecks.

Section WithPlatform.
Context `{WebPlatform}.

Lemma entry_type_entry type schema data :
  entry_type (entry type schema data) = Some type.
Proof. reflexivity. Qed.

Lemma jsonld_entries_typed blocks :
  Forall (fun e => exists schema data, e = entry "json-ld" schema data)
         (omap jsonld_entry blocks).
Proof.
  apply Forall_forall. intros e He.
  apply list_elem_of_omap in He as (block & _ & He).
  unfold jsonld_entry in He.
  destruct (JSON_parse block) as [parsed|]; [|done].
  destruct (Json.get parsed "@type"); [|done].
  injection He as <-. by eexists _, _.
Qed.

Lemma assoc_set_nonempty k v fs : Json.assoc_set k v fs <> [].
Proof. destruct fs as [|[k' v'] r]; simpl; [done|]. by destruct (String.eqb k k'). Qed.

Lemma tags_of_nonempty key value ms : forall tags,
  tags <> [] -> tags_of key value tags ms <> [].
Proof.
  unfold tags_of. induction ms as [|m ms IH]; intros tags Ht; simpl; [done|].
  apply IH, assoc_set_nonempty.
Qed.

Lemma tags_of_nil_iff key value ms tags :
  tags_of key value tags ms = [] <-> tags = [] /\ ms = [].
Proof.
  split.
  - intros Hnil. destruct ms as [|m ms].
    + by split.
    + exfalso. revert Hnil. unfold tags_of. simpl.
      apply (tags_of_nonempty key value ms), assoc_set_nonempty.
  - by intros [-> ->].
Qed.

Lemma tag_entry_typed type typeKey fallback tags :
  Forall (fun e => exists schema data, e = entry type schema data)
         (tag_entry type typeKey fallback tags)
  /\ length (tag_entry type typeKey fallback tags) = one_if_any tags.
Proof.
  destruct tags as [|t tags]; simpl; [split; [constructor | done]|].
  split; [|done]. constructor; [by eexists _, _ | constructor].
Qed.

Lemma one_if_any_tags key value ms :
  one_if_any (tags_of key value [] ms) = one_if_any ms.
Proof.
  destruct ms as [|m ms]; [done|].
  destruct (tags_of key value [] (m :: ms)) eqn:Ht; [|done].
  by apply tags_of_nil_iff in Ht as [_ ?].
Qed.

Lemma one_if_any_tags2 k1 v1 k2 v2 ms1 ms2 :
  one_if_any (tags_of k2 v2 (tags_of k1 v1 [] ms1) ms2) = one_if_any (ms1 ++ ms2).
Proof.
  destruct (tags_of k2 v2 (tags_of k1 v1 [] ms1) ms2) eqn:Ht.
  - apply tags_of_nil_iff in Ht as [Ht ->].
    by apply tags_of_nil_iff in Ht as [_ ->].
  - destruct ms1 as [|m ms1]; [|done]. destruct ms2 as [|m ms2]; [|done].
    done.
Qed.

Lemma microdata_typed ms :
  Forall (fun e => exists schema data, e = entry "microdata" schema data)
         (map microdata_entry ms).
Proof.
  apply Forall_forall. intros e He.
  apply list_elem_of_fmap in He as (m & -> & _). by eexists _, _.
Qed.

Lemma typed_collector type l :
  type ∈ kinds ->
  Forall (fun e => exists schema data, e = entry type schema data) l ->
  Forall collector_entry l.
Proof.
  intros Hk Hl. eapply Forall_impl; [exact Hl|]. intros e (schema & data & ->).
  by exists type, schema, data.
Qed.

Lemma extraction_collector_entries html u :
  Forall collector_entry (extractStructuredData html u).
Proof.
  unfold extractStructuredData. cbv zeta.
  repeat apply Forall_app_2.
  - apply (typed_collector "json-ld"); [set_solver | apply jsonld_entries_typed].
  - apply (typed_collector "opengraph"); [set_solver | apply tag_entry_typed].
  - apply (typed_collector "twitter-card"); [set_solver | apply tag_entry_typed].
  - apply (typed_collector "microdata"); [set_solver | apply microdata_typed].
Qed.

(** *** The collector's entries under the citation checker *)

Lemma scan_item_collector_entry f e :
  collector_entry e -> scan_item f e = Some f.
Proof.
  intros (type & schema & data & -> & _). destruct f. cbn.
  by rewrite !orb_false_r.
Qed.

Lemma scan_items_collector_entries l : forall f,
  Forall collector_entry l -> scan_items f l = Some f.
Proof.
  induction l as [|e l IH]; intros f Hl; [done|].
  apply Forall_cons in Hl as [He Hl]. cbn [scan_items].
  rewrite (scan_item_collector_entry f e He). by apply IH.
Qed.

Lemma scan_page_processed acc page :
  status_code page = 200 ->
  exists n, scan_page acc (process_page page) = Some (n, snd acc).
Proof.
  intros Hs. destruct acc as [a f]. unfold process_page. rewrite Hs.
  cbn [Z.eqb Pos.eqb negb]. unfold scan_page.
  destruct (fetchPage (url page)) as [status html|message];
    cbn [set_structured_data structured_data fst snd];
    [|exists a; reflexivity].
  pose proof (extraction_collector_entries html (url page)) as Hall.
  destruct (extractStructuredData html (url page)) as [|e l];
    [exists a; reflexivity|].
  rewrite (scan_items_collector_entries _ _ Hall). eexists; reflexivity.
Qed.

Lemma scan_pages_processed ps : forall acc,
  Forall (fun p => status_code p = 200) ps ->
  exists n, scan_pages acc (map process_page ps) = Some (n, snd acc).
Proof.
  induction ps as [|p ps IH]; intros acc Hps; cbn [map scan_pages].
  - exists (fst acc). by destruct acc.
  - apply Forall_cons in Hps as [Hp Hps].
    destruct (scan_page_processed acc p Hp) as [n ->].
    destruct (IH (n, snd acc) Hps) as [n' Hn']. by exists n'.
Qed.

End WithPlatform.

(** X26. The result of [extractStructuredData] is laid out in four parts: the
    [json-ld] entries, at most one per JSON-LD block; one [opengraph] entry
    if and only if one of the two OpenGraph patterns matches; one
    [twitter-card] entry if and only if the Twitter pattern matches; and one
    [microdata] entry per match of the microdata pattern. *)
Theorem extractStructuredData_layout :
  forall (platform : WebPlatform) (html u : string),
    exists j og tw md,
      extractStructuredData html u = j ++ og ++ tw ++ md
      /\ Forall (has_type "json-ld") j
      /\ (length j <= length (Scan.jsonld_blocks html))%nat
      /\ Forall (has_type "opengraph") og
      /\ length og
         = one_if_any (regex_matches re_og html ++ regex_matches re_ogAlt html)
      /\ Forall (has_type "twitter-card") tw
      /\ length tw = one_if_any (regex_matches re_twitter html)
      /\ Forall (has_type "microdata") md
      /\ length md = length (regex_matches re_microdata html).
Proof.
  intros platform html u. unfold extractStructuredData. cbv zeta.
  exists (omap jsonld_entry (Scan.jsonld_blocks html)),
         (tag_entry "opengraph" "og:type" "website"
            (tags_of 2 1 (tags_of 1 2 [] (regex_matches re_og html))
               (regex_matches re_ogAlt html))),
         (tag_entry "twitter-card" "twitter:card" "summary"
            (tags_of 1 2 [] (regex_matches re_twitter html))),
         (map microdata_entry (regex_matches re_microdata html)).
  split; [by rewrite <- !app_assoc|].
  assert (Htyped : forall type l,
             Forall (fun e => exists schema data, e = entry type schema data) l ->
             Forall (has_type type) l).
  { intros type l Hl. eapply Forall_impl; [exact Hl|].
    by intros e (schema & data & ->). }
  split; [apply Htyped, jsonld_entries_typed|].
  split; [apply CrawlerMore.omap_length_le|].
  split; [apply Htyped, tag_entry_typed|].
  split; [rewrite (proj2 (tag_entry_typed _ _ _ _)); apply one_if_any_tags2|].
  split; [apply Htyped, tag_entry_typed|].
  split; [rewrite (proj2 (tag_entry_typed _ _ _ _)); apply one_if_any_tags|].
  split; [apply Htyped, microdata_typed | apply length_map].
Qed.

(** The collector leaves a page whose status is not 200 as it is. On a page
    with status 200 it replaces [structured_data], and nothing else, by a
    list of its own entries: the empty list when the fetch fails. *)
Theorem process_page_sets_only_structured_data :
  forall (platform : WebPlatform) (page : Page),
    if status_code page =? 200 then
      exists sd,
        process_page page = set_structured_data page sd
        /\ Forall collector_entry sd
        /\ match fetchPage (url page) with
           | Fetched _ html => sd = extractStructuredData html (url page)
           | FetchError _ => sd = []
           end
    else process_page page = page.
Proof.
  intros platform page. unfold process_page.
  destruct (status_code page =? 200); cbn [negb]; [|reflexivity].
  destruct (fetchPage (url page)) as [status html|message].
  - eexists. split; [reflexivity|]. split; [apply extraction_collector_entries | done].
  - exists []. split; [reflexivity|]. split; [constructor | done].
Qed.

(** X27. Once the collector has processed the pages of a snapshot, all with status
    200, the citation checker returns a result, and none of its five schema
    findings is set, whatever the pages contain: the checker reads [@type],
    [@context] and [mainEntity] of an item, and the collector's entries have
    the properties [type], [schema] and [data] only. *)
Theorem citation_after_collector_sees_no_schema :
  forall (platform : WebPlatform) (snap : Snapshot) (ps : list Page),
    pages snap = Some (map process_page ps) ->
    Forall (fun p => status_code p = 200) ps ->
    exists r,
      checkCitationReadiness snap = Some r
      /\ r_flags r = no_flags
      /\ count_occ string_dec
           (map ContentCoverageChecker.i_type (r_issues r)) "missing_schema_org" = 1%nat.
Proof.
  intros platform snap ps Hps Hall. unfold checkCitationReadiness. rewrite Hps.
  destruct (scan_pages_processed ps (0, no_flags) Hall) as [n Hn].
  unfold no_flags in Hn at 1. rewrite Hn. cbn [snd]. cbv zeta.
  eexists. split; [reflexivity|]. cbn [r_flags r_issues]. split; [reflexivity|].
  unfold citation_issues, no_flags.
  cbn [hasSchemaOrg hasAuthorSchema hasOrganizationSchema hasFAQSchema
         hasHowToSchema negb andb].
  repeat match goal with
         | |- context [if ?b then _ else _] => destruct b
         end; reflexivity.
Qed.

Lemma citation_after_collector_sees_no_schema_witness :
  exists r,
    checkCitationReadiness
      (Fixtures.snapshot_of_pages
         [@process_page Fixtures.toy_web crawled_about])
    = Some r
    /\ r_flags r = no_flags
    /\ count_occ string_dec
         (map ContentCoverageChecker.i_type (r_issues r)) "missing_schema_org" = 1%nat.
Proof.
  apply (citation_after_collector_sees_no_schema Fixtures.toy_web
           (Fixtures.snapshot_of_pages [@process_page Fixtures.toy_web crawled_about])
           [crawled_about]).
  - reflexivity.
  - constructor; [reflexivity | constructor].
Defined.

End StructuredDataMore.

(** * The analyzers on the output of the crawler *)

Module PipelineProps.
Import Crawler CrawlerInvariant CrawlerAux CrawlerProps CrawlerMore.
Import KeyPages KeyPagesAux KeyPagesMore.
Import ContentCoverageChecker ContentCoverageMore.

Section WithPlatform.
Context `{WebPlatform}.

(** *** Key pages *)

Lemma is_candidate_status p : is_candidate p = true -> status_code p = 200.
Proof.
  unfold is_candidate. cbv zeta. rewrite !andb_true_iff.
  intros [_ Hs]. by apply Z.eqb_eq.
Qed.

Lemma shaped_candidate_counts p :
  record_shape p -> is_candidate p = true -> counts_known p.
Proof.
  intros [Herr | Hdata] Hc.
  - apply is_candidate_status in Hc. destruct Herr as [Hzero _]. congruence.
  - destruct Hdata as (_ & _ & _ & _ & _ & _ & _ & (w & Hw & _) & _
                       & (i & e & Hi & _)).
    split; by eexists.
Qed.

Lemma scored_candidates pages :
  Forall (fun p => is_candidate p = true -> counts_known p) pages ->
  Forall has_score (map (fun page => (page, contentScore page))
                        (List.filter is_candidate pages)).
Proof.
  intros Hknown. apply Forall_forall. intros [p q] Hin.
  apply list_elem_of_fmap in Hin as (p' & [= -> ->] & Hp').
  apply list_elem_of_In, List.filter_In in Hp' as [Hp' Hcand].
  apply contentScore_known.
  apply (proj1 (Forall_forall _ _) Hknown p'); [by apply list_elem_of_In | done].
Qed.

Lemma key_pages_of_sorted l :
  StronglySorted scores_ge l -> StronglySorted importance_ge (map to_key_page l).
Proof.
  intros Hsorted. induction Hsorted as [|a l Hl IH Ha]; simpl; constructor;
    [exact IH|].
  apply Forall_forall. intros kp Hkp.
  apply list_elem_of_fmap in Hkp as (b & -> & Hb).
  apply to_key_page_ge. exact (proj1 (Forall_forall _ _) Ha b Hb).
Qed.

Lemma insert_sorted_has_score x l :
  has_score x -> Forall has_score l -> Forall has_score (insert_sorted x l).
Proof.
  intros Hx Hl. eapply Forall_forall. intros y Hy.
  assert (Hin : y ∈ x :: l) by (by rewrite <- (insert_sorted_perm x l)).
  apply elem_of_cons in Hin as [-> | Hin]; [done|].
  exact (proj1 (Forall_forall _ _) Hl y Hin).
Qed.

Lemma sort_scored_has_score l :
  Forall has_score l -> Forall has_score (sort_scored l).
Proof.
  intros Hl. apply Forall_forall. intros y Hy.
  rewrite (sort_scored_perm l) in Hy.
  exact (proj1 (Forall_forall _ _) Hl y Hy).
Qed.

Lemma key_page_has_importance x :
  has_score x -> is_Some (importance_score (to_key_page x)).
Proof.
  intros [q Hq]. unfold to_key_page. cbn [importance_score]. rewrite Hq.
  by eexists.
Qed.

End WithPlatform.

(** X28. On the records of any crawl, every key page gets a number as its
    importance score (never [NaN]), and the key pages come in order of
    non-increasing score: the records the detector admits, those with status
    200, always carry the word count and the link count it computes with. *)
Theorem key_pages_of_crawl_sorted :
  forall (platform : WebPlatform) (baseUrl : URL) (START_URL : string),
    exists st,
      run_crawl baseUrl START_URL = Some st
      /\ StronglySorted importance_ge (detectKeyPages (crawled st))
      /\ Forall (fun kp => is_Some (importance_score kp)) (detectKeyPages (crawled st)).
Proof.
  intros platform baseUrl START_URL.
  destruct (run_crawl_total baseUrl START_URL) as [st Hrun].
  exists st. split; [exact Hrun|].
  pose proof (run_crawl_shapes baseUrl START_URL st Hrun) as Hshapes.
  assert (Hknown : Forall (fun p => is_candidate p = true -> counts_known p)
                          (crawled st)).
  { eapply Forall_impl; [exact Hshapes|]. intros p. apply shaped_candidate_counts. }
  apply scored_candidates in Hknown. unfold detectKeyPages. cbv zeta. split.
  - apply key_pages_of_sorted, take_strongly_sorted. unfold sort_scored.
    apply sort_scored_sorted_acc; [exact Hknown | constructor | constructor].
  - apply Forall_forall. intros kp Hkp.
    apply list_elem_of_fmap in Hkp as (x & -> & Hx).
    apply key_page_has_importance.
    apply elem_of_take in Hx as (i & Hx & _). apply list_elem_of_lookup_2 in Hx.
    exact (proj1 (Forall_forall _ _) (sort_scored_has_score _ Hknown) x Hx).
Qed.

(** X29. The entity extraction never throws on the records of a crawl that
    started from a valid seed: the URL of every record, also of the records
    of failed fetches, is one the URL class accepts. *)
Theorem entities_of_crawl_defined :
  forall (platform : WebPlatform) (paths : UrlPathname) (baseUrl : URL)
         (START_URL : string),
    url_parse START_URL = Some baseUrl ->
    exists st es,
      run_crawl baseUrl START_URL = Some st
      /\ Entities.extractEntities (crawled st) = Some es.
Proof.
  intros platform paths baseUrl START_URL Hseed.
  destruct (run_crawl_total baseUrl START_URL) as [st Hrun].
  destruct (run_crawl_requests baseUrl START_URL st Hrun) as (rest & Hreq & Hrest).
  destruct (run_crawl_inv baseUrl START_URL st Hrun) as [_ _ _ Hurls].
  destruct (Entities.extractEntities (crawled st)) as [es|] eqn:Hes;
    [by exists st, es|].
  exfalso. unfold Entities.extractEntities in Hes.
  destruct (Entities.entities_of_pages _ (crawled st)) as [est|] eqn:Hrunes;
    [done|].
  apply EntitiesProps.entities_of_pages_none in Hrunes as (p & Hp & Hbad).
  assert (Hin : url p ∈ requests st).
  { rewrite Hurls. unfold urls. by apply list_elem_of_fmap_2. }
  rewrite Hreq in Hin. apply elem_of_cons in Hin as [Hu | Hin].
  - rewrite Hu, Hseed in Hbad. done.
  - destruct (proj1 (Forall_forall _ _) Hrest _ Hin) as (b & Hb & _).
    rewrite Hb in Hbad. done.
Qed.

Lemma entities_of_crawl_defined_witness :
  exists st es,
    @run_crawl Fixtures.toy_web Fixtures.toy_base "https://example.com/" = Some st
    /\ @Entities.extractEntities Fixtures.toy_web MoreFixtures.toy_paths (crawled st)
       = Some es.
Proof.
  apply (entities_of_crawl_defined Fixtures.toy_web MoreFixtures.toy_paths
           Fixtures.toy_base "https://example.com/").
  reflexivity.
Defined.

(** X30. When the fetch of the seed fails, the crawler still writes a snapshot,
    holding the one bare error record, and the coverage analyzer reports it
    as a page without meta description, H1 and title: three issues of high
    severity and a coverage score of 55, provided the seed does not end in
    one of the asset extensions. *)
Theorem coverage_of_unreachable_seed :
  forall (platform : WebPlatform) (baseUrl : URL)
         (START_URL crawled_at message : string) (crawlDuration : Z),
    url_parse START_URL = Some baseUrl ->
    fetchPage START_URL = FetchError message ->
    is_content_page (error_page START_URL message) = true ->
    exists snap,
      main START_URL crawled_at crawlDuration = Some snap
      /\ pages snap = Some [error_page START_URL message]
      /\ map (fun i => (i_type i, i_severity i, i_page i))
             (issues (analyzeContentCoverage snap))
         = [("missing_meta_description", "high", START_URL);
            ("missing_h1", "high", START_URL);
            ("missing_title", "high", START_URL)]
      /\ summary_coverage_score (summary (analyzeContentCoverage snap)) = 55.
Proof.
  intros platform baseUrl START_URL crawled_at message crawlDuration
         Hseed Hfetch Hcontent.
  assert (Hrun : run_crawl baseUrl START_URL
                 = Some (mkCrawlState ({[START_URL]} ∪ ∅)
                           [error_page START_URL message] [START_URL])).
  { unfold run_crawl. rewrite (crawl_fetch_error baseUrl MAX_PAGES START_URL
                                 (mkCrawlState ∅ [] []) message);
      [reflexivity | set_solver | cbn [crawled length]; unfold MAX_PAGES; lia
      | exact Hfetch]. }
  eexists. split; [unfold main; rewrite Hseed; cbn [mbind option_bind];
                   rewrite Hrun; reflexivity|].
  cbn [crawled pages]. split; [reflexivity|].
  unfold analyzeContentCoverage.
  cbn [pages default from_option id List.filter]. rewrite Hcontent.
  split; reflexivity.
Qed.

Lemma coverage_of_unreachable_seed_witness :
  exists snap,
    @main Fixtures.toy_web "https://example.com/broken" "2024-01-01T00:00:00.000Z" 40
    = Some snap
    /\ summary_coverage_score (summary (analyzeContentCoverage snap)) = 55.
Proof.
  destruct (coverage_of_unreachable_seed Fixtures.toy_web
              (Fixtures.mkToyURL "https://example.com/broken" "example.com")
              "https://example.com/broken" "2024-01-01T00:00:00.000Z"
              "fetch failed" 40 eq_refl eq_refl eq_refl)
    as (snap & Hmain & _ & _ & Hscore).
  exists snap. by split.
Defined.

End PipelineProps.

(** * The same page under two spellings of its URL *)

Module CrawlerDuplicates.
Import Crawler CrawlerInvariant CrawlerAux CrawlerNormalized CrawlerProps CrawlerMore.

Section WithPlatform.
Context `{WebPlatform}.

Lemma extractLinks_single html base h r :
  Scan.hrefs html = [h] ->
  skipped_href h = false ->
  url_resolve h base = Some r ->
  url_hostname r = url_hostname base ->
  extractLinks html base = [url_href r].
Proof.
  intros Hhrefs Hskip Hres Hhost. unfold extractLinks. rewrite Hhrefs.
  cbn [fold_left]. unfold collect_link. rewrite Hskip, Hres, Hhost.
  rewrite String.eqb_refl. reflexivity.
Qed.

Lemma filter_internal_single baseUrl l b :
  url_parse l = Some b ->
  url_hostname b = url_hostname baseUrl ->
  filter_internal baseUrl [l] = Some [l].
Proof.
  intros Hl Hhost. cbn [filter_internal]. rewrite Hl, Hhost.
  by rewrite String.eqb_refl.
Qed.

Lemma follow_single visit link st :
  link ∉ visited st -> follow visit [link] st = visit link st.
Proof.
  intros Hfresh. cbn [follow]. rewrite bool_decide_eq_false_2 by done.
  by destruct (visit link st).
Qed.

End WithPlatform.

(** C6. The bound holds, and no URL string is fetched twice, but the same
    normalized URL is. Whenever the seed is not spelled as its own
    normalized form (an origin without the final slash, say) and its page
    has one link, which resolves to the seed's URL, the crawl fetches and
    records the page twice: once under the seed as given, which is what
    [visited] holds, and once under the [href] of the link. *)
Theorem same_normalized_url_fetched_twice :
  forall (platform : WebPlatform) (root : URL) (START_URL html h : string)
         (status : Z),
    url_parse START_URL = Some root ->
    url_parse (url_href root) = Some root ->
    url_href root <> START_URL ->
    fetchPage START_URL = Fetched status html ->
    Scan.hrefs html = [h] ->
    skipped_href h = false ->
    url_resolve h root = Some root ->
    exists st rest,
      run_crawl root START_URL = Some st
      /\ requests st = START_URL :: url_href root :: rest
      /\ url <$> crawled st = requests st
      /\ (length (crawled st) <= MAX_PAGES)%nat
      /\ NoDup (requests st)
      /\ normalized START_URL = Some (url_href root)
      /\ normalized (url_href root) = Some (url_href root)
      /\ ~ spec_unique_fetches (requests st).
Proof.
  intros platform root START_URL html h status Hseed Hback Hne Hfetch Hhrefs
         Hskip Hres.
  destruct (run_crawl_total root START_URL) as [st Hrun].
  destruct (run_crawl_inv root START_URL st Hrun) as [Hnd _ Hlen Hreq].
  assert (Hnorm1 : normalized START_URL = Some (url_href root))
    by (unfold normalized; by rewrite Hseed).
  assert (Hnorm2 : normalized (url_href root) = Some (url_href root))
    by (unfold normalized; by rewrite Hback).
  assert (Hrest : exists rest, requests st = START_URL :: url_href root :: rest).
  { unfold run_crawl in Hrun. rewrite crawl_step in Hrun.
    rewrite bool_decide_eq_false_2 in Hrun by apply not_elem_of_empty.
    cbn [crawled List.length orb] in Hrun.
    change (MAX_PAGES <=? 0)%nat with false in Hrun. cbv iota zeta in Hrun.
    rewrite Hfetch, Hseed in Hrun.
    rewrite (extractLinks_single html root h root Hhrefs Hskip Hres eq_refl) in Hrun.
    rewrite (filter_internal_single root (url_href root) root Hback eq_refl) in Hrun.
    cbn [push_page log_request add_visited crawled visited requests app
           List.length] in Hrun.
    change (take (MAX_PAGES - 1) [url_href root]) with [url_href root] in Hrun.
    assert (Hfresh : url_href root ∉ ({[START_URL]} ∪ ∅ : gset string)).
    { rewrite elem_of_union, elem_of_singleton. intros [Heq | Hin]; [done|].
      by apply elem_of_empty in Hin. }
    rewrite follow_single in Hrun by exact Hfresh.
    apply crawl_requests in Hrun as (l & Hl & Hcase & Hnonempty).
    cbn [push_page log_request add_visited requests visited crawled
           List.length app] in Hl, Hnonempty.
    destruct Hcase as [-> | (rest & -> & _)].
    - exfalso. apply Hnonempty; [exact Hfresh | unfold MAX_PAGES; lia | reflexivity].
    - exists rest. exact Hl. }
  destruct Hrest as [rest Hrest].
  exists st, rest. split; [exact Hrun|]. split; [exact Hrest|].
  split; [by rewrite Hreq|]. split; [exact Hlen|].
  split; [by rewrite Hreq|]. split; [exact Hnorm1|]. split; [exact Hnorm2|].
  intros Huniq.
  assert (Habs : 0%nat = 1%nat); [|discriminate Habs].
  apply (Huniq 0%nat 1%nat START_URL (url_href root) (url_href root));
    rewrite ?Hrest; done.
Qed.

Lemma same_normalized_url_fetched_twice_witness :
  exists st rest,
    @run_crawl SlashFixtures.slash_web SlashFixtures.root "https://h.example" = Some st
    /\ requests st = "https://h.example" :: "https://h.example/" :: rest
    /\ url <$> crawled st = requests st
    /\ ~ @spec_unique_fetches SlashFixtures.slash_web (requests st).
Proof.
  destruct (same_normalized_url_fetched_twice SlashFixtures.slash_web
              SlashFixtures.root "https://h.example" SlashFixtures.slash_html "/" 200
              eq_refl eq_refl ltac:(discriminate) eq_refl eq_refl eq_refl eq_refl)
    as (st & rest & Hrun & Hreq & Hurls & _ & _ & _ & _ & Hdup).
  exists st, rest. by repeat split.
Defined.

(** The run on the small site, in full: two records of the one page. *)
Example crawl_slash_site :
  (fun st => (map (fun p => (url p, status_code p, internal_links p)) (crawled st),
              requests st))
    <$> @run_crawl SlashFixtures.slash_web SlashFixtures.root "https://h.example"
  = Some ([("https://h.example", 200, Some 1); ("https://h.example/", 200, Some 1)],
          ["https://h.example"; "https://h.example/"]).
Proof. vm_compute. reflexivity. Qed.

End CrawlerDuplicates.

(** * Text outside ASCII in the coverage checks *)

Module ContentCoverageUnicode.
Import ContentCoverageChecker ContentCoverageAux UnicodeFixtures.

(** [trim] strips the no-break space, also around a word. *)
Example trim_no_break_space :
  JsString.trim nbsp = ""
  /\ JsString.trim (nbsp +:+ " Home" +:+ nbsp) = "Home"
  /\ JsString.trim ("a" +:+ nbsp +:+ "b") = "a" +:+ nbsp +:+ "b".
Proof. vm_compute. by repeat split. Qed.

(** [length] counts UTF-16 code units, not bytes. *)
Example length_counts_code_units :
  JsString.length e_acute = 1%nat
  /\ String.length e_acute = 2%nat
  /\ JsString.length grinning_face = 2%nat
  /\ JsString.length (repeat_string 49 e_acute) = 49%nat.
Proof. vm_compute. by repeat split. Qed.

(** A title that is one no-break space is a missing title: the page of C8
    with such a title gets four issues and the score 50. *)
Example no_break_space_title_is_missing :
  let r := analyzeContentCoverage
             (Fixtures.snapshot_of_pages [Fixtures.bare_page "https://example.com/" nbsp]) in
  map i_type (issues r)
  = ["missing_meta_description"; "missing_h1"; "missing_title"; "thin_content"]
  /\ summary_coverage_score (summary r) = 50.
Proof. vm_compute. by split. Qed.

(** A description of 49 accented letters (98 bytes) is short, one of 50 is
    not: the page is clean from 50 letters on. *)
Example short_description_by_code_units :
  map (fun i => (i_type i, i_message i))
      (issues (analyzeContentCoverage
                 (Fixtures.snapshot_of_pages
                    [described_page "Home" (repeat_string 49 e_acute)])))
  = [("short_meta_description",
      "Meta description too short (49 chars). Recommended: 150-160")]
  /\ clean_page (described_page "Home" (repeat_string 49 e_acute)) = false
  /\ clean_page (described_page "Home" (repeat_string 50 e_acute)) = true
  /\ issues (analyzeContentCoverage
               (Fixtures.snapshot_of_pages
                  [described_page "Home" (repeat_string 50 e_acute)])) = [].
Proof. vm_compute. by repeat split. Qed.

End ContentCoverageUnicode.
